(** * Product analytics and A/B testing: a shallow embedding

    The Python sources [src/analytics.py] and [src/ab_test.py] are a set of
    pure transforms over pandas tables.  A table is modelled as the list of
    its rows, a column of unix seconds as [Z], a float column whose values
    are ratios of integers as [Q] (exact arithmetic; NaN and the infinities
    are explicit where the code can produce them), the float columns of
    the CUPED adjustment as binary64 floats, and the pandas primitives the
    code calls ([sort_values], [groupby], [merge], [drop_duplicates]) as
    list functions with the same row semantics. *)

From Stdlib Require Import Floats.
From Stdlib Require Import String Reals.
From Stdlib Require Import List ZArith QArith Bool Lia Lra Lqa.
From Stdlib Require Import Permutation Sorting.Sorted.
Import ListNotations.

Local Open Scope Z_scope.

(** ** pandas primitives on lists of rows *)

Fixpoint insert_sorted {A} (leb : A -> A -> bool) (x : A) (l : list A)
    : list A :=
  match l with
  | [] => [x]
  | y :: t => if leb x y then x :: l else y :: insert_sorted leb x t
  end.

(** [df.sort_values(col)]: ascending order on the sort key.  pandas'
    default sort promises nothing about rows with equal keys; this one
    keeps them in their original order, and the theorems below use only
    that the result is an ordered permutation of the input. *)
Definition sort_values {A} (leb : A -> A -> bool) (l : list A) : list A :=
  fold_right (insert_sorted leb) [] l.

Definition le_key {A} (leb : A -> A -> bool) (x y : A) : Prop :=
  leb x y = true.

(** [df.drop_duplicates()]: the first occurrence of every row, in order. *)
Fixpoint drop_duplicates {A} (eq_dec : forall x y : A, {x = y} + {x <> y})
    (l : list A) : list A :=
  match l with
  | [] => []
  | x :: t =>
      x :: filter (fun y => if eq_dec x y then false else true)
             (drop_duplicates eq_dec t)
  end.

(** [series.nunique()]. *)
Definition nunique (l : list Z) : Z :=
  Z.of_nat (length (drop_duplicates Z.eq_dec l)).

(** [series.min()]; [None] is the missing value (NaN, NaT) pandas returns
    on an empty series. *)
Definition series_min (l : list Z) : option Z :=
  match l with
  | [] => None
  | x :: t => Some (fold_left Z.min t x)
  end.

Section GroupBy.
Context {Row K R : Type}.
Variable K_eq_dec : forall x y : K, {x = y} + {x <> y}.
Variable K_leb : K -> K -> bool.

(** The rows of one group, in their original order. *)
Definition group_rows (key : Row -> K) (k : K) (rows : list Row)
    : list Row :=
  filter (fun r => if K_eq_dec (key r) k then true else false) rows.

(** The group keys: distinct, in ascending order ([sort=True]). *)
Definition group_keys (key : Row -> K) (rows : list Row) : list K :=
  sort_values K_leb (drop_duplicates K_eq_dec (map key rows)).

(** [df.groupby(key).agg(...).reset_index()]: one output row per key
    that occurs, holding the aggregate of that key's rows. *)
Definition groupby (key : Row -> K) (agg : list Row -> R)
    (rows : list Row) : list (K * R) :=
  map (fun k => (k, agg (group_rows key k rows))) (group_keys key rows).
End GroupBy.

(** [left.merge(right, on=key, how="left")]: every left row is paired with
    each right row of the same key, in order; a left row without a match
    is kept once, its right columns missing. *)
Definition merge_left {A B} (key : A -> Z) (left : list A)
    (right : list (Z * B)) : list (A * option B) :=
  flat_map
    (fun a =>
       match filter (fun kb => fst kb =? key a) right with
       | [] => [(a, None)]
       | ms => map (fun kb => (a, Some (snd kb))) ms
       end)
    left.

(** ** Floats

    Outside the CUPED adjustment, the float values these functions compute
    are quotients of integers and the special values of a division by zero
    or of a missing operand. *)
Inductive pyfloat :=
  | Fin (q : Q)
  | PosInf
  | NegInf
  | NaN.

(** Division of an integer column by a column that a left merge may have
    left missing ([None]): IEEE results on a zero or missing divisor. *)
Definition true_div (a : Z) (b : option Z) : pyfloat :=
  match b with
  | None => NaN
  | Some b =>
      if b =? 0 then
        if a =? 0 then NaN else if 0 <? a then PosInf else NegInf
      else Fin (inject_Z a / inject_Z b)
  end.

(** Comparisons of a float with a finite constant; false on NaN. *)
Definition f_leb (x : pyfloat) (c : Q) : bool :=
  match x with
  | Fin q => Qle_bool q c
  | NegInf => true
  | PosInf | NaN => false
  end.

Definition f_geb (x : pyfloat) (c : Q) : bool :=
  match x with
  | Fin q => Qle_bool c q
  | PosInf => true
  | NegInf | NaN => false
  end.

Definition f_ltb (x : pyfloat) (c : Q) : bool :=
  match x with
  | Fin q => negb (Qle_bool c q)
  | NegInf => true
  | PosInf | NaN => false
  end.

(** ** The event deriver ([analytics.py], [prepare_events]) *)

(** A row of the ratings table: userId, movieId, rating, timestamp (unix
    seconds). *)
Record rating_row := mk_rating {
  userId : Z;
  movieId : Z;
  rating : Q;
  timestamp : Z
}.

(** A row of the event log: user_id, item_id, ts, event.  [ts] is the
    datetime [pd.to_datetime(timestamp, unit="s")], kept as its number of
    seconds since the epoch. *)
Record event_row := mk_event {
  user_id : Z;
  item_id : Z;
  ts : Z;
  event : string
}.

Record PreparedData (U M : Type) := mk_prepared {
  events : list event_row;
  users : U;
  movies : M
}.
Arguments events {U M} _.
Arguments users {U M} _.
Arguments movies {U M} _.

(** [df[["user_id","item_id","ts"]].copy()] followed by the assignment of
    the constant [event] column. *)
Definition with_event (name : string) (r : rating_row) : event_row :=
  mk_event (userId r) (movieId r) (timestamp r) name.

Definition rating_ge (threshold : Q) (r : rating_row) : bool :=
  Qle_bool threshold (rating r).

Definition ts_leb (a b : event_row) : bool := ts a <=? ts b.

(** [astype(int)] on a column of integers: numpy's cast to int64, which
    keeps an int64 value and wraps a uint64 value of [2^63] or more. *)
Definition astype_int (z : Z) : Z := (z + 2 ^ 63) mod 2 ^ 64 - 2 ^ 63.

(** The two casts that close [prepare_events]. *)
Definition normalize_types (e : event_row) : event_row :=
  mk_event (astype_int (user_id e)) (astype_int (item_id e)) (ts e) (event e).

(** [prepare_events], the events table.  [sort_values] keeps rows of one
    timestamp in the order of the concatenation; pandas' default sort may
    leave them in another, and the statements below use the log only as a
    rearrangement of its events in ascending timestamp order. *)
Definition derive_events (ratings : list rating_row) : list event_row :=
  let df := ratings in
  let views := map (with_event "view") df in
  let likes := map (with_event "like") (filter (rating_ge 4) df) in
  let maybe_comment :=
    map (with_event "comment") (filter (rating_ge (9 # 2)) df) in
  let events := views ++ likes ++ maybe_comment in
  let events := sort_values ts_leb events in
  map normalize_types events.

(** The users and movies tables are only renamed and passed through. *)
Definition prepare_events {U M} (ratings : list rating_row)
    (users : U) (movies : M) : PreparedData U M :=
  mk_prepared U M (derive_events ratings) users movies.

(** Number of rows of an event log with a given event name. *)
Definition count_event (name : string) (evs : list event_row) : nat :=
  length (filter (fun e => String.eqb (event e) name) evs).

Definition event_row_eq_dec (a b : event_row) : {a = b} + {a <> b}.
Proof.
  decide equality; try apply Z.eq_dec. apply string_dec.
Defined.

(** The event of a given name that a rating row leaves in the log. *)
Definition cast_event (name : string) (r : rating_row) : event_row :=
  normalize_types (with_event name r).

(** ** Per-user time origin (shared by [build_funnel] and [user_metric]) *)

Definition SECONDS_PER_DAY : Z := 86400.

(** A missing match and the minimum of an empty group are both NaT. *)
Definition or_missing {A} (m : option (option A)) : option A :=
  match m with
  | Some (Some t) => Some t
  | _ => None
  end.

(** [first_ts = ev.groupby("user_id")["ts"].min().rename("t0")] *)
Definition first_ts (ev : list event_row) : list (Z * option Z) :=
  groupby Z.eq_dec Z.leb user_id (fun g => series_min (map ts g)) ev.

(** [ev.merge(first_ts, on="user_id", how="left")]: each event row with
    its user's [t0]. *)
Definition with_t0 (ev : list event_row) : list (event_row * option Z) :=
  map (fun r => (fst r, or_missing (snd r)))
      (merge_left user_id ev (first_ts ev)).

(** [(ev["ts"] - ev["t0"]).dt.total_seconds() / 86400] *)
Definition days_since (r : event_row * option Z) : pyfloat :=
  match snd r with
  | Some t0 => Fin (inject_Z (ts (fst r) - t0) / inject_Z SECONDS_PER_DAY)
  | None => NaN
  end.

Definition is_view (r : event_row * option Z) : bool :=
  String.eqb (event (fst r)) "view".

(** [.groupby("user_id").size().reset_index()] *)
Definition size_by_user (rows : list (event_row * option Z))
    : list (Z * Z) :=
  groupby Z.eq_dec Z.leb (fun r => user_id (fst r))
          (fun g => Z.of_nat (length g)) rows.

(** ** The funnel ([analytics.py], [build_funnel]) *)

Record funnel_row := mk_funnel {
  step : string;
  step_users : Z;
  rate_vs_signup : pyfloat
}.

Definition user_t0_eq_dec (a b : Z * option Z) : {a = b} + {a <> b}.
Proof.
  decide equality; [decide equality|]; apply Z.eq_dec.
Defined.

(** [.fillna(0)] on a step column, then its [.sum()]. *)
Definition fillna0 (x : option Z) : Z :=
  match x with
  | Some v => v
  | None => 0
  end.

Definition column_sum (col : list Z) : Z := fold_right Z.add 0 col.

Definition build_funnel (events : list event_row) : list funnel_row :=
  let ev := with_t0 events in
  let users :=
    drop_duplicates user_t0_eq_dec (map (fun r => (user_id (fst r), snd r)) ev) in
  let step1 := map (fun u => (fst u, (snd u, 1))) users in
  let activated :=
    size_by_user (filter (fun r => is_view r && f_leb (days_since r) 3) ev) in
  let step2_users :=
    map (fun r => (fst r, 1)) (filter (fun r => 5 <=? snd r) activated) in
  let week1 :=
    size_by_user
      (filter (fun r => f_geb (days_since r) 7 && f_ltb (days_since r) 8) ev) in
  let step3_users :=
    map (fun r => (fst r, 1)) (filter (fun r => 0 <? snd r) week1) in
  let df :=
    merge_left (fun r => fst (fst (fst r)))
      (merge_left (fun r => fst (fst r))
         (merge_left fst users step1)
         step2_users)
      step3_users in
  let col_step1 := map (fun r => fillna0 (option_map snd (snd (fst (fst r))))) df in
  let col_step2 := map (fun r => fillna0 (snd (fst r))) df in
  let col_step3 := map (fun r => fillna0 (snd r)) df in
  let totals :=
    [ ("signup"%string, column_sum col_step1);
      ("activation(5 views in 3d)"%string, column_sum col_step2);
      ("day7_retention"%string, column_sum col_step3) ] in
  let first_users := option_map snd (hd_error totals) in
  map (fun t => mk_funnel (fst t) (snd t) (true_div (snd t) first_users))
      totals.

(** ** Cohorts and retention ([analytics.py], [build_cohorts]) *)

Record cohort_row := mk_cohort {
  cohort : Z;
  period : Z;
  active_users : Z;
  cohort_size : option Z;
  retention_rate : pyfloat
}.

Definition pair_eq_dec (a b : Z * Z) : {a = b} + {a <> b}.
Proof.
  decide equality; apply Z.eq_dec.
Defined.

(** Ascending order on [(cohort, period)]. *)
Definition pair_leb (a b : Z * Z) : bool :=
  (fst a <? fst b) || ((fst a =? fst b) && (snd a <=? snd b)).

Definition cohort_leb (a b : cohort_row) : bool :=
  pair_leb (cohort a, period a) (cohort b, period b).

(** [ts.dt.to_period("W").dt.start_time], the default period: the Monday
    00:00 that starts the week of [t] (the epoch is a Thursday). *)
Definition week_start (t : Z) : Z :=
  t - (t + 3 * SECONDS_PER_DAY) mod (7 * SECONDS_PER_DAY).

(** [build_cohorts(events, period)]; [period_start] is the meaning of
    [ts.dt.to_period(period).dt.start_time] for the chosen [period]. *)
Definition build_cohorts (period_start : Z -> Z) (events : list event_row)
    : list cohort_row :=
  let ev := map (fun e => (e, period_start (ts e))) events in
  let first :=
    groupby Z.eq_dec Z.leb (fun r => user_id (fst r))
            (fun g => series_min (map snd g)) ev in
  let ev :=
    map (fun r => (fst r, or_missing (snd r)))
        (merge_left (fun r => user_id (fst r)) ev first) in
  (* groupby drops the rows whose key is missing *)
  let keyed :=
    flat_map (fun r => match snd r with
                       | Some c => [((c, snd (fst r)), user_id (fst (fst r)))]
                       | None => []
                       end) ev in
  let retention :=
    groupby pair_eq_dec pair_leb fst (fun g => nunique (map snd g)) keyed in
  let sizes :=
    map (fun r => (fst (fst r), snd r))
        (filter (fun r => snd (fst r) =? fst (fst r)) retention) in
  let out := merge_left (fun r => fst (fst r)) retention sizes in
  let out :=
    map (fun r => mk_cohort (fst (fst (fst r))) (snd (fst (fst r)))
                            (snd (fst r)) (snd r)
                            (true_div (snd (fst r)) (snd r))) out in
  sort_values cohort_leb out.

(** ** The experiment engine ([ab_test.py]) *)

Record assignment := mk_assignment {
  a_user_id : Z;
  variant : string
}.

(** [random_assign_users].  [G] is the state of a numpy generator,
    [default_rng seed] the generator [np.random.default_rng(seed)] builds,
    and [rng_random g n] the [n] uniform draws of [g.random(n)] with the
    state they leave the generator in. *)
Definition random_assign_users {G} (default_rng : Z -> G)
    (rng_random : G -> nat -> list Q * G)
    (users : list Z) (seed : Z) (p_treat : Q) : list assignment :=
  let rng := default_rng seed in
  let mask :=
    map (fun u => negb (Qle_bool p_treat u))
        (fst (rng_random rng (length users))) in
  map (fun r => mk_assignment (fst r) (snd r))
      (combine users
         (map (fun m : bool => if m then "T"%string else "C"%string) mask)).

(** [user_metric]: the column is named [views_w<window_days>]. *)
Definition user_metric (events : list event_row) (window_days : Z)
    : list (Z * Z) :=
  let ev := with_t0 events in
  let in_win :=
    filter (fun r => is_view r && f_leb (days_since r) (inject_Z window_days))
           ev in
  size_by_user in_win.

Definition count_variant (v : string) (assignments : list assignment) : Z :=
  Z.of_nat (length (filter (fun a => String.eqb (variant a) v) assignments)).

(** [srm_check]; [chi2_cdf] is [scipy.stats.chi2.cdf(., df=1)].  On a
    table without a T or a C row the code divides 0 by 0 and its statistic
    is NaN; the quotient of real numbers is not the code's value there. *)
Definition srm_statistic (assignments : list assignment) : R :=
  let nT := count_variant "T" assignments in
  let nC := count_variant "C" assignments in
  let total := nT + nC in
  let expected := (0.5 * IZR total)%R in
  ((IZR nT - expected) ^ 2 / expected + (IZR nC - expected) ^ 2 / expected)%R.

Definition srm_check (chi2_cdf : R -> R) (assignments : list assignment)
    : R :=
  let chi2 := srm_statistic assignments in
  let p := (1 - chi2_cdf chi2)%R in
  p.

(** [series.sum()] and [series.mean()] on a column of exact numbers. *)
Definition series_sum (l : list Q) : Q := fold_right Qplus 0%Q l.

Definition series_mean (l : list Q) : Q :=
  (series_sum l / inject_Z (Z.of_nat (length l)))%Q.

(** *** CUPED

    The two series are columns of binary64 floats, modelled by the
    primitive floats with their IEEE operations.  The literal [1e-9] is
    the binary64 number closest to it. *)
Definition cuped_epsilon : float := 0x1.12e0be826d695p-30%float.

(** Binary operations on two series align them on the index (positions
    here); a position present on one side only is missing on the other. *)
Fixpoint align_outer {A B} (y : list A) (x : list B)
    : list (option A * option B) :=
  match y with
  | [] => map (fun b => (None, Some b)) x
  | a :: y' =>
      match x with
      | [] => map (fun a => (Some a, None)) y
      | b :: x' => (Some a, Some b) :: align_outer y' x'
      end
  end.

(** [cuped_adjust(y, x_cov)].  [series_var] is [x_cov.var()] and
    [series_cov] is [x_cov.cov(y)], the sample variance and covariance of
    pandas (ddof=1).  A missing operand makes the row NaN. *)
Definition cuped_adjust (series_var : list float -> float)
    (series_cov : list float -> list float -> float)
    (y x_cov : list float) : list float :=
  let theta :=
    (series_cov x_cov y / (series_var x_cov + cuped_epsilon))%float in
  map (fun p => match p with
                | (Some yi, Some xi) => (yi - theta * xi)%float
                | _ => nan
                end)
      (align_outer y x_cov).

(** The variance and the covariance as pandas computes them on a column
    without missing values: [nanops.nanvar] takes the mean, then the sum of
    the squared deviations over [count - ddof]; [Series.cov] is
    [np.cov(a, b, ddof=1)[0, 1]], which centres both columns and multiplies
    the sum of the products by [1 / (n - ddof)].  The sums run from left to
    right, as numpy's do on fewer than eight rows. *)
Definition float_of_nat (n : nat) : float :=
  PrimFloat.of_uint63 (Uint63.of_Z (Z.of_nat n)).

Definition float_sum (l : list float) : float :=
  fold_left PrimFloat.add l 0%float.

Definition nanvar (values : list float) : float :=
  let count := length values in
  if (count <=? 1)%nat then nan
  else
    let avg := (float_sum values / float_of_nat count)%float in
    let sqr := map (fun v => ((avg - v) * (avg - v))%float) values in
    (float_sum sqr / float_of_nat (count - 1))%float.

Definition nancov (a b : list float) : float :=
  let pairs := combine a b in
  let n := length pairs in
  if (n =? 0)%nat then nan
  else
    let avg_a := (float_sum (map fst pairs) / float_of_nat n)%float in
    let avg_b := (float_sum (map snd pairs) / float_of_nat n)%float in
    let c :=
      float_sum (map (fun p => ((fst p - avg_a) * (snd p - avg_b))%float)
                     pairs) in
    (c * (1 / float_of_nat (n - 1)))%float.

(** ** Vocabulary of the statements *)

(** The value a key is paired with in a table with one row per key. *)
Definition assoc {B} (k : Z) (table : list (Z * B)) : option B :=
  option_map snd (find (fun kb => fst kb =? k) table).

(** [t0] is the earliest timestamp among the events of user [u]. *)
Definition is_t0 (ev : list event_row) (u t0 : Z) : Prop :=
  (exists e, In e ev /\ user_id e = u /\ ts e = t0)
  /\ (forall e, In e ev -> user_id e = u -> t0 <= ts e).

(** The [t0] column of the merged frame, as a function of the user. *)
Definition t0_user (ev : list event_row) (u : Z) : option Z :=
  or_missing (assoc u (first_ts ev)).

(** The number of [view] events of user [u] with a timestamp in
    [[t0, t0 + window_days]] (days counted in seconds). *)
Definition views_in_window (ev : list event_row) (u t0 window_days : Z)
    : Z :=
  Z.of_nat
    (length
       (filter (fun e => (user_id e =? u) && String.eqb (event e) "view"
                         && (t0 <=? ts e)
                         && (ts e <=? t0 + window_days * SECONDS_PER_DAY))
               ev)).

(** The [users] frame of the funnel: one row per user. *)
Definition funnel_users (ev : list event_row) : list (Z * option Z) :=
  drop_duplicates user_t0_eq_dec
    (map (fun r => (user_id (fst r), snd r)) (with_t0 ev)).

(** [c] is the earliest period among the events of user [u]. *)
Definition is_cohort (period_start : Z -> Z) (ev : list event_row)
    (u c : Z) : Prop :=
  (exists e, In e ev /\ user_id e = u /\ period_start (ts e) = c)
  /\ (forall e, In e ev -> user_id e = u -> c <= period_start (ts e)).

(** The stages of [build_cohorts], named as its local variables. *)
Definition cohort_first (period_start : Z -> Z) (ev : list event_row)
    : list (Z * option Z) :=
  groupby Z.eq_dec Z.leb (fun r : event_row * Z => user_id (fst r))
          (fun g => series_min (map snd g))
          (map (fun e => (e, period_start (ts e))) ev).

Definition cohort_user (period_start : Z -> Z) (ev : list event_row)
    (u : Z) : option Z :=
  or_missing (assoc u (cohort_first period_start ev)).

Definition cohort_keyed (period_start : Z -> Z) (ev : list event_row)
    : list ((Z * Z) * Z) :=
  flat_map (fun r : (event_row * Z) * option Z =>
              match snd r with
              | Some c => [((c, snd (fst r)), user_id (fst (fst r)))]
              | None => []
              end)
    (map (fun r => (fst r, or_missing (snd r)))
         (merge_left (fun r : event_row * Z => user_id (fst r))
            (map (fun e => (e, period_start (ts e))) ev)
            (cohort_first period_start ev))).

Definition cohort_retention (period_start : Z -> Z) (ev : list event_row)
    : list ((Z * Z) * Z) :=
  groupby pair_eq_dec pair_leb fst (fun g => nunique (map snd g))
          (cohort_keyed period_start ev).

Definition cohort_sizes (period_start : Z -> Z) (ev : list event_row)
    : list (Z * Z) :=
  map (fun r : (Z * Z) * Z => (fst (fst r), snd r))
      (filter (fun r : (Z * Z) * Z => snd (fst r) =? fst (fst r))
              (cohort_retention period_start ev)).

(** The distinct users with cohort [c] and an event in period [p]. *)
Definition cohort_active (period_start : Z -> Z) (ev : list event_row)
    (c p : Z) : Z :=
  nunique (map snd (group_rows pair_eq_dec fst (c, p)
                               (cohort_keyed period_start ev))).

(** Equality of floats, up to the representation of a rational. *)
Definition float_eq (x y : pyfloat) : Prop :=
  match x, y with
  | Fin a, Fin b => (a == b)%Q
  | PosInf, PosInf | NegInf, NegInf | NaN, NaN => True
  | _, _ => False
  end.

(** The retention rate of a row if the division were guarded by an
    additive epsilon on the cohort size. *)
Definition epsilon_guarded_rate (eps : Q) (row : cohort_row) : pyfloat :=
  match cohort_size row with
  | Some s => Fin (inject_Z (active_users row) / (inject_Z s + eps))
  | None => NaN
  end.




(** The label [np.where(mask, "T", "C")] gives a draw. *)
Definition label_of_draw (p_treat d : Q) : string :=
  if negb (Qle_bool p_treat d) then "T" else "C".

(** ** Sample data

    Three users; user 1 rates twice, eight days apart. *)
Definition sample_ratings : list rating_row :=
  [ mk_rating 1 10 5 100;
    mk_rating 2 11 (7 # 2) 50;
    mk_rating 1 12 4 700000;
    mk_rating 3 13 (9 # 2) 50 ].

Definition sample_log : list event_row :=
  Eval vm_compute in derive_events sample_ratings.

(** A small linear congruential generator, to run the assignment on: the
    state is the last value, the seed is the first state, and the draws
    lie in [[0, 1)]. *)
Fixpoint lcg_random (state : Z) (n : nat) : list Q * Z :=
  match n with
  | O => ([], state)
  | S k =>
      let next := (1103515245 * state + 12345) mod 2147483648 in
      let rest := lcg_random next k in
      (Qmake next 2147483648 :: fst rest, snd rest)
  end.

Definition lcg_default_rng (seed : Z) : Z := seed.

(** A distribution function that attains Chebyshev's bound for mean 1 and
    variance 2, and assignment tables with a given split. *)
Definition chebyshev_cdf (x : R) : R :=
  if Rle_dec x 1 then 0%R else Rmax 0 (1 - 2 / (x - 1) ^ 2)%R.

Definition split_assignments (nT nC : nat) : list assignment :=
  repeat (mk_assignment 0 "T") nT ++ repeat (mk_assignment 0 "C") nC.

(** ** Vocabulary of the further properties *)

(** The number of [view] events of user [u] in the whole log. *)
Definition views_total (ev : list event_row) (u : Z) : Z :=
  Z.of_nat
    (length
       (filter (fun e => (user_id e =? u) && String.eqb (event e) "view")
               ev)).


(** User [u] has at least five [view] events within three days of their
    first event. *)
Definition activated (ev : list event_row) (u : Z) : Prop :=
  exists t0, is_t0 ev u t0 /\ 5 <= views_in_window ev u t0 3.

(** User [u] has an event, of any kind, at least seven and less than
    eight days after their first event. *)
Definition returned_day7 (ev : list event_row) (u : Z) : Prop :=
  exists t0 e,
    is_t0 ev u t0 /\ In e ev /\ user_id e = u
    /\ t0 + 7 * SECONDS_PER_DAY <= ts e < t0 + 8 * SECONDS_PER_DAY.

(** The [totals] frame of the funnel for given step counts. *)
Definition funnel_table (n1 n2 n3 : Z) : list funnel_row :=
  [ mk_funnel "signup" n1 (true_div n1 (Some n1));
    mk_funnel "activation(5 views in 3d)" n2 (true_div n2 (Some n1));
    mk_funnel "day7_retention" n3 (true_div n3 (Some n1)) ].

(** The [week1] frame of the funnel. *)
Definition funnel_week1 (ev : list event_row) : list (Z * Z) :=
  size_by_user
    (filter (fun r => f_geb (days_since r) 7 && f_ltb (days_since r) 8)
            (with_t0 ev)).

(** Membership of a key in a list of keys. *)
Definition key_in (keys : list Z) (k : Z) : bool :=
  existsb (Z.eqb k) keys.


(** Strictly ascending order on the [(cohort, period)] of two rows. *)
Definition cohort_lt (a b : cohort_row) : Prop :=
  cohort a < cohort b \/ (cohort a = cohort b /\ period a < period b).

(** The cohort of a user as a number (0 for a user without events). *)
Definition cohort_of (period_start : Z -> Z) (ev : list event_row)
    (u : Z) : Z :=
  match cohort_user period_start ev u with
  | Some c => c
  | None => 0
  end.


(** The rows of the CUPED output for a given [theta], as numbers. *)
Definition cuped_values (y x_cov : list Q) (theta : Q) : list Q :=
  map (fun p => fst p - theta * snd p)%Q (combine y x_cov).


(** ** The simulated treatment ([ab_test.py], [simulate_treatment_effect])

    [metric_df] holds the columns user_id and views_w7 and whatever other
    columns the caller carries along ([X]); [rng_normal g n] is
    [g.normal(0, 0.5, size=n)] with the state it leaves the generator in.
    A row of the result is the metric row, its variant and its [y]. *)
Definition simulate_treatment_effect {G X} (default_rng : Z -> G)
    (rng_normal : G -> nat -> list Q * G)
    (metric_df : list (Z * Z * X)) (assignments : list assignment)
    (lift_pct : Q) (seed : Z) : list ((Z * Z * X) * string * Q) :=
  let df :=
    map (fun r => (fst r, match snd r with
                          | Some v => v
                          | None => "C"%string
                          end))
        (merge_left (fun r : Z * Z * X => fst (fst r)) metric_df
                    (map (fun a => (a_user_id a, variant a)) assignments)) in
  let rng := default_rng seed in
  let base := map (fun r => inject_Z (snd (fst (fst r)))) df in
  let noise := fst (rng_normal rng (length df)) in
  let treated :=
    map (fun r => if String.eqb (snd (fst r)) "T"
                  then (fst (snd r) * (1 + lift_pct) + snd (snd r))%Q
                  else (fst (snd r) + snd (snd r))%Q)
        (combine df (combine base noise)) in
  map (fun r => (fst (fst r), snd (fst r), snd r)) (combine df treated).

(** ** The experiment run ([app.py], [run_experiment], steps 2 to 4)

    The frames the run builds from the event log before the tests. *)

(** Step 2: [random_assign_users(events["user_id"].drop_duplicates(),
    seed, p_treat=0.5)]. *)
Definition experiment_assignments {G} (default_rng : Z -> G)
    (rng_random : G -> nat -> list Q * G)
    (events : list event_row) (seed : Z) : list assignment :=
  random_assign_users default_rng rng_random
    (drop_duplicates Z.eq_dec (map user_id events)) seed (1 # 2).

(** Step 3: [m7.merge(m1, on="user_id", how="left").fillna(0)], rows of
    user_id, views_w7 and pre_views. *)
Definition experiment_metrics (events : list event_row)
    : list (Z * Z * Z) :=
  let m7 := user_metric events 7 in
  let m1 := user_metric events 1 in
  map (fun r => (fst (fst r), snd (fst r), fillna0 (snd r)))
      (merge_left fst m7 m1).

(** Step 4; [None] is the early return on an empty metric frame. *)
Definition experiment_frame {G} (default_rng : Z -> G)
    (rng_random rng_normal : G -> nat -> list Q * G)
    (events : list event_row) (lift_pct : Q) (seed : Z)
    : option (list ((Z * Z * Z) * string * Q)) :=
  let assignments := experiment_assignments default_rng rng_random events seed in
  let m := experiment_metrics events in
  match m with
  | [] => None
  | _ =>
      Some (simulate_treatment_effect default_rng rng_normal m assignments
                                      lift_pct seed)
  end.

(** The variant the simulation gives a user: the assigned one, C when the
    user has no assignment. *)
Definition variant_or_control (assignments : list assignment) (u : Z)
    : string :=
  match assoc u (map (fun a => (a_user_id a, variant a)) assignments) with
  | Some v => v
  | None => "C"%string
  end.

(** The simulated outcome of a row. *)
Definition simulated_y (lift_pct : Q) (label : string) (views : Z) (d : Q)
    : Q :=
  if String.eqb label "T"
  then (inject_Z views * (1 + lift_pct) + d)%Q
  else (inject_Z views + d)%Q.


(** Sample noise for the simulation: the draws of the sample generator,
    centred. *)
Definition lcg_normal (state : Z) (n : nat) : list Q * Z :=
  (map (fun d => d - (1 # 2))%Q (fst (lcg_random state n)),
   snd (lcg_random state n)).


(** ** The KPIs ([analytics.py], [product_kpis]) *)

(** [ts.dt.date], as the number of the day since the epoch. *)
Definition event_date (e : event_row) : Z := ts e / SECONDS_PER_DAY.

(** [series.max()]; [None] on an empty series. *)
Definition series_max (l : list Z) : option Z :=
  match l with
  | [] => None
  | x :: t => Some (fold_left Z.max t x)
  end.

(** [series.mean()] as a float: NaN on an empty series. *)
Definition mean_float (l : list Q) : pyfloat :=
  match l with
  | [] => NaN
  | _ :: _ => Fin (series_mean l)
  end.

(** [series.rolling(window, min_periods=1).mean()]: at row [i] the mean of
    the rows [i - window + 1 .. i] that exist. *)
Definition rolling_mean (window : nat) (l : list Q) : list Q :=
  map (fun i => series_mean (firstn (Nat.min (S i) window)
                                    (skipn (S i - window) l)))
      (seq 0 (length l)).

(** The bins of [pd.Grouper(freq="D")]: every day from the first to the
    last date, with or without events. *)
Definition day_bins (dates : list Z) : list Z :=
  match series_min dates, series_max dates with
  | Some lo, Some hi =>
      map (fun k => lo + Z.of_nat k) (seq 0 (Z.to_nat (hi - lo + 1)))
  | _, _ => []
  end.

Record kpis := mk_kpis {
  avg_DAU : pyfloat;
  peak_DAU : pyfloat;
  DAU_MAU_proxy : pyfloat;
  avg_daily_events : pyfloat
}.

Definition kpi_epsilon : Q := 1 # 1000000000.

(** [product_kpis]; [None] is the ValueError pandas raises when the
    rolling column, one value per day bin, is assigned to the DAU frame,
    one row per date with events, and the lengths differ. *)
Definition product_kpis (events : list event_row) : option kpis :=
  let ev := events in
  let dau :=
    groupby Z.eq_dec Z.leb event_date (fun g => nunique (map user_id g)) ev in
  let daily :=
    map (fun d => nunique (map user_id
                             (filter (fun e => event_date e =? d) ev)))
        (day_bins (map event_date ev)) in
  let mau_rolling := rolling_mean 30 (map inject_Z daily) in
  if (length mau_rolling =? length dau)%nat then
    let dau_col := map (fun r => inject_Z (snd r)) dau in
    let daily_events :=
      groupby Z.eq_dec Z.leb event_date (fun g => Z.of_nat (length g)) ev in
    Some (mk_kpis
            (mean_float dau_col)
            (match series_max (map snd dau) with
             | Some m => Fin (inject_Z m)
             | None => NaN
             end)
            (match mean_float dau_col, mean_float mau_rolling with
             | Fin a, Fin b => Fin (a / (b + kpi_epsilon))
             | _, _ => NaN
             end)
            (mean_float (map (fun r => inject_Z (snd r)) daily_events)))
  else None.

(** The log has an event on every day between two days with events. *)
Definition no_gap_day (ev : list event_row) : Prop :=
  forall e e' d,
    In e ev -> In e' ev -> event_date e <= d <= event_date e' ->
    exists e'', In e'' ev /\ event_date e'' = d.

(** A log with a day without events between two days with events. *)
Definition gap_log : list event_row :=
  [ mk_event 1 10 100 "view"; mk_event 1 11 (2 * 86400 + 5) "view" ].


(** A log with events on two consecutive days, and a ratings table with
    ratings on two consecutive days. *)
Definition two_day_log : list event_row :=
  [ mk_event 1 10 100 "view"; mk_event 2 10 200 "view";
    mk_event 1 11 (86400 + 5) "view" ].

Definition two_day_ratings : list rating_row :=
  [ mk_rating 1 10 5 100; mk_rating 2 10 3 200;
    mk_rating 1 11 4 (86400 + 5) ].


(** ** The dashboard build ([app.py], [build_all])

    The tables [build_all] computes from a ratings table, in its order:
    the event log (its first 1000 rows are shown), the KPIs, the weekly
    cohorts and the funnel.  [None] is the error message the [except]
    branch returns when one of the steps raises; reading the upload and
    drawing the figures are left out. *)
Definition build_all_tables (ratings : list rating_row)
    : option (list event_row * kpis * list cohort_row * list funnel_row) :=
  let pdata_events := derive_events ratings in
  match product_kpis pdata_events with
  | None => None
  | Some kpis =>
      let cohorts := build_cohorts week_start pdata_events in
      let funnel := build_funnel pdata_events in
      Some (firstn 1000 pdata_events, kpis, cohorts, funnel)
  end.

(** ** The data download ([data_download.py], [download_movielens])

    The files are a table from path to content, kept with the number of
    HTTP requests made so far.  [http_get] is the body that
    [requests.get(ML1M_URL)] and [raise_for_status] deliver ([None] when
    they raise), [convert] the reading of the three [.dat] members of the
    archive into the three CSV texts ([None] when it raises), and [disk]
    what writing to a path does.  The archive is read before any CSV is
    written, and the CSVs are written one after the other with nothing
    undone when a later step raises.  Printing and the [data] directory
    made at import are left out. *)
Record world := mk_world {
  files : list (string * string);
  requests : nat
}.

Inductive outcome := Returned | Raised.

(** A write succeeds, raises before the file is touched, or raises after
    the file was opened for writing and leaves [partial] in it. *)
Inductive write_result :=
  | Written
  | Refused
  | Truncated (partial : string).

Definition file_exists (w : world) (path : string) : bool :=
  existsb (fun f => String.eqb (fst f) path) (files w).

Definition read_file (w : world) (path : string) : option string :=
  option_map snd (find (fun f => String.eqb (fst f) path) (files w)).

Definition write_file (path content : string) (w : world) : world :=
  mk_world
    ((path, content)
       :: filter (fun f => negb (String.eqb (fst f) path)) (files w))
    (requests w).

Definition try_write (disk : string -> write_result) (path content : string)
    (w : world) : world * outcome :=
  match disk path with
  | Written => (write_file path content w, Returned)
  | Refused => (w, Raised)
  | Truncated partial => (write_file path partial w, Raised)
  end.

Definition ratings_csv : string := "data/ratings.csv".
Definition users_csv : string := "data/users.csv".
Definition movies_csv : string := "data/movies.csv".
Definition DEST : string := "data/ml-1m.zip".

Definition download_movielens (http_get : option string)
    (convert : string -> option (string * string * string))
    (disk : string -> write_result) (w : world) : world * outcome :=
  if file_exists w ratings_csv && file_exists w users_csv
     && file_exists w movies_csv
  then (w, Returned)
  else
    let w := mk_world (files w) (S (requests w)) in
    match http_get with
    | None => (w, Raised)
    | Some content =>
        match try_write disk DEST content w with
        | (w, Raised) => (w, Raised)
        | (w, Returned) =>
            match convert content with
            | None => (w, Raised)
            | Some (ratings, users, movies) =>
                match try_write disk ratings_csv ratings w with
                | (w, Raised) => (w, Raised)
                | (w, Returned) =>
                    match try_write disk users_csv users w with
                    | (w, Raised) => (w, Raised)
                    | (w, Returned) => try_write disk movies_csv movies w
                    end
                end
            end
        end
    end.

(** The timestamps of a ratings table skip no calendar day. *)
Definition no_gap_rating_day (ratings : list rating_row) : Prop :=
  forall r r' d,
    In r ratings -> In r' ratings ->
    timestamp r / SECONDS_PER_DAY <= d <= timestamp r' / SECONDS_PER_DAY ->
    exists r'', In r'' ratings /\ timestamp r'' / SECONDS_PER_DAY = d.

(** Sample worlds and responses for the download. *)
Definition empty_world : world := mk_world [] 0.

Definition sample_convert (content : string)
    : option (string * string * string) :=
  if String.eqb content "zip" then Some ("r", "u", "m")%string else None.

(** A disk on which every write succeeds, and one that fails while it
    writes the users table. *)
Definition sound_disk (path : string) : write_result := Written.

Definition failing_disk (path : string) : write_result :=
  if String.eqb path users_csv then Truncated "u" else Written.

(** * Properties *)

(** ** The functions on the sample data *)

Example derive_events_sample :
  derive_events sample_ratings = sample_log
  /\ map (fun e => (user_id e, ts e, event e)) sample_log
  = [ (2, 50, "view"); (3, 50, "view"); (3, 50, "like"); (3, 50, "comment");
      (1, 100, "view"); (1, 100, "like"); (1, 100, "comment");
      (1, 700000, "view"); (1, 700000, "like") ]%string.
Proof. split; reflexivity. Qed.

Example user_metric_sample :
  user_metric sample_log 7 = [(1, 1); (2, 1); (3, 1)]
  /\ user_metric sample_log 9 = [(1, 2); (2, 1); (3, 1)]
  /\ user_metric (filter (fun e => negb (is_view (e, None))) sample_log) 7
     = [].
Proof. repeat split; reflexivity. Qed.

Example build_funnel_sample :
  map (fun r => (step_users r, rate_vs_signup r)) (build_funnel sample_log)
  = [(3, Fin (3 # 3)); (0, Fin (0 # 3)); (0, Fin (0 # 3))]
  /\ map rate_vs_signup (build_funnel []) = [NaN; NaN; NaN].
Proof. split; reflexivity. Qed.

Example build_cohorts_sample :
  build_cohorts week_start sample_log
  = [ mk_cohort (-259200) (-259200) 3 (Some 3) (Fin (3 # 3));
      mk_cohort (-259200) 345600 1 (Some 3) (Fin (1 # 3)) ].
Proof. reflexivity. Qed.

Example cuped_adjust_sample :
  cuped_adjust nanvar nancov [7]%float [7]%float = [nan]
  /\ cuped_adjust nanvar nancov [5; 5]%float [5; 5]%float = [5; 5]%float
  /\ cuped_adjust nanvar nancov [1; 3]%float [1; 3]%float
     = [0x1.12e0cp-31; 0x1.9c512p-30]%float.
Proof. repeat split; vm_compute; reflexivity. Qed.

(** ** Facts about the pandas primitives *)

Section SortValuesFacts.
Context {A : Type}.
Variable leb : A -> A -> bool.

Lemma insert_sorted_perm x l : Permutation (x :: l) (insert_sorted leb x l).
Proof.
  induction l as [|y t IH]; simpl; [reflexivity|].
  destruct (leb x y); [reflexivity|].
  rewrite perm_swap. now apply perm_skip.
Qed.

Lemma sort_values_perm l : Permutation l (sort_values leb l).
Proof.
  induction l as [|x t IH]; simpl; [constructor|].
  rewrite <- insert_sorted_perm. now apply perm_skip.
Qed.

Lemma sort_values_In l x : In x (sort_values leb l) <-> In x l.
Proof.
  split; apply Permutation_in; [symmetry|]; apply sort_values_perm.
Qed.

Lemma sort_values_length l : length (sort_values leb l) = length l.
Proof. symmetry. apply Permutation_length, sort_values_perm. Qed.

Lemma sort_values_NoDup l : NoDup l -> NoDup (sort_values leb l).
Proof. apply Permutation_NoDup, sort_values_perm. Qed.

Hypothesis leb_total : forall x y, leb x y = true \/ leb y x = true.

Lemma insert_sorted_hd x y l :
  le_key leb y x -> HdRel (le_key leb) y l ->
  HdRel (le_key leb) y (insert_sorted leb x l).
Proof.
  intros Hyx Hl. destruct l as [|z t]; simpl.
  - now constructor.
  - destruct (leb x z); constructor; auto. now inversion Hl.
Qed.

Lemma insert_sorted_sorted x l :
  Sorted (le_key leb) l -> Sorted (le_key leb) (insert_sorted leb x l).
Proof.
  induction 1 as [|y t Ht IH Hhd]; simpl.
  - repeat constructor.
  - destruct (leb x y) eqn:E.
    + constructor; [now constructor|]. now constructor.
    + constructor; [exact IH|].
      apply insert_sorted_hd; [|exact Hhd].
      destruct (leb_total x y) as [H|H]; [congruence|exact H].
Qed.

Lemma sort_values_sorted l : Sorted (le_key leb) (sort_values leb l).
Proof.
  induction l as [|x t IH]; simpl; [constructor|].
  now apply insert_sorted_sorted.
Qed.
End SortValuesFacts.

Lemma filter_perm {A} (f : A -> bool) l l' :
  Permutation l l' -> Permutation (filter f l) (filter f l').
Proof.
  induction 1 as [|x l l' _ IH|x y l|l l' l'' _ IH1 _ IH2]; simpl.
  - constructor.
  - destruct (f x); [now apply perm_skip|exact IH].
  - destruct (f x), (f y); try reflexivity. apply perm_swap.
  - now rewrite IH1.
Qed.

Lemma filter_nil_iff {A} (f : A -> bool) l :
  filter f l = [] <-> forall x, In x l -> f x = false.
Proof.
  induction l as [|a t IH]; simpl.
  - split; [intros _ x []|reflexivity].
  - destruct (f a) eqn:E; split.
    + discriminate.
    + intros H. specialize (H a (or_introl eq_refl)). congruence.
    + intros H x [<-|Hx]; [exact E|]. now apply IH.
    + intros H. apply IH. intros x Hx. apply H. now right.
Qed.

Section DropDuplicatesFacts.
Context {A : Type}.
Variable eq_dec : forall x y : A, {x = y} + {x <> y}.

Lemma drop_duplicates_In l x : In x (drop_duplicates eq_dec l) <-> In x l.
Proof.
  induction l as [|a t IH]; simpl; [tauto|].
  rewrite filter_In, IH.
  destruct (eq_dec a x) as [->|Hne]; [tauto|].
  split; [tauto|]. intros [H|H]; [tauto|]. right. tauto.
Qed.

Lemma drop_duplicates_NoDup l : NoDup (drop_duplicates eq_dec l).
Proof.
  induction l as [|a t IH]; simpl; constructor.
  - rewrite filter_In. intros [_ H].
    destruct (eq_dec a a); [discriminate|congruence].
  - now apply NoDup_filter.
Qed.

(** Two duplicate-free lists with the same elements have the same
    number of rows. *)
Lemma NoDup_same_length (l l' : list A) :
  NoDup l -> NoDup l' -> (forall x, In x l <-> In x l') ->
  length l = length l'.
Proof.
  intros Hl Hl' Hiff. apply Nat.le_antisymm.
  - apply NoDup_incl_length; [exact Hl|]. intros x; apply Hiff.
  - apply NoDup_incl_length; [exact Hl'|]. intros x; apply Hiff.
Qed.
End DropDuplicatesFacts.

(** ** The event deriver *)

Lemma ts_leb_total a b : ts_leb a b = true \/ ts_leb b a = true.
Proof. unfold ts_leb. lia. Qed.

Lemma astype_int_id z : - 2 ^ 63 <= z < 2 ^ 63 -> astype_int z = z.
Proof.
  unfold astype_int. change (2 ^ 63) with 9223372036854775808.
  change (2 ^ 64) with 18446744073709551616. intros Hz.
  rewrite Z.mod_small by lia. lia.
Qed.

Lemma astype_int_range z : - 2 ^ 63 <= astype_int z < 2 ^ 63.
Proof.
  unfold astype_int. change (2 ^ 63) with 9223372036854775808.
  change (2 ^ 64) with 18446744073709551616.
  pose proof (Z.mod_pos_bound (z + 9223372036854775808)
                18446744073709551616 ltac:(lia)). lia.
Qed.

Example astype_int_wraps : astype_int (2 ^ 63) = - 2 ^ 63.
Proof. reflexivity. Qed.

Lemma derive_events_perm ratings :
  Permutation
    (map normalize_types
       (map (with_event "view") ratings
        ++ map (with_event "like") (filter (rating_ge 4) ratings)
        ++ map (with_event "comment") (filter (rating_ge (9 # 2)) ratings)))
    (derive_events ratings).
Proof. unfold derive_events. apply Permutation_map, sort_values_perm. Qed.

Lemma count_event_app name l l' :
  count_event name (l ++ l') = (count_event name l + count_event name l')%nat.
Proof. unfold count_event. now rewrite filter_app, length_app. Qed.

Lemma count_event_with_event name name' l :
  count_event name (map normalize_types (map (with_event name') l))
  = if String.eqb name' name then length l else 0%nat.
Proof.
  unfold count_event. induction l as [|r t IH]; cbn [map filter length].
  - now destruct (String.eqb name' name).
  - cbn [normalize_types with_event event].
    destruct (String.eqb name' name); cbn [length]; [now rewrite IH|exact IH].
Qed.

(** Rows of a log with a given event name and timestamp. *)
Lemma kind_ts_with_event name name' t l :
  length (filter (fun e => String.eqb (event e) name && (ts e =? t))
                 (map normalize_types (map (with_event name') l)))
  = if String.eqb name' name
    then length (filter (fun r => timestamp r =? t) l)
    else 0%nat.
Proof.
  induction l as [|r l IH]; cbn [map filter length].
  - now destruct (String.eqb name' name).
  - cbn [normalize_types with_event event ts].
    destruct (String.eqb name' name); cbn [andb].
    + destruct (timestamp r =? t); cbn [length]; now rewrite IH.
    + exact IH.
Qed.

Lemma filter_filter_length {A} (f g : A -> bool) l :
  length (filter g (filter f l)) = length (filter (fun a => f a && g a) l).
Proof.
  induction l as [|a l IH]; cbn [filter]; [reflexivity|].
  destruct (f a); cbn [andb filter]; [|exact IH].
  destruct (g a); cbn [length]; now rewrite IH.
Qed.

Lemma Sorted_map_ts (f : event_row -> event_row) l :
  (forall e, ts (f e) = ts e) ->
  Sorted (fun a b => ts a <= ts b) l ->
  Sorted (fun a b => ts a <= ts b) (map f l).
Proof.
  intros Hf H. induction H as [|a t Ht IH Hhd]; cbn [map]; constructor; auto.
  destruct Hhd as [|b t' Hab]; cbn [map]; constructor.
  now rewrite !Hf.
Qed.

Lemma sorted_by_ts l :
  Sorted (fun a b => ts a <= ts b) (sort_values ts_leb l).
Proof.
  assert (H := sort_values_sorted ts_leb ts_leb_total l).
  induction H as [|a t Ht IH Hhd]; constructor; auto.
  destruct Hhd as [|b t' Hab]; constructor.
  unfold le_key, ts_leb in Hab. lia.
Qed.

Lemma derive_events_sorted ratings :
  Sorted (fun a b => ts a <= ts b) (derive_events ratings).
Proof.
  unfold derive_events. apply Sorted_map_ts; [reflexivity|apply sorted_by_ts].
Qed.

(** Within the int64 range the casts change nothing. *)
Lemma normalize_types_with_event name r :
  - 2 ^ 63 <= userId r < 2 ^ 63 -> - 2 ^ 63 <= movieId r < 2 ^ 63 ->
  normalize_types (with_event name r) = with_event name r.
Proof.
  intros Hu Hm. unfold normalize_types, with_event. cbn [user_id item_id ts event].
  now rewrite !astype_int_id.
Qed.

Lemma normalize_types_int64 name ratings :
  Forall (fun r => - 2 ^ 63 <= userId r < 2 ^ 63
                   /\ - 2 ^ 63 <= movieId r < 2 ^ 63) ratings ->
  map normalize_types (map (with_event name) ratings)
  = map (with_event name) ratings.
Proof.
  intros H. induction H as [|r l [Hu Hm] _ IH]; cbn [map]; [reflexivity|].
  now rewrite IH, normalize_types_with_event.
Qed.

Lemma Forall_filter_keep {A} (P : A -> Prop) (f : A -> bool) l :
  Forall P l -> Forall P (filter f l).
Proof.
  rewrite !Forall_forall. intros H a Ha. apply filter_In in Ha as [Ha _].
  now apply H.
Qed.

(** C1.  The derived log is in ascending timestamp order.  At every
    timestamp it holds one [view] per rating row of that timestamp, one
    [like] per such row rated at least 4 and one [comment] per such row
    rated at least 4.5, and no event of another name; so it holds as many
    views as there are rating rows, as many likes as rows rated at least 4
    and as many comments as rows rated at least 4.5.  When the user and
    movie ids are int64 values, the log is a rearrangement of exactly these
    events, each with the user, the item and the timestamp of its rating
    row. *)
Theorem prepare_events_derivation {U M} (ratings : list rating_row)
    (us : U) (ms : M) :
  let ev := events (prepare_events ratings us ms) in
  Sorted (fun a b => ts a <= ts b) ev
  /\ (forall t,
        length (filter (fun e => String.eqb (event e) "view" && (ts e =? t))
                       ev)
        = length (filter (fun r => timestamp r =? t) ratings))
  /\ (forall t,
        length (filter (fun e => String.eqb (event e) "like" && (ts e =? t))
                       ev)
        = length (filter (fun r => Qle_bool 4 (rating r)
                                   && (timestamp r =? t)) ratings))
  /\ (forall t,
        length (filter (fun e => String.eqb (event e) "comment"
                                 && (ts e =? t)) ev)
        = length (filter (fun r => Qle_bool (9 # 2) (rating r)
                                   && (timestamp r =? t)) ratings))
  /\ (forall e,
        In e ev ->
        event e = "view"%string \/ event e = "like"%string
        \/ event e = "comment"%string)
  /\ count_event "view" ev = length ratings
  /\ count_event "like" ev
     = length (filter (fun r => Qle_bool 4 (rating r)) ratings)
  /\ count_event "comment" ev
     = length (filter (fun r => Qle_bool (9 # 2) (rating r)) ratings)
  /\ (Forall (fun r => - 2 ^ 63 <= userId r < 2 ^ 63
                       /\ - 2 ^ 63 <= movieId r < 2 ^ 63) ratings ->
      Permutation ev
        (map (fun r => mk_event (userId r) (movieId r) (timestamp r) "view")
             ratings
         ++ map (fun r => mk_event (userId r) (movieId r) (timestamp r)
                                   "like")
                (filter (fun r => Qle_bool 4 (rating r)) ratings)
         ++ map (fun r => mk_event (userId r) (movieId r) (timestamp r)
                                   "comment")
                (filter (fun r => Qle_bool (9 # 2) (rating r)) ratings))).
Proof.
  cbn zeta. cbn [events prepare_events].
  pose proof (derive_events_perm ratings) as HP.
  assert (Hkt : forall name t,
    length (filter (fun e => String.eqb (event e) name && (ts e =? t))
                   (derive_events ratings))
    = length (filter (fun e => String.eqb (event e) name && (ts e =? t))
                (map normalize_types
                   (map (with_event "view") ratings
                    ++ map (with_event "like") (filter (rating_ge 4) ratings)
                    ++ map (with_event "comment")
                           (filter (rating_ge (9 # 2)) ratings))))).
  { intros name t. symmetry. apply Permutation_length, filter_perm, HP. }
  assert (Hcount : forall name,
    count_event name (derive_events ratings)
    = count_event name
        (map normalize_types
           (map (with_event "view") ratings
            ++ map (with_event "like") (filter (rating_ge 4) ratings)
            ++ map (with_event "comment")
                   (filter (rating_ge (9 # 2)) ratings)))).
  { intros name. unfold count_event. symmetry.
    apply Permutation_length, filter_perm, HP. }
  split; [apply derive_events_sorted|].
  split; [|split; [|split; [|split; [|split; [|split; [|split]]]]]].
  - intros t.
    rewrite Hkt, !map_app, !filter_app, !length_app, !kind_ts_with_event.
    cbn. lia.
  - intros t.
    rewrite Hkt, !map_app, !filter_app, !length_app, !kind_ts_with_event.
    cbn. rewrite (filter_filter_length (rating_ge 4)), ?Nat.add_0_r.
    reflexivity.
  - intros t.
    rewrite Hkt, !map_app, !filter_app, !length_app, !kind_ts_with_event.
    cbn. rewrite (filter_filter_length (rating_ge (9 # 2))), ?Nat.add_0_r.
    reflexivity.
  - intros e Hin.
    apply (Permutation_in _ (Permutation_sym HP)) in Hin.
    apply in_map_iff in Hin as (e' & <- & Hin).
    rewrite !in_app_iff, !in_map_iff in Hin.
    destruct Hin as [(r & <- & _)|[(r & <- & _)|(r & <- & _)]]; cbn; auto.
  - rewrite Hcount, !map_app, !count_event_app, !count_event_with_event.
    cbn. lia.
  - rewrite Hcount, !map_app, !count_event_app, !count_event_with_event.
    cbn. rewrite ?Nat.add_0_r. reflexivity.
  - rewrite Hcount, !map_app, !count_event_app, !count_event_with_event.
    cbn. rewrite ?Nat.add_0_r. reflexivity.
  - intros Hids. apply Permutation_sym.
    rewrite !map_app in HP.
    rewrite (normalize_types_int64 "view" ratings Hids) in HP.
    rewrite (normalize_types_int64 "like" _
               (Forall_filter_keep _ (rating_ge 4) _ Hids)) in HP.
    rewrite (normalize_types_int64 "comment" _
               (Forall_filter_keep _ (rating_ge (9 # 2)) _ Hids)) in HP.
    exact HP.
Qed.

Lemma prepare_events_derivation_witness :
  Permutation (events (prepare_events sample_ratings tt tt))
    [ mk_event 1 10 100 "view"; mk_event 2 11 50 "view";
      mk_event 1 12 700000 "view"; mk_event 3 13 50 "view";
      mk_event 1 10 100 "like"; mk_event 1 12 700000 "like";
      mk_event 3 13 50 "like"; mk_event 1 10 100 "comment";
      mk_event 3 13 50 "comment" ].
Proof.
  apply (proj2 (proj2 (proj2 (proj2 (proj2 (proj2 (proj2 (proj2
           (prepare_events_derivation sample_ratings tt tt))))))))).
  repeat constructor; cbn; lia.
Defined.

Section GroupByFacts.
Context {Row K R : Type}.
Variable K_eq_dec : forall x y : K, {x = y} + {x <> y}.
Variable key : Row -> K.

Lemma group_rows_In k rows r :
  In r (group_rows K_eq_dec key k rows) <-> In r rows /\ key r = k.
Proof.
  unfold group_rows. rewrite filter_In.
  destruct (K_eq_dec (key r) k) as [Heq|Hne]; split.
  - intros [Hin _]. now split.
  - intros [Hin _]. now split.
  - intros [_ Hf]. discriminate.
  - intros [_ Hk]. contradiction.
Qed.

Variable K_leb : K -> K -> bool.

Lemma group_keys_In rows k :
  In k (group_keys K_eq_dec K_leb key rows) <-> In k (map key rows).
Proof.
  unfold group_keys. now rewrite sort_values_In, drop_duplicates_In.
Qed.

Lemma group_keys_NoDup rows : NoDup (group_keys K_eq_dec K_leb key rows).
Proof. apply sort_values_NoDup, drop_duplicates_NoDup. Qed.

Variable agg : list Row -> R.

Lemma groupby_keys rows :
  map fst (groupby K_eq_dec K_leb key agg rows)
  = group_keys K_eq_dec K_leb key rows.
Proof.
  unfold groupby. rewrite map_map. simpl. apply map_id.
Qed.

Lemma groupby_NoDup rows :
  NoDup (map fst (groupby K_eq_dec K_leb key agg rows)).
Proof. rewrite groupby_keys. apply group_keys_NoDup. Qed.

Lemma groupby_In rows k v :
  In (k, v) (groupby K_eq_dec K_leb key agg rows)
  <-> In k (map key rows) /\ v = agg (group_rows K_eq_dec key k rows).
Proof.
  unfold groupby. rewrite in_map_iff. split.
  - intros (k' & Heq & Hin). injection Heq as -> ->.
    split; [now apply group_keys_In in Hin|reflexivity].
  - intros (Hin & ->). exists k. split; [reflexivity|].
    now apply group_keys_In.
Qed.
End GroupByFacts.

Section MergeFacts.
Context {B : Type}.

Lemma assoc_In k (v : B) table :
  NoDup (map fst table) -> assoc k table = Some v <-> In (k, v) table.
Proof.
  unfold assoc. induction table as [|[k' v'] t IH]; simpl; intros Hnd.
  - split; [discriminate|tauto].
  - inversion Hnd as [|? ? Hnotin Hnd']; subst.
    destruct (k' =? k) eqn:E; simpl.
    + apply Z.eqb_eq in E. subst k'. split.
      * intros [= ->]. now left.
      * intros [[= ->]|Hin]; [reflexivity|].
        exfalso. apply Hnotin. apply in_map_iff. now exists (k, v).
    + rewrite (IH Hnd'). apply Z.eqb_neq in E. split; [tauto|].
      intros [[= -> ->]|Hin]; [congruence|exact Hin].
Qed.

Lemma assoc_None k (table : list (Z * B)) :
  assoc k table = None <-> ~ In k (map fst table).
Proof.
  unfold assoc. induction table as [|[k' v'] t IH]; simpl.
  - tauto.
  - destruct (k' =? k) eqn:E; simpl.
    + apply Z.eqb_eq in E. split; [discriminate|tauto].
    + apply Z.eqb_neq in E. rewrite IH. tauto.
Qed.

Lemma assoc_Some_In k (v : B) table :
  assoc k table = Some v -> In (k, v) table.
Proof.
  unfold assoc. induction table as [|[k' v'] t IH]; simpl; [discriminate|].
  destruct (k' =? k) eqn:E; simpl.
  - apply Z.eqb_eq in E. intros [= ->]. left. now subst.
  - intros H. right. now apply IH.
Qed.

(** With one right row per key, the rows matching a key are the first
    match alone. *)
Lemma matches_unique k (table : list (Z * B)) :
  NoDup (map fst table) ->
  filter (fun kb => fst kb =? k) table
  = match find (fun kb => fst kb =? k) table with
    | Some kb => [kb]
    | None => []
    end.
Proof.
  induction table as [|[k' v'] t IH]; simpl; intros Hnd; [reflexivity|].
  inversion Hnd as [|? ? Hnotin Hnd']; subst.
  destruct (k' =? k) eqn:E.
  - f_equal. apply filter_nil_iff. intros [k2 v2] Hin. simpl.
    apply Z.eqb_eq in E. subst k'. apply Z.eqb_neq. intros ->.
    apply Hnotin. apply in_map_iff. now exists (k, v2).
  - now apply IH.
Qed.

Lemma merge_left_cons {A} (key : A -> Z) a left (right : list (Z * B)) :
  merge_left key (a :: left) right
  = match filter (fun kb => fst kb =? key a) right with
    | [] => [(a, None)]
    | ms => map (fun kb => (a, Some (snd kb))) ms
    end ++ merge_left key left right.
Proof. reflexivity. Qed.

(** A left merge with a right table that has one row per key keeps the
    left rows as they are and looks the key up. *)
Lemma merge_left_unique {A} (key : A -> Z) left (right : list (Z * B)) :
  NoDup (map fst right) ->
  merge_left key left right = map (fun a => (a, assoc (key a) right)) left.
Proof.
  intros Hnd.
  induction left as [|a t IH]; [reflexivity|].
  rewrite merge_left_cons, IH, (matches_unique (key a) right Hnd).
  rewrite map_cons.
  destruct (find (fun kb => fst kb =? key a) right) eqn:E;
    unfold assoc; rewrite E; reflexivity.
Qed.
End MergeFacts.

Lemma NoDup_keys_filter {K B} (f : K * B -> bool) (table : list (K * B)) :
  NoDup (map fst table) -> NoDup (map fst (filter f table)).
Proof.
  induction table as [|kb t IH]; simpl; intros Hnd; [constructor|].
  inversion Hnd as [|? ? Hnotin Hnd']; subst.
  destruct (f kb); simpl; [|now apply IH].
  constructor; [|now apply IH].
  intros Hin. apply Hnotin. apply in_map_iff in Hin as (x & Hx & Hin).
  apply filter_In in Hin as [Hin _]. apply in_map_iff. now exists x.
Qed.

Lemma group_nonempty_iff {Row K} (K_eq_dec : forall x y : K, {x = y} + {x <> y})
    (key : Row -> K) k rows :
  In k (map key rows)
  <-> (0 < length (group_rows K_eq_dec key k rows))%nat.
Proof.
  split.
  - intros Hin. apply in_map_iff in Hin as (r & Hk & Hr).
    assert (Hg : In r (group_rows K_eq_dec key k rows))
      by (apply (proj2 (group_rows_In _ _ _ _ _)); auto).
    destruct (group_rows K_eq_dec key k rows); [destruct Hg|simpl; lia].
  - intros Hlen.
    destruct (group_rows K_eq_dec key k rows) as [|r t] eqn:E;
      [simpl in Hlen; lia|].
    assert (Hg : In r (group_rows K_eq_dec key k rows))
      by (rewrite E; now left).
    apply group_rows_In in Hg as [Hr Hk]. apply in_map_iff. now exists r.
Qed.

(** The size of a group of a filtered, decorated frame, counted on the
    undecorated rows. *)
Lemma group_filter_map_length {A B} (g : A -> B) (P : B -> bool)
    (key : B -> Z) k l :
  length (group_rows Z.eq_dec key k (filter P (map g l)))
  = length (filter (fun a => (key (g a) =? k) && P (g a)) l).
Proof.
  unfold group_rows. induction l as [|a t IH]; simpl; [reflexivity|].
  destruct (P (g a)); simpl.
  - destruct (Z.eq_dec (key (g a)) k) as [Heq|Hne].
    + apply Z.eqb_eq in Heq. rewrite Heq. simpl. now rewrite IH.
    + apply Z.eqb_neq in Hne. rewrite Hne. simpl. exact IH.
  - rewrite andb_false_r. exact IH.
Qed.

(** ** The per-user time origin *)

Lemma fold_left_min_spec t x :
  In (fold_left Z.min t x) (x :: t)
  /\ forall y, In y (x :: t) -> fold_left Z.min t x <= y.
Proof.
  revert x. induction t as [|a t IH]; intros x; simpl.
  - split; [now left|]. intros y [<-|[]]. lia.
  - destruct (IH (Z.min x a)) as [Hin Hle]. split.
    + destruct Hin as [Hm|Hin]; [|now right; right].
      rewrite <- Hm. destruct (Z.min_spec x a) as [[_ ->]|[_ ->]]; auto.
    + intros y Hy.
      assert (Hmin : fold_left Z.min t (Z.min x a) <= Z.min x a)
        by (apply Hle; now left).
      destruct Hy as [<-|[<-|Hy]]; [lia|lia|].
      apply Hle. now right.
Qed.

Lemma series_min_spec l m :
  series_min l = Some m -> In m l /\ forall y, In y l -> m <= y.
Proof.
  destruct l as [|x t]; simpl; [discriminate|].
  intros [= <-]. apply fold_left_min_spec.
Qed.

Lemma series_min_nonempty l : l <> [] -> exists m, series_min l = Some m.
Proof.
  destruct l as [|x t]; [congruence|]. intros _. simpl. eauto.
Qed.

Lemma is_t0_unique ev u t t' : is_t0 ev u t -> is_t0 ev u t' -> t = t'.
Proof.
  intros [(e & He & Hu & Ht) Hmin] [(e' & He' & Hu' & Ht') Hmin'].
  specialize (Hmin e' He' Hu'). specialize (Hmin' e He Hu). lia.
Qed.

(** The minimum column of [groupby(key)[val].min()], looked up at a key
    that occurs. *)
Lemma group_min_spec {Row} (key val : Row -> Z) rows u :
  In u (map key rows) ->
  exists m,
    or_missing
      (assoc u (groupby Z.eq_dec Z.leb key
                        (fun g => series_min (map val g)) rows))
    = Some m
    /\ (exists r, In r rows /\ key r = u /\ val r = m)
    /\ (forall r, In r rows -> key r = u -> m <= val r).
Proof.
  intros Hin.
  assert (Hne : map val (group_rows Z.eq_dec key u rows) <> []).
  { apply in_map_iff in Hin as (r & Hu & Hr).
    assert (Hg : In r (group_rows Z.eq_dec key u rows))
      by (apply (proj2 (group_rows_In _ _ _ _ _)); auto).
    destruct (group_rows Z.eq_dec key u rows); [destruct Hg|discriminate]. }
  destruct (series_min_nonempty _ Hne) as [m Hmin].
  exists m. split; [|split].
  - assert (Ha : assoc u (groupby Z.eq_dec Z.leb key
                            (fun g => series_min (map val g)) rows)
                 = Some (Some m)).
    { apply assoc_In; [apply groupby_NoDup|].
      apply groupby_In. split; [exact Hin|]. now rewrite Hmin. }
    now rewrite Ha.
  - apply series_min_spec in Hmin as [Hmem _].
    apply in_map_iff in Hmem as (r & Hv & Hr).
    apply group_rows_In in Hr as [Hr Hu]. now exists r.
  - apply series_min_spec in Hmin as [_ Hle].
    intros r Hr Hu. apply Hle. apply in_map_iff. exists r.
    split; [reflexivity|]. apply (proj2 (group_rows_In _ _ _ _ _)). auto.
Qed.

Lemma t0_user_spec ev u :
  In u (map user_id ev) ->
  exists t0, t0_user ev u = Some t0 /\ is_t0 ev u t0.
Proof.
  intros Hin.
  destruct (group_min_spec user_id ts ev u Hin) as (t0 & Ha & Hex & Hmin).
  exists t0. split; [exact Ha|]. split; assumption.
Qed.

Lemma with_t0_eq ev :
  with_t0 ev = map (fun e => (e, t0_user ev (user_id e))) ev.
Proof.
  unfold with_t0. rewrite merge_left_unique by apply groupby_NoDup.
  rewrite map_map. reflexivity.
Qed.

(** ** The per-user metric *)

Lemma days_since_le (d w : Z) :
  Qle_bool (inject_Z d / inject_Z SECONDS_PER_DAY) (inject_Z w)
  = (d <=? w * SECONDS_PER_DAY).
Proof.
  apply eq_true_iff_eq. rewrite Qle_bool_iff, Z.leb_le.
  unfold Qle, Qdiv, Qmult, Qinv, inject_Z, SECONDS_PER_DAY. simpl. lia.
Qed.

Lemma user_metric_In ev w u n :
  In (u, n) (user_metric ev w)
  <-> exists t0,
        is_t0 ev u t0 /\ n = views_in_window ev u t0 w /\ 0 < n.
Proof.
  unfold user_metric, size_by_user. rewrite groupby_In, with_t0_eq.
  rewrite group_nonempty_iff, group_filter_map_length.
  cbn [fst].
  assert (Hcount : forall t0, is_t0 ev u t0 ->
    Z.of_nat
      (length
         (filter
            (fun a =>
               (user_id a =? u)
               && (is_view (a, t0_user ev (user_id a))
                   && f_leb (days_since (a, t0_user ev (user_id a)))
                            (inject_Z w)))
            ev))
    = views_in_window ev u t0 w).
  { intros t0 Ht0. unfold views_in_window. do 2 f_equal.
    apply filter_ext_in. intros e He.
    destruct (user_id e =? u) eqn:Eu; [|reflexivity].
    apply Z.eqb_eq in Eu.
    assert (Hu : In u (map user_id ev))
      by (apply in_map_iff; now exists e).
    destruct (t0_user_spec ev u Hu) as (t & Ht & Hist).
    rewrite (is_t0_unique _ _ _ _ Hist Ht0) in Ht.
    rewrite Eu, Ht. unfold is_view, days_since. cbn [fst snd f_leb].
    rewrite days_since_le.
    destruct Ht0 as [_ Hmin]. specialize (Hmin e He Eu).
    assert (Hlo : (t0 <=? ts e) = true) by (apply Z.leb_le; lia).
    rewrite Hlo. simpl. rewrite andb_true_r. f_equal.
    apply eq_true_iff_eq. rewrite !Z.leb_le. lia. }
  split.
  - intros [Hpos ->].
    assert (Hu : In u (map user_id ev)).
    { destruct (filter _ ev) as [|e t] eqn:E; [simpl in Hpos; lia|].
      assert (He : In e (filter
        (fun a =>
           (user_id a =? u)
           && (is_view (a, t0_user ev (user_id a))
               && f_leb (days_since (a, t0_user ev (user_id a)))
                        (inject_Z w))) ev)) by (rewrite E; now left).
      apply filter_In in He as [He Hp].
      apply andb_prop in Hp as [Hp _]. apply Z.eqb_eq in Hp.
      apply in_map_iff. now exists e. }
    destruct (t0_user_spec ev u Hu) as (t0 & _ & Hist).
    exists t0. split; [exact Hist|].
    split; [now apply Hcount|lia].
  - intros (t0 & Hist & -> & Hpos). rewrite <- (Hcount t0 Hist) in Hpos |- *.
    split; [lia|reflexivity].
Qed.

(** C8.  The metric table has one row per user with at least one view in
    the window, and the value of user [u] is the number of [u]'s [view]
    events with a timestamp in [[t0, t0 + window_days]], where [t0] is
    [u]'s own earliest timestamp. *)
Theorem user_metric_own_window (ev : list event_row) (window_days : Z) :
  NoDup (map fst (user_metric ev window_days))
  /\ forall u n,
       In (u, n) (user_metric ev window_days)
       <-> exists t0,
             is_t0 ev u t0
             /\ n = views_in_window ev u t0 window_days
             /\ 0 < n.
Proof.
  split.
  - unfold user_metric, size_by_user. apply groupby_NoDup.
  - intros u n. apply user_metric_In.
Qed.

Lemma user_metric_own_window_witness :
  In (1, 1) (user_metric sample_log 7).
Proof.
  apply (proj2 (user_metric_own_window sample_log 7)).
  exists 100. split; [|split; [reflexivity|reflexivity]].
  split.
  - exists (mk_event 1 10 100 "view"). simpl. tauto.
  - intros e He Hu. simpl in He.
    repeat (destruct He as [<-|He]; [simpl in *; lia|]). destruct He.
Defined.

Lemma derive_events_In e ratings :
  In e (derive_events ratings)
  <-> exists r,
        In r ratings
        /\ (e = cast_event "view" r
            \/ (e = cast_event "like" r /\ rating_ge 4 r = true)
            \/ (e = cast_event "comment" r /\ rating_ge (9 # 2) r = true)).
Proof.
  unfold derive_events, cast_event. cbn zeta.
  rewrite in_map_iff. split.
  - intros (e' & <- & Hin).
    rewrite sort_values_In, !in_app_iff, !in_map_iff in Hin.
    destruct Hin as [(r & <- & Hr)|[(r & <- & Hr)|(r & <- & Hr)]].
    + exists r. auto.
    + apply filter_In in Hr as [Hr Hge]. exists r. auto.
    + apply filter_In in Hr as [Hr Hge]. exists r. auto.
  - intros (r & Hr & [->|[[-> Hge]|[-> Hge]]]).
    + exists (with_event "view" r). split; [reflexivity|].
      rewrite sort_values_In, !in_app_iff, !in_map_iff. left. now exists r.
    + exists (with_event "like" r). split; [reflexivity|].
      rewrite sort_values_In, !in_app_iff, !in_map_iff. right; left.
      exists r. split; [reflexivity|]. apply filter_In. auto.
    + exists (with_event "comment" r). split; [reflexivity|].
      rewrite sort_values_In, !in_app_iff, !in_map_iff. right; right.
      exists r. split; [reflexivity|]. apply filter_In. auto.
Qed.

Lemma filter_In_length {A} (f : A -> bool) l x :
  In x (filter f l) -> (0 < length (filter f l))%nat.
Proof. destruct (filter f l); simpl; [tauto|lia]. Qed.

(** C10.  On a log derived from ratings and with a window of zero days or
    more, every user of the log has a metric row and its value is at least
    1: the [view] derived from the user's earliest rating lies at [t0]. *)
Theorem user_metric_covers_derived_log {U M} (ratings : list rating_row)
    (us : U) (ms : M) (window_days u : Z) :
  0 <= window_days ->
  In u (map user_id (events (prepare_events ratings us ms))) ->
  exists n,
    In (u, n) (user_metric (events (prepare_events ratings us ms)) window_days)
    /\ 1 <= n.
Proof.
  simpl. intros Hw Hu.
  destruct (t0_user_spec _ u Hu) as (t0 & _ & Hist).
  exists (views_in_window (derive_events ratings) u t0 window_days).
  assert (Hpos : 0 < views_in_window (derive_events ratings) u t0 window_days).
  { destruct Hist as [(e & He & Heu & Het) _].
    apply derive_events_In in He as (r & Hr & Hkind).
    assert (Hur : astype_int (userId r) = u /\ timestamp r = t0).
    { destruct Hkind as [->|[[-> _]|[-> _]]];
        cbn [cast_event normalize_types with_event user_id ts] in *; auto. }
    destruct Hur as [Hur Htr].
    assert (Hview : In (cast_event "view" r) (derive_events ratings)).
    { apply derive_events_In. exists r. auto. }
    unfold views_in_window.
    apply (inj_lt 0), (filter_In_length _ _ (cast_event "view" r)).
    apply filter_In. split; [exact Hview|].
    cbn [cast_event normalize_types with_event user_id ts event].
    rewrite Hur, Htr, Z.eqb_refl. simpl.
    apply andb_true_intro. split; apply Z.leb_le;
      unfold SECONDS_PER_DAY; lia. }
  split; [|lia].
  apply user_metric_In. exists t0. auto.
Qed.

Lemma user_metric_covers_derived_log_witness :
  exists n, In (2, n) (user_metric sample_log 0) /\ 1 <= n.
Proof.
  apply (user_metric_covers_derived_log sample_ratings tt tt 0 2).
  - lia.
  - vm_compute. tauto.
Defined.

(** ** The funnel *)

Lemma column_sum_ones {A} (f : A -> Z) l :
  (forall a, In a l -> f a = 1) ->
  column_sum (map f l) = Z.of_nat (length l).
Proof.
  induction l as [|a t IH]; intros H; [reflexivity|].
  cbn [map column_sum fold_right length].
  fold (column_sum (map f t)).
  rewrite IH by (intros b Hb; apply H; now right).
  rewrite (H a) by now left. lia.
Qed.

Lemma column_sum_flags {A} (f : A -> Z) l :
  (forall a, In a l -> 0 <= f a <= 1) ->
  0 <= column_sum (map f l) <= Z.of_nat (length l).
Proof.
  induction l as [|a t IH]; intros H; [simpl; lia|].
  cbn [map column_sum fold_right length].
  fold (column_sum (map f t)).
  assert (Ha := H a (or_introl eq_refl)).
  assert (Ht : 0 <= column_sum (map f t) <= Z.of_nat (length t))
    by (apply IH; intros b Hb; apply H; now right).
  lia.
Qed.

(** A step table built by [assign(step=1)] flags a user with 1 and, after
    [fillna(0)], every other user with 0. *)
Lemma step_flag {A} (f : A -> Z) (rows : list A) k :
  0 <= fillna0 (assoc k (map (fun r => (f r, 1)) rows)) <= 1.
Proof.
  destruct (assoc k (map (fun r => (f r, 1)) rows)) as [v|] eqn:E;
    [|simpl; lia].
  apply assoc_Some_In, in_map_iff in E as (r & [= _ <-] & _). simpl. lia.
Qed.

Lemma merge_chain {T B} (users : list (Z * T)) (step1 : list (Z * B))
    (step2 step3 : list (Z * Z)) :
  NoDup (map fst step1) -> NoDup (map fst step2) -> NoDup (map fst step3) ->
  merge_left (fun r => fst (fst (fst r)))
    (merge_left (fun r => fst (fst r)) (merge_left fst users step1) step2)
    step3
  = map (fun a => (((a, assoc (fst a) step1), assoc (fst a) step2),
                   assoc (fst a) step3))
        users.
Proof.
  intros H1 H2 H3.
  rewrite (merge_left_unique _ _ step3 H3), (merge_left_unique _ _ step2 H2),
    (merge_left_unique _ _ step1 H1).
  rewrite !map_map. reflexivity.
Qed.

Lemma funnel_users_In ev a :
  In a (funnel_users ev)
  <-> In (fst a) (map user_id ev) /\ snd a = t0_user ev (fst a).
Proof.
  unfold funnel_users. rewrite drop_duplicates_In, with_t0_eq, map_map.
  cbn [fst snd]. rewrite in_map_iff. split.
  - intros (e & <- & He). cbn [fst snd]. split; [|reflexivity].
    apply in_map_iff. now exists e.
  - intros [Hin Hsnd]. apply in_map_iff in Hin as (e & Hu & He).
    exists e. split; [|exact He]. destruct a as [u t]. simpl in *.
    now rewrite Hu, Hsnd.
Qed.

Lemma funnel_users_keys_NoDup ev : NoDup (map fst (funnel_users ev)).
Proof.
  apply NoDup_map_NoDup_ForallPairs.
  - intros [u t] [u' t'] Ha Hb Heq. simpl in Heq. subst u'.
    apply funnel_users_In in Ha as [_ Ha], Hb as [_ Hb]. simpl in *.
    congruence.
  - apply drop_duplicates_NoDup.
Qed.

Lemma funnel_users_length ev :
  Z.of_nat (length (funnel_users ev)) = nunique (map user_id ev).
Proof.
  unfold nunique. f_equal. rewrite <- (length_map fst (funnel_users ev)).
  apply NoDup_same_length.
  - apply funnel_users_keys_NoDup.
  - apply drop_duplicates_NoDup.
  - intros u. rewrite drop_duplicates_In, in_map_iff. split.
    + intros (a & <- & Ha). now apply funnel_users_In in Ha as [Ha _].
    + intros Hu. exists (u, t0_user ev u). split; [reflexivity|].
      apply funnel_users_In. auto.
Qed.

Lemma nunique_pos l : l <> [] -> 1 <= nunique l.
Proof.
  destruct l as [|x t]; [congruence|]. intros _. unfold nunique.
  simpl. lia.
Qed.

Lemma true_div_self n :
  1 <= n -> exists q, true_div n (Some n) = Fin q /\ (q == 1)%Q.
Proof.
  intros Hn. unfold true_div.
  destruct (n =? 0) eqn:E; [apply Z.eqb_eq in E; lia|].
  eexists. split; [reflexivity|].
  unfold Qdiv. apply Qmult_inv_r. unfold Qeq. simpl. lia.
Qed.

Lemma build_funnel_rows ev :
  exists n2 n3,
    build_funnel ev
    = (let n1 := nunique (map user_id ev) in
       [ mk_funnel "signup" n1 (true_div n1 (Some n1));
         mk_funnel "activation(5 views in 3d)" n2 (true_div n2 (Some n1));
         mk_funnel "day7_retention" n3 (true_div n3 (Some n1)) ])
    /\ 0 <= n2 <= nunique (map user_id ev)
    /\ 0 <= n3 <= nunique (map user_id ev).
Proof.
  unfold build_funnel. fold (funnel_users ev).
  set (step2 := map (fun r : Z * Z => (fst r, 1)) _).
  set (step3 := map (fun r : Z * Z => (fst r, 1)) _).
  rewrite merge_chain.
  - rewrite !map_map. cbn [fst snd].
    rewrite (column_sum_ones _ (funnel_users ev)).
    + rewrite funnel_users_length.
      eexists. eexists. split; [reflexivity|].
      rewrite <- funnel_users_length.
      split; apply column_sum_flags; intros a _; apply step_flag.
    + intros a Ha.
      assert (Hs : assoc (fst a)
                     (map (fun u : Z * option Z => (fst u, (snd u, 1)))
                          (funnel_users ev))
                   = Some (snd a, 1)).
      { apply assoc_In.
        - rewrite map_map. cbn [fst]. apply funnel_users_keys_NoDup.
        - apply in_map_iff. now exists a. }
      now rewrite Hs.
  - rewrite map_map. cbn [fst]. apply funnel_users_keys_NoDup.
  - subst step2. rewrite map_map. cbn [fst].
    apply (NoDup_keys_filter (fun r : Z * Z => 5 <=? snd r)).
    unfold size_by_user. apply groupby_NoDup.
  - subst step3. rewrite map_map. cbn [fst].
    apply (NoDup_keys_filter (fun r : Z * Z => 0 <? snd r)).
    unfold size_by_user. apply groupby_NoDup.
Qed.

(** C7.  On a non-empty log the funnel has its three rows; the signup
    count is the number of distinct users, the activation and day-7 counts
    are each at most the signup count, and the signup rate is 1. *)
Theorem build_funnel_bounded_by_signup (ev : list event_row) :
  ev <> [] ->
  exists n1 n2 n3 r1 r2 r3,
    build_funnel ev
    = [ mk_funnel "signup" n1 r1;
        mk_funnel "activation(5 views in 3d)" n2 r2;
        mk_funnel "day7_retention" n3 r3 ]
    /\ n1 = nunique (map user_id ev)
    /\ 1 <= n1
    /\ 0 <= n2 <= n1
    /\ 0 <= n3 <= n1
    /\ exists q, r1 = Fin q /\ (q == 1)%Q.
Proof.
  intros Hne. destruct (build_funnel_rows ev) as (n2 & n3 & Heq & H2 & H3).
  assert (Hpos : 1 <= nunique (map user_id ev)).
  { apply nunique_pos. destruct ev; [congruence|discriminate]. }
  exists (nunique (map user_id ev)), n2, n3.
  eexists. eexists. eexists. split; [exact Heq|].
  repeat split; try tauto.
  now apply true_div_self.
Qed.

Lemma build_funnel_bounded_by_signup_witness :
  exists n1 n2 n3 r1 r2 r3,
    build_funnel sample_log
    = [ mk_funnel "signup" n1 r1;
        mk_funnel "activation(5 views in 3d)" n2 r2;
        mk_funnel "day7_retention" n3 r3 ]
    /\ n1 = nunique (map user_id sample_log)
    /\ 1 <= n1
    /\ 0 <= n2 <= n1
    /\ 0 <= n3 <= n1
    /\ exists q, r1 = Fin q /\ (q == 1)%Q.
Proof.
  apply (build_funnel_bounded_by_signup sample_log).
  vm_compute. discriminate.
Defined.

(** ** Cohorts and retention *)

Lemma flat_map_of_map {A B C} (f : B -> list C) (g : A -> B) l :
  flat_map f (map g l) = flat_map (fun x => f (g x)) l.
Proof.
  induction l as [|a t IH]; simpl; [reflexivity|]. now rewrite IH.
Qed.

Section CohortFacts.
Variable period_start : Z -> Z.
Variable ev : list event_row.

Lemma build_cohorts_stages :
  build_cohorts period_start ev
  = sort_values cohort_leb
      (map (fun r : ((Z * Z) * Z) * option Z =>
              mk_cohort (fst (fst (fst r))) (snd (fst (fst r)))
                        (snd (fst r)) (snd r)
                        (true_div (snd (fst r)) (snd r)))
           (merge_left (fun r : (Z * Z) * Z => fst (fst r))
                       (cohort_retention period_start ev)
                       (cohort_sizes period_start ev))).
Proof. reflexivity. Qed.

Lemma cohort_user_spec u :
  In u (map user_id ev) ->
  exists c,
    cohort_user period_start ev u = Some c
    /\ is_cohort period_start ev u c.
Proof.
  intros Hin.
  destruct (group_min_spec (fun r : event_row * Z => user_id (fst r)) snd
              (map (fun e => (e, period_start (ts e))) ev) u)
    as (c & Ha & (r & Hr & Hu & Hv) & Hmin).
  { rewrite map_map. exact Hin. }
  exists c. split; [exact Ha|]. split.
  - apply in_map_iff in Hr as (e & <- & He). now exists e.
  - intros e He Heu.
    apply (Hmin (e, period_start (ts e))); [|exact Heu].
    apply in_map_iff. now exists e.
Qed.

Lemma is_cohort_unique u c c' :
  is_cohort period_start ev u c -> is_cohort period_start ev u c' -> c = c'.
Proof.
  intros [(e & He & Hu & Hc) Hmin] [(e' & He' & Hu' & Hc') Hmin'].
  specialize (Hmin e' He' Hu'). specialize (Hmin' e He Hu). lia.
Qed.

Lemma cohort_keyed_In c p u :
  In ((c, p), u) (cohort_keyed period_start ev)
  <-> exists e,
        In e ev /\ user_id e = u /\ period_start (ts e) = p
        /\ cohort_user period_start ev u = Some c.
Proof.
  unfold cohort_keyed.
  rewrite merge_left_unique by apply groupby_NoDup.
  rewrite !map_map, flat_map_of_map, in_flat_map. cbn [fst snd].
  fold (cohort_first period_start ev). split.
  - intros (e & He & Hin). exists e.
    fold (cohort_user period_start ev (user_id e)) in Hin.
    destruct (cohort_user period_start ev (user_id e)) as [c'|] eqn:E;
      [|destruct Hin].
    destruct Hin as [[= <- <- <-]|[]]. auto.
  - intros (e & He & Hu & Hp & Hc). exists e. split; [exact He|].
    fold (cohort_user period_start ev (user_id e)).
    rewrite Hu, Hc, Hp. now left.
Qed.

(** A user seen in a period of their cohort is also seen in the
    cohort's own period, which is the earlier one. *)
Lemma cohort_keyed_own c p u :
  In ((c, p), u) (cohort_keyed period_start ev) ->
  In ((c, c), u) (cohort_keyed period_start ev) /\ c <= p.
Proof.
  intros Hin. apply cohort_keyed_In in Hin as (e & He & Hu & Hp & Hc).
  assert (Hmem : In u (map user_id ev))
    by (apply in_map_iff; now exists e).
  destruct (cohort_user_spec u Hmem) as (c' & Hc' & Hfirst & Hmin).
  assert (c' = c) by congruence. subst c'. split.
  - destruct Hfirst as (e' & He' & Hu' & Hp').
    apply cohort_keyed_In. exists e'. auto.
  - rewrite <- Hp. now apply Hmin.
Qed.

Lemma cohort_retention_In c p a :
  In ((c, p), a) (cohort_retention period_start ev)
  <-> In (c, p) (map fst (cohort_keyed period_start ev))
      /\ a = cohort_active period_start ev c p.
Proof.
  unfold cohort_retention, cohort_active.
  exact (groupby_In pair_eq_dec fst pair_leb
           (fun g : list ((Z * Z) * Z) => nunique (map snd g))
           (cohort_keyed period_start ev) (c, p) a).
Qed.

Lemma cohort_group_In c p u :
  In u (map snd (group_rows pair_eq_dec fst (c, p)
                            (cohort_keyed period_start ev)))
  <-> In ((c, p), u) (cohort_keyed period_start ev).
Proof.
  rewrite in_map_iff. split.
  - intros ([k u'] & Hu & Hin). simpl in Hu. subst u'.
    apply group_rows_In in Hin as [Hin Hk]. simpl in Hk. now subst k.
  - intros Hin. exists ((c, p), u). split; [reflexivity|].
    apply (proj2 (group_rows_In _ _ _ _ _)). auto.
Qed.

Lemma cohort_active_bounds c p :
  In (c, p) (map fst (cohort_keyed period_start ev)) ->
  1 <= cohort_active period_start ev c p
    <= cohort_active period_start ev c c.
Proof.
  intros Hin. unfold cohort_active. split.
  - apply nunique_pos.
    apply in_map_iff in Hin as ([k u] & Hk & Hin). simpl in Hk. subst k.
    apply cohort_group_In in Hin.
    intros Hnil. rewrite Hnil in Hin. destruct Hin.
  - unfold nunique. apply inj_le. apply NoDup_incl_length.
    + apply drop_duplicates_NoDup.
    + intros u. rewrite !drop_duplicates_In, !cohort_group_In.
      apply cohort_keyed_own.
Qed.

Lemma cohort_sizes_In c s :
  In (c, s) (cohort_sizes period_start ev)
  <-> In ((c, c), s) (cohort_retention period_start ev).
Proof.
  unfold cohort_sizes. rewrite in_map_iff. split.
  - intros ([[c' p'] s'] & [= <- <-] & Hin).
    apply filter_In in Hin as [Hin Heq]. simpl in Heq.
    apply Z.eqb_eq in Heq. now subst p'.
  - intros Hin. exists ((c, c), s). split; [reflexivity|].
    apply filter_In. split; [exact Hin|]. simpl. apply Z.eqb_refl.
Qed.

Lemma cohort_sizes_NoDup : NoDup (map fst (cohort_sizes period_start ev)).
Proof.
  unfold cohort_sizes. rewrite map_map. cbn [fst].
  rewrite <- (map_map fst fst).
  apply NoDup_map_NoDup_ForallPairs.
  - intros [c p] [c' p'] Ha Hb Heq. simpl in Heq. subst c'.
    apply in_map_iff in Ha as ([k a] & Hk & Ha).
    apply in_map_iff in Hb as ([k' b] & Hk' & Hb).
    simpl in Hk, Hk'. subst k k'.
    apply filter_In in Ha as [_ Ha], Hb as [_ Hb]. simpl in Ha, Hb.
    apply Z.eqb_eq in Ha, Hb. congruence.
  - apply NoDup_keys_filter. unfold cohort_retention. apply groupby_NoDup.
Qed.

Lemma cohort_sizes_lookup c p :
  In (c, p) (map fst (cohort_keyed period_start ev)) ->
  assoc c (cohort_sizes period_start ev)
  = Some (cohort_active period_start ev c c).
Proof.
  intros Hin. apply assoc_In; [apply cohort_sizes_NoDup|].
  apply cohort_sizes_In, cohort_retention_In. split; [|reflexivity].
  apply in_map_iff in Hin as ([k u] & Hk & Hin). simpl in Hk. subst k.
  apply cohort_keyed_own in Hin as [Hin _].
  apply in_map_iff. now exists ((c, c), u).
Qed.

(** The rows of the cohort table. *)
Lemma build_cohorts_In row :
  In row (build_cohorts period_start ev)
  <-> exists c p,
        In (c, p) (map fst (cohort_keyed period_start ev))
        /\ row = mk_cohort c p
                   (cohort_active period_start ev c p)
                   (Some (cohort_active period_start ev c c))
                   (true_div (cohort_active period_start ev c p)
                             (Some (cohort_active period_start ev c c))).
Proof.
  rewrite build_cohorts_stages, sort_values_In.
  rewrite merge_left_unique by apply cohort_sizes_NoDup.
  rewrite map_map, in_map_iff. cbn [fst snd]. split.
  - intros ([[c p] a] & <- & Hin). cbn [fst snd].
    apply cohort_retention_In in Hin as [Hin ->].
    exists c, p. split; [exact Hin|].
    now rewrite (cohort_sizes_lookup c p Hin).
  - intros (c & p & Hin & ->).
    exists ((c, p), cohort_active period_start ev c p). cbn [fst snd].
    rewrite (cohort_sizes_lookup c p Hin). split; [reflexivity|].
    apply cohort_retention_In. auto.
Qed.

(** Every row of the cohort table: its size column is present and
    positive, its rate is the plain quotient, and the cohort's own
    period counts the whole cohort. *)
Lemma build_cohorts_row row :
  In row (build_cohorts period_start ev) ->
  exists s,
    cohort_size row = Some s
    /\ 1 <= active_users row <= s
    /\ retention_rate row
       = Fin (inject_Z (active_users row) / inject_Z s)
    /\ (period row = cohort row -> active_users row = s)
    /\ cohort row <= period row.
Proof.
  intros Hin. apply build_cohorts_In in Hin as (c & p & Hin & ->).
  exists (cohort_active period_start ev c c). cbn.
  pose proof (cohort_active_bounds c p Hin) as Hb.
  split; [reflexivity|]. split; [exact Hb|]. split; [|split].
  - destruct (cohort_active period_start ev c c =? 0) eqn:E;
      [apply Z.eqb_eq in E; lia|reflexivity].
  - now intros ->.
  - apply in_map_iff in Hin as ([k u] & Hk & Hin). simpl in Hk. subst k.
    now apply cohort_keyed_own in Hin.
Qed.

Lemma build_cohorts_nonempty :
  ev <> [] -> build_cohorts period_start ev <> [].
Proof.
  destruct ev as [|e t] eqn:E; [congruence|]. intros _. rewrite <- E.
  assert (Hmem : In (user_id e) (map user_id ev))
    by (rewrite E; now left).
  destruct (cohort_user_spec _ Hmem) as (c & Hc & _).
  assert (Hk : In ((c, period_start (ts e)), user_id e)
                  (cohort_keyed period_start ev)).
  { apply cohort_keyed_In. exists e. rewrite E at 1.
    repeat split; auto. now left. }
  assert (Hrow : exists row, In row (build_cohorts period_start ev)).
  { eexists. apply build_cohorts_In. exists c, (period_start (ts e)).
    split; [|reflexivity]. apply in_map_iff.
    exists ((c, period_start (ts e)), user_id e). now split. }
  destruct Hrow as [row Hrow]. intros Hnil. rewrite Hnil in Hrow.
  destruct Hrow.
Qed.
End CohortFacts.

Lemma Qdiv_self n : 1 <= n -> (inject_Z n / inject_Z n == 1)%Q.
Proof.
  intros Hn. unfold Qdiv. apply Qmult_inv_r. unfold Qeq. simpl. lia.
Qed.

Lemma Qdiv_le_one a s :
  1 <= a <= s -> (0 < inject_Z a / inject_Z s <= 1)%Q.
Proof.
  intros [Ha Hs].
  assert (Hspos : (0 < inject_Z s)%Q) by (unfold Qlt; simpl; lia).
  split.
  - apply Qlt_shift_div_l; [exact Hspos|].
    unfold Qlt. simpl. lia.
  - apply Qle_shift_div_r; [exact Hspos|].
    rewrite Qmult_1_l, <- Zle_Qle. exact Hs.
Qed.

(** C5.  A non-empty log yields a non-empty cohort table; every cohort in
    it has a row at its own starting period, and in each such row
    [active_users] is the cohort size and the retention rate is 1. *)
Theorem build_cohorts_own_period (period_start : Z -> Z)
    (ev : list event_row) :
  ev <> [] ->
  build_cohorts period_start ev <> []
  /\ (forall row,
        In row (build_cohorts period_start ev) ->
        exists own,
          In own (build_cohorts period_start ev)
          /\ cohort own = cohort row /\ period own = cohort row)
  /\ (forall row,
        In row (build_cohorts period_start ev) ->
        period row = cohort row ->
        cohort_size row = Some (active_users row)
        /\ exists q, retention_rate row = Fin q /\ (q == 1)%Q).
Proof.
  intros Hne. split; [now apply build_cohorts_nonempty|]. split.
  - intros row Hin. apply build_cohorts_In in Hin as (c & p & Hin & ->).
    eexists. split.
    + apply build_cohorts_In. exists c, c. split; [|reflexivity].
      apply in_map_iff in Hin as ([k u] & Hk & Hin). simpl in Hk. subst k.
      apply cohort_keyed_own in Hin as [Hin _].
      apply in_map_iff. now exists ((c, c), u).
    + split; reflexivity.
  - intros row Hin Hown.
    destruct (build_cohorts_row _ _ _ Hin) as (s & Hs & Hb & Hr & Heq & _).
    specialize (Heq Hown). subst s. split; [exact Hs|].
    eexists. split; [exact Hr|]. apply Qdiv_self. lia.
Qed.

Lemma build_cohorts_own_period_witness :
  build_cohorts week_start sample_log <> []
  /\ (forall row,
        In row (build_cohorts week_start sample_log) ->
        exists own,
          In own (build_cohorts week_start sample_log)
          /\ cohort own = cohort row /\ period own = cohort row)
  /\ (forall row,
        In row (build_cohorts week_start sample_log) ->
        period row = cohort row ->
        cohort_size row = Some (active_users row)
        /\ exists q, retention_rate row = Fin q /\ (q == 1)%Q).
Proof.
  apply (build_cohorts_own_period week_start sample_log).
  vm_compute. discriminate.
Defined.

(** C9.  In every row of the cohort table the active users are at most
    the cohort size, so the retention rate is at most 1; periods never
    precede their cohort. *)
Theorem build_cohorts_rate_at_most_one (period_start : Z -> Z)
    (ev : list event_row) (row : cohort_row) :
  In row (build_cohorts period_start ev) ->
  exists s q,
    cohort_size row = Some s
    /\ 1 <= active_users row <= s
    /\ retention_rate row = Fin q
    /\ (0 < q <= 1)%Q
    /\ cohort row <= period row.
Proof.
  intros Hin.
  destruct (build_cohorts_row _ _ _ Hin) as (s & Hs & Hb & Hr & _ & Hcp).
  exists s. eexists. split; [exact Hs|]. split; [exact Hb|].
  split; [exact Hr|]. split; [|exact Hcp]. now apply Qdiv_le_one.
Qed.

Lemma build_cohorts_rate_at_most_one_witness :
  exists s q,
    Some 3 = Some s
    /\ 1 <= 1 <= s
    /\ Fin (1 # 3) = Fin q
    /\ (0 < q <= 1)%Q
    /\ -259200 <= 345600.
Proof.
  apply (build_cohorts_rate_at_most_one week_start sample_log
           (mk_cohort (-259200) 345600 1 (Some 3) (Fin (1 # 3)))).
  vm_compute. right. left. reflexivity.
Defined.

(** C6, as the code has it.  The retention rate is the plain quotient
    [active_users / cohort_size], without an epsilon: in every row the
    cohort size is present and at least 1, so the divisor is never zero
    and the rate is a finite number. *)
Theorem build_cohorts_plain_quotient (period_start : Z -> Z)
    (ev : list event_row) (row : cohort_row) :
  In row (build_cohorts period_start ev) ->
  exists s,
    cohort_size row = Some s
    /\ 1 <= s
    /\ retention_rate row = Fin (inject_Z (active_users row) / inject_Z s).
Proof.
  intros Hin.
  destruct (build_cohorts_row _ _ _ Hin) as (s & Hs & Hb & Hr & _).
  exists s. split; [exact Hs|]. split; [lia|exact Hr].
Qed.

Lemma build_cohorts_plain_quotient_witness :
  exists s,
    Some 3 = Some s
    /\ 1 <= s
    /\ Fin (1 # 3) = Fin (inject_Z 1 / inject_Z s).
Proof.
  apply (build_cohorts_plain_quotient week_start sample_log
           (mk_cohort (-259200) 345600 1 (Some 3) (Fin (1 # 3)))).
  vm_compute. right. left. reflexivity.
Defined.

(** C6, as the claim words it, fails on the sample log: no positive
    epsilon added to the cohort size gives the rates of the table. *)
Lemma build_cohorts_not_epsilon_guarded :
  ~ exists eps : Q,
      (0 < eps)%Q
      /\ forall row,
           In row (build_cohorts week_start sample_log) ->
           float_eq (retention_rate row) (epsilon_guarded_rate eps row).
Proof.
  intros (eps & Hpos & H).
  specialize (H (mk_cohort (-259200) (-259200) 3 (Some 3) (Fin (3 # 3)))).
  assert (Hin : In (mk_cohort (-259200) (-259200) 3 (Some 3) (Fin (3 # 3)))
                   (build_cohorts week_start sample_log))
    by (vm_compute; left; reflexivity).
  specialize (H Hin). cbn in H.
  assert (Hnz : ~ (inject_Z 3 + eps == 0)%Q).
  { intros Hz. assert (Hz' : (0 < inject_Z 3 + eps)%Q).
    { apply Qlt_trans with (inject_Z 3); [reflexivity|].
      rewrite <- (Qplus_0_r (inject_Z 3)) at 1.
      apply Qplus_lt_r. exact Hpos. }
    rewrite Hz in Hz'. discriminate. }
  assert (Hm : ((3 # 3) * (inject_Z 3 + eps) == inject_Z 3)%Q).
  { rewrite H, Qmult_comm. apply Qmult_div_r. exact Hnz. }
  change (inject_Z 3) with (3 # 1) in Hm. lra.
Qed.

(** ** CUPED *)
















Section CupedSelf.
Variable series_var : list float -> float.
Variable series_cov : list float -> list float -> float.
Hypothesis series_var_short :
  forall x, (length x <= 1)%nat -> series_var x = nan.

End CupedSelf.



(** ** Variant assignment *)

Lemma label_of_draw_T p d : label_of_draw p d = "T"%string <-> (d < p)%Q.
Proof.
  unfold label_of_draw. destruct (Qle_bool p d) eqn:E; simpl.
  - apply Qle_bool_iff in E. split; [discriminate|]. intros H.
    exfalso. apply (Qlt_not_le _ _ H E).
  - split; [|reflexivity]. intros _. apply Qnot_le_lt. intros H.
    apply Qle_bool_iff in H. congruence.
Qed.

Lemma label_of_draw_C p d : label_of_draw p d = "C"%string <-> (p <= d)%Q.
Proof.
  unfold label_of_draw. destruct (Qle_bool p d) eqn:E; simpl.
  - apply Qle_bool_iff in E. tauto.
  - split; [discriminate|]. intros H. apply Qle_bool_iff in H. congruence.
Qed.

Lemma assign_rows_nth (users : list Z) (draws : list Q) p i u d :
  nth_error users i = Some u ->
  nth_error draws i = Some d ->
  nth_error
    (map (fun r => mk_assignment (fst r) (snd r))
       (combine users
          (map (fun m : bool => if m then "T"%string else "C"%string)
               (map (fun u => negb (Qle_bool p u)) draws))))
    i
  = Some (mk_assignment u (label_of_draw p d)).
Proof.
  revert users draws. induction i as [|i IH]; intros [|u' us] [|d' ds];
    simpl; try discriminate.
  - intros [= ->] [= ->]. reflexivity.
  - apply IH.
Qed.

Lemma assign_rows_users (users : list Z) (labels : list string) :
  length labels = length users ->
  map a_user_id
      (map (fun r => mk_assignment (fst r) (snd r)) (combine users labels))
  = users.
Proof.
  revert labels. induction users as [|u us IH]; intros [|l ls]; simpl;
    try discriminate; [reflexivity|].
  intros [= Hlen]. now rewrite IH.
Qed.

Section Assignment.
Context {G : Type}.
Variable default_rng : Z -> G.
Variable rng_random : G -> nat -> list Q * G.
Hypothesis rng_random_length :
  forall g n, length (fst (rng_random g n)) = n.

(** C4.  Each call builds its own generator from the seed, so the
    assignment table is a function of the user list, the seed and the
    probability alone and two calls on the same arguments give the same
    labels; the table lists the users in order, and the i-th user is
    labelled T exactly when the i-th draw of the seeded generator is
    below [p_treat], C otherwise. *)
Theorem random_assign_users_deterministic (users : list Z) (seed : Z)
    (p_treat : Q) :
  (forall users' seed',
     users' = users -> seed' = seed ->
     random_assign_users default_rng rng_random users' seed' p_treat
     = random_assign_users default_rng rng_random users seed p_treat)
  /\ map a_user_id
       (random_assign_users default_rng rng_random users seed p_treat)
     = users
  /\ forall i u,
       nth_error users i = Some u ->
       exists d a,
         nth_error (fst (rng_random (default_rng seed) (length users))) i
         = Some d
         /\ nth_error
              (random_assign_users default_rng rng_random users seed
                                   p_treat) i
            = Some a
         /\ a_user_id a = u
         /\ (variant a = "T"%string <-> (d < p_treat)%Q)
         /\ (variant a = "C"%string <-> (p_treat <= d)%Q).
Proof.
  split; [intros users' seed' -> ->; reflexivity|]. split.
  - unfold random_assign_users. apply assign_rows_users.
    now rewrite !length_map, rng_random_length.
  - intros i u Hu.
    assert (Hi : (i < length (fst (rng_random (default_rng seed)
                                              (length users))))%nat).
    { rewrite rng_random_length. apply nth_error_Some. congruence. }
    destruct (nth_error (fst (rng_random (default_rng seed)
                                         (length users))) i)
      as [d|] eqn:Ed; [|apply nth_error_Some in Hi; congruence].
    exists d, (mk_assignment u (label_of_draw p_treat d)).
    split; [reflexivity|]. split.
    + unfold random_assign_users. now apply assign_rows_nth.
    + split; [reflexivity|]. simpl. split.
      * apply label_of_draw_T.
      * apply label_of_draw_C.
Qed.
End Assignment.

Lemma lcg_random_length g n : length (fst (lcg_random g n)) = n.
Proof.
  revert g. induction n as [|n IH]; intros g; simpl; [reflexivity|].
  now rewrite IH.
Qed.

Lemma random_assign_users_deterministic_witness :
  (forall users' seed',
     users' = [1; 2; 3] -> seed' = 42 ->
     random_assign_users lcg_default_rng lcg_random users' seed' (1 # 2)
     = random_assign_users lcg_default_rng lcg_random [1; 2; 3] 42 (1 # 2))
  /\ map a_user_id
       (random_assign_users lcg_default_rng lcg_random [1; 2; 3] 42 (1 # 2))
     = [1; 2; 3]
  /\ forall i u,
       nth_error [1; 2; 3] i = Some u ->
       exists d a,
         nth_error (fst (lcg_random (lcg_default_rng 42) (length [1; 2; 3])))
                   i
         = Some d
         /\ nth_error
              (random_assign_users lcg_default_rng lcg_random [1; 2; 3] 42
                                   (1 # 2)) i
            = Some a
         /\ a_user_id a = u
         /\ (variant a = "T"%string <-> (d < 1 # 2)%Q)
         /\ (variant a = "C"%string <-> (1 # 2 <= d)%Q).
Proof.
  apply (random_assign_users_deterministic lcg_default_rng lcg_random
           lcg_random_length [1; 2; 3] 42 (1 # 2)).
Defined.

(** ** The sample-ratio check *)

Lemma srm_statistic_counts assignments nT nC :
  count_variant "T" assignments = nT ->
  count_variant "C" assignments = nC ->
  srm_statistic assignments
  = ((IZR nT - 0.5 * IZR (nT + nC)) ^ 2 / (0.5 * IZR (nT + nC))
     + (IZR nC - 0.5 * IZR (nT + nC)) ^ 2 / (0.5 * IZR (nT + nC)))%R.
Proof. intros <- <-. reflexivity. Qed.

Section ChiSquare.
(** The distribution function of the chi-square law with one degree of
    freedom, through the facts used of it: it starts at 0, and
    Chebyshev's inequality for its mean 1 and variance 2 bounds its
    right tail. *)
Variable chi2_cdf : R -> R.
Hypothesis chi2_cdf_0 : chi2_cdf 0 = 0%R.
Hypothesis chi2_cdf_tail :
  forall x : R, (1 < x)%R -> (1 - chi2_cdf x <= 2 / (x - 1) ^ 2)%R.

(** C2.  The statistic is the two-cell goodness-of-fit sum against an
    even split, [(nT - nC)^2 / (nT + nC)], and the result is the right
    tail [1 - cdf] of it: 500 against 500 gives a statistic of 0 and a
    p-value above 0.9, 900 against 100 a statistic of 640 and a p-value
    below 0.001. *)
Theorem srm_check_p_value (assignments : list assignment) :
  srm_check chi2_cdf assignments
  = (1 - chi2_cdf (srm_statistic assignments))%R
  /\ (0 < count_variant "T" assignments + count_variant "C" assignments ->
      srm_statistic assignments
      = (IZR (count_variant "T" assignments
              - count_variant "C" assignments) ^ 2
         / IZR (count_variant "T" assignments
                + count_variant "C" assignments))%R)
  /\ (count_variant "T" assignments = 500 ->
      count_variant "C" assignments = 500 ->
      srm_statistic assignments = 0%R
      /\ (srm_check chi2_cdf assignments > 0.9)%R)
  /\ (count_variant "T" assignments = 900 ->
      count_variant "C" assignments = 100 ->
      srm_statistic assignments = 640%R
      /\ (srm_check chi2_cdf assignments < 0.001)%R).
Proof.
  split; [reflexivity|]. split; [|split].
  - intros Hpos.
    rewrite (srm_statistic_counts _ _ _ eq_refl eq_refl).
    set (nT := count_variant "T" assignments) in *.
    set (nC := count_variant "C" assignments) in *.
    rewrite minus_IZR, plus_IZR.
    assert (Ht : (0 < IZR nT + IZR nC)%R)
      by (rewrite <- plus_IZR; now apply IZR_lt).
    replace 0.5%R with (/ 2)%R by Lra.lra. field. Lra.lra.
  - intros HT HC.
    assert (Hstat : srm_statistic assignments = 0%R).
    { rewrite (srm_statistic_counts _ _ _ HT HC).
      change (500 + 500) with 1000.
      replace 0.5%R with (/ 2)%R by Lra.lra. field. }
    split; [exact Hstat|].
    unfold srm_check. rewrite Hstat, chi2_cdf_0. Lra.lra.
  - intros HT HC.
    assert (Hstat : srm_statistic assignments = 640%R).
    { rewrite (srm_statistic_counts _ _ _ HT HC).
      change (900 + 100) with 1000.
      replace 0.5%R with (/ 2)%R by Lra.lra. field. }
    split; [exact Hstat|].
    unfold srm_check. rewrite Hstat.
    assert (Htail := chi2_cdf_tail 640%R ltac:(Lra.lra)).
    assert (Hnum : (2 / (640 - 1) ^ 2 < 0.001)%R).
    { replace ((640 - 1) ^ 2)%R with 408321%R by ring. Lra.lra. }
    Lra.lra.
Qed.
End ChiSquare.

Lemma chebyshev_cdf_0 : chebyshev_cdf 0 = 0%R.
Proof.
  unfold chebyshev_cdf. destruct (Rle_dec 0 1) as [_|H]; [reflexivity|Lra.lra].
Qed.

Lemma chebyshev_cdf_tail (x : R) :
  (1 < x)%R -> (1 - chebyshev_cdf x <= 2 / (x - 1) ^ 2)%R.
Proof.
  intros Hx. unfold chebyshev_cdf.
  destruct (Rle_dec x 1) as [H|_]; [Lra.lra|].
  pose proof (Rmax_r 0 (1 - 2 / (x - 1) ^ 2)) as Hmax. Lra.lra.
Qed.

Lemma srm_check_p_value_witness :
  srm_statistic (split_assignments 900 100) = 640%R
  /\ (srm_check chebyshev_cdf (split_assignments 900 100) < 0.001)%R.
Proof.
  apply (proj2 (proj2 (proj2
           (srm_check_p_value chebyshev_cdf chebyshev_cdf_0
              chebyshev_cdf_tail (split_assignments 900 100))))).
  - vm_compute. reflexivity.
  - vm_compute. reflexivity.
Defined.

(** * Further properties of the code *)

(** ** Ordered tables *)

Lemma filter_length_le_impl {A} (f g : A -> bool) l :
  (forall x, In x l -> f x = true -> g x = true) ->
  (length (filter f l) <= length (filter g l))%nat.
Proof.
  induction l as [|a t IH]; intros H; simpl; [lia|].
  assert (IH' : (length (filter f t) <= length (filter g t))%nat)
    by (apply IH; intros x Hx; apply H; now right).
  destruct (f a) eqn:Ef.
  - rewrite (H a (or_introl eq_refl) Ef). simpl. lia.
  - destruct (g a); simpl; lia.
Qed.

Lemma Zleb_total x y : (x <=? y) = true \/ (y <=? x) = true.
Proof. lia. Qed.

(** A duplicate-free list in ascending order is in strictly ascending
    order. *)
Lemma sorted_NoDup_strict l :
  Sorted (le_key Z.leb) l -> NoDup l -> StronglySorted Z.lt l.
Proof.
  intros Hs Hnd. apply Sorted_StronglySorted in Hs.
  - induction Hs as [|a t Ht IH Hall]; constructor.
    + apply IH. now inversion Hnd.
    + inversion Hnd as [|? ? Hnotin _]; subst.
      rewrite Forall_forall in Hall |- *. intros x Hx.
      specialize (Hall x Hx). unfold le_key in Hall.
      assert (x <> a) by (intros ->; contradiction). lia.
  - intros x y z. unfold le_key. lia.
Qed.

Lemma group_keys_strict {Row} (key : Row -> Z) rows :
  StronglySorted Z.lt (group_keys Z.eq_dec Z.leb key rows).
Proof.
  apply sorted_NoDup_strict.
  - unfold group_keys. apply sort_values_sorted. exact Zleb_total.
  - apply group_keys_NoDup.
Qed.

(** Two tables in strictly ascending key order with the same rows are the
    same table. *)
Lemma strict_tables_ext {B} (l l' : list (Z * B)) :
  StronglySorted Z.lt (map fst l) -> StronglySorted Z.lt (map fst l') ->
  (forall x, In x l <-> In x l') -> l = l'.
Proof.
  revert l'. induction l as [|a t IH]; intros [|b t'] Hs Hs' Hiff.
  - reflexivity.
  - exfalso. apply (Hiff b). now left.
  - exfalso. apply (Hiff a). now left.
  - simpl in Hs, Hs'. apply StronglySorted_inv in Hs as [Hs Ha].
    apply StronglySorted_inv in Hs' as [Hs' Hb].
    rewrite Forall_forall in Ha, Hb.
    assert (Hab : a = b).
    { destruct (proj1 (Hiff a) (or_introl eq_refl)) as [Heq|Hin];
        [now symmetry|].
      destruct (proj2 (Hiff b) (or_introl eq_refl)) as [Heq|Hin'];
        [exact Heq|].
      assert (fst b < fst a) by (apply Hb, in_map, Hin).
      assert (fst a < fst b) by (apply Ha, in_map, Hin').
      lia. }
    subst b. f_equal. apply IH; auto.
    intros x. split; intros Hx.
    + destruct (proj1 (Hiff x) (or_intror Hx)) as [Heq|Hin]; [|exact Hin].
      subst x. assert (fst a < fst a) by (apply Ha, in_map, Hx). lia.
    + destruct (proj2 (Hiff x) (or_intror Hx)) as [Heq|Hin]; [|exact Hin].
      subst x. assert (fst a < fst a) by (apply Hb, in_map, Hx). lia.
Qed.

(** ** The event deriver, further *)

Lemma rating_ge_weaken r : rating_ge (9 # 2) r = true -> rating_ge 4 r = true.
Proof.
  unfold rating_ge. rewrite !Qle_bool_iff. intros H.
  apply Qle_trans with (9 # 2); [discriminate|exact H].
Qed.

Lemma count_event_derive name ratings :
  count_event name (derive_events ratings)
  = count_event name
      (map normalize_types (map (with_event "view") ratings)
       ++ map normalize_types
            (map (with_event "like") (filter (rating_ge 4) ratings))
       ++ map normalize_types
            (map (with_event "comment")
                 (filter (rating_ge (9 # 2)) ratings))).
Proof.
  rewrite <- !map_app.
  unfold count_event. symmetry.
  apply Permutation_length, filter_perm, derive_events_perm.
Qed.

(** X1.  In a derived log every [comment] comes with a [like] and every
    [like] with a [view] of the same user, item and timestamp; there are
    no more comments than likes, no more likes than views, and no other
    event names. *)
Theorem derive_events_nested (ratings : list rating_row) :
  (forall u i t,
     In (mk_event u i t "comment") (derive_events ratings) ->
     In (mk_event u i t "like") (derive_events ratings))
  /\ (forall u i t,
        In (mk_event u i t "like") (derive_events ratings) ->
        In (mk_event u i t "view") (derive_events ratings))
  /\ (count_event "comment" (derive_events ratings)
      <= count_event "like" (derive_events ratings)
      <= count_event "view" (derive_events ratings))%nat
  /\ (forall e,
        In e (derive_events ratings) ->
        event e = "view"%string \/ event e = "like"%string
        \/ event e = "comment"%string).
Proof.
  split; [|split; [|split]].
  - intros u i t Hin.
    apply derive_events_In in Hin as (r & Hr & [H|[[H _]|[H Hge]]]);
      unfold cast_event, normalize_types, with_event in H;
      cbn [user_id item_id ts event] in H; try discriminate H.
    injection H as -> -> ->. apply derive_events_In. exists r.
    split; [exact Hr|]. right; left.
    split; [reflexivity|now apply rating_ge_weaken].
  - intros u i t Hin.
    apply derive_events_In in Hin as (r & Hr & [H|[[H _]|[H _]]]);
      unfold cast_event, normalize_types, with_event in H;
      cbn [user_id item_id ts event] in H; try discriminate H.
    injection H as -> -> ->. apply derive_events_In. exists r. auto.
  - rewrite !count_event_derive, !count_event_app, !count_event_with_event.
    simpl. rewrite !Nat.add_0_r.
    split.
    + apply filter_length_le_impl. intros r _. apply rating_ge_weaken.
    + apply filter_length_le.
  - intros e Hin.
    apply derive_events_In in Hin as (r & _ & [->|[[-> _]|[-> _]]]);
      cbn [cast_event normalize_types with_event event]; auto.
Qed.

(** ** The per-user metric, further *)

Lemma user_metric_strict ev w :
  StronglySorted Z.lt (map fst (user_metric ev w)).
Proof.
  unfold user_metric, size_by_user. rewrite groupby_keys.
  apply group_keys_strict.
Qed.

Lemma views_in_window_le_total ev u t0 w :
  views_in_window ev u t0 w <= views_total ev u.
Proof.
  unfold views_in_window, views_total. apply inj_le.
  apply filter_length_le_impl. intros e _ H.
  apply andb_prop in H as [H _]. apply andb_prop in H as [H _]. exact H.
Qed.

Lemma views_in_window_mono ev u t0 w w' :
  w <= w' -> views_in_window ev u t0 w <= views_in_window ev u t0 w'.
Proof.
  intros Hw. unfold views_in_window. apply inj_le.
  apply filter_length_le_impl. intros e _ H.
  apply andb_prop in H as [H Hhi]. rewrite H. simpl.
  apply Z.leb_le in Hhi. apply Z.leb_le.
  unfold SECONDS_PER_DAY in *. lia.
Qed.

(** X2.  The metric table lists its users in strictly ascending order of
    user id, and every value lies between 1 and the number of [view]
    events the user has in the whole log. *)
Theorem user_metric_sorted_bounded (ev : list event_row) (window_days : Z) :
  StronglySorted Z.lt (map fst (user_metric ev window_days))
  /\ forall u n,
       In (u, n) (user_metric ev window_days) ->
       1 <= n <= views_total ev u.
Proof.
  split; [apply user_metric_strict|].
  intros u n Hin. apply user_metric_In in Hin as (t0 & _ & -> & Hpos).
  split; [lia|apply views_in_window_le_total].
Qed.

Lemma user_metric_sorted_bounded_witness :
  1 <= 1 <= views_total sample_log 1.
Proof.
  apply (proj2 (user_metric_sorted_bounded sample_log 7) 1 1).
  vm_compute. left. reflexivity.
Defined.

(** X3.  Widening the window never loses a user and never lowers a
    value. *)
Theorem user_metric_monotone (ev : list event_row) (w w' u n : Z) :
  w <= w' ->
  In (u, n) (user_metric ev w) ->
  exists n', In (u, n') (user_metric ev w') /\ n <= n'.
Proof.
  intros Hw Hin. apply user_metric_In in Hin as (t0 & Ht0 & -> & Hpos).
  pose proof (views_in_window_mono ev u t0 w w' Hw) as Hmono.
  exists (views_in_window ev u t0 w'). split; [|exact Hmono].
  apply user_metric_In. exists t0. repeat split; auto; try apply Ht0. lia.
Qed.

Lemma user_metric_monotone_witness :
  exists n', In (1, n') (user_metric sample_log 9) /\ 1 <= n'.
Proof.
  apply (user_metric_monotone sample_log 7 9 1 1).
  - lia.
  - vm_compute. left. reflexivity.
Defined.

(** X4.  With a negative window the metric table is empty: no event lies
    before its user's first one. *)
Theorem user_metric_negative_window (ev : list event_row) (window_days : Z) :
  window_days < 0 -> user_metric ev window_days = [].
Proof.
  intros Hw. destruct (user_metric ev window_days) as [|[u n] t] eqn:E;
    [reflexivity|].
  assert (Hin : In (u, n) (user_metric ev window_days))
    by (rewrite E; now left).
  apply user_metric_In in Hin as (t0 & _ & -> & Hpos).
  exfalso. unfold views_in_window in Hpos.
  destruct (filter _ ev) as [|e l] eqn:Ef; [simpl in Hpos; lia|].
  assert (He : In e (e :: l)) by now left.
  rewrite <- Ef in He. apply filter_In in He as [_ He].
  apply andb_prop in He as [He Hhi]. apply andb_prop in He as [_ Hlo].
  apply Z.leb_le in Hhi, Hlo. unfold SECONDS_PER_DAY in *. lia.
Qed.

Lemma user_metric_negative_window_witness :
  user_metric sample_log (-1) = [].
Proof.
  apply (user_metric_negative_window sample_log (-1)). lia.
Defined.

Lemma is_t0_perm ev ev' u t0 :
  Permutation ev ev' -> is_t0 ev u t0 -> is_t0 ev' u t0.
Proof.
  intros HP [(e & He & Hu & Ht) Hmin]. split.
  - exists e. split; [|auto]. now apply (Permutation_in _ HP).
  - intros e' He'. apply Hmin.
    now apply (Permutation_in _ (Permutation_sym HP)).
Qed.

Lemma views_in_window_perm ev ev' u t0 w :
  Permutation ev ev' ->
  views_in_window ev u t0 w = views_in_window ev' u t0 w.
Proof.
  intros HP. unfold views_in_window. f_equal.
  now apply Permutation_length, filter_perm.
Qed.

(** X5.  The metric table does not depend on the order of the rows of
    the event log. *)
Theorem user_metric_order_independent (ev ev' : list event_row)
    (window_days : Z) :
  Permutation ev ev' ->
  user_metric ev window_days = user_metric ev' window_days.
Proof.
  intros HP. apply strict_tables_ext; try apply user_metric_strict.
  intros [u n]. rewrite !user_metric_In. split.
  - intros (t0 & Ht0 & -> & Hpos). exists t0.
    split; [now apply (is_t0_perm ev ev')|].
    split; [now apply views_in_window_perm|exact Hpos].
  - intros (t0 & Ht0 & -> & Hpos). exists t0.
    apply Permutation_sym in HP.
    split; [now apply (is_t0_perm ev' ev)|].
    split; [now apply views_in_window_perm|exact Hpos].
Qed.

Lemma user_metric_order_independent_witness :
  user_metric sample_log 7 = user_metric (rev sample_log) 7.
Proof.
  apply (user_metric_order_independent sample_log (rev sample_log) 7).
  apply Permutation_rev.
Defined.

(** ** The funnel, further *)

Lemma key_in_iff keys k : key_in keys k = true <-> In k keys.
Proof.
  unfold key_in. rewrite existsb_exists. split.
  - intros (x & Hx & Heq). apply Z.eqb_eq in Heq. now subst.
  - intros H. exists k. split; [exact H|apply Z.eqb_refl].
Qed.

Lemma column_sum_indicator {A} (b : A -> bool) l :
  column_sum (map (fun a => if b a then 1 else 0) l)
  = Z.of_nat (length (filter b l)).
Proof.
  induction l as [|a t IH]; [reflexivity|].
  cbn [map column_sum fold_right filter].
  fold (column_sum (map (fun a => if b a then 1 else 0) t)).
  rewrite IH. destruct (b a); simpl length; lia.
Qed.

Lemma NoDup_map_filter {A} (f : A -> Z) (b : A -> bool) l :
  NoDup (map f l) -> NoDup (map f (filter b l)).
Proof.
  induction l as [|a t IH]; simpl; intros Hnd; [constructor|].
  inversion Hnd as [|? ? Hnotin Hnd']; subst.
  destruct (b a); simpl; [|now apply IH].
  constructor; [|now apply IH].
  intros Hin. apply Hnotin. apply in_map_iff in Hin as (x & Hx & Hin).
  apply filter_In in Hin as [Hin _]. apply in_map_iff. now exists x.
Qed.

(** Summing the flags of a step table over the users counts the rows of
    the step table, when its users are among them. *)
Lemma step_sum_count {X} (U : list (Z * X)) (T0 : list (Z * Z)) :
  NoDup (map fst U) -> NoDup (map fst T0) ->
  incl (map fst T0) (map fst U) ->
  column_sum
    (map (fun a => fillna0 (assoc (fst a) (map (fun r => (fst r, 1)) T0))) U)
  = Z.of_nat (length T0).
Proof.
  intros HU HT Hincl.
  assert (Hflag : forall a : Z * X,
    fillna0 (assoc (fst a) (map (fun r : Z * Z => (fst r, 1)) T0))
    = if key_in (map fst T0) (fst a) then 1 else 0).
  { intros a.
    destruct (assoc (fst a) (map (fun r : Z * Z => (fst r, 1)) T0))
      as [v|] eqn:E.
    - pose proof (assoc_Some_In _ _ _ E) as Hin.
      apply in_map_iff in Hin as (r & [= Hk <-] & Hr).
      assert (Hmem : key_in (map fst T0) (fst a) = true).
      { apply key_in_iff. rewrite <- Hk. now apply in_map. }
      now rewrite Hmem.
    - apply assoc_None in E. rewrite map_map in E. cbn [fst] in E.
      destruct (key_in (map fst T0) (fst a)) eqn:Hmem; [|reflexivity].
      apply key_in_iff in Hmem. contradiction. }
  rewrite (map_ext _ _ Hflag), column_sum_indicator. f_equal.
  rewrite <- (length_map (@fst Z X) (filter _ U)),
    <- (length_map (@fst Z Z) T0).
  apply NoDup_same_length.
  - now apply NoDup_map_filter.
  - exact HT.
  - intros k. rewrite in_map_iff. split.
    + intros (a & <- & Ha). apply filter_In in Ha as [_ Ha].
      now apply key_in_iff.
    + intros Hk. destruct (proj1 (in_map_iff _ _ _) (Hincl k Hk))
        as (a & Hfa & Ha).
      exists a. split; [exact Hfa|]. apply filter_In. split; [exact Ha|].
      apply key_in_iff. now rewrite Hfa.
Qed.

Lemma days_since_ge (d c : Z) :
  Qle_bool (inject_Z c) (inject_Z d / inject_Z SECONDS_PER_DAY)
  = (c * SECONDS_PER_DAY <=? d).
Proof.
  apply eq_true_iff_eq. rewrite Qle_bool_iff, Z.leb_le.
  unfold Qle, Qdiv, Qmult, Qinv, inject_Z, SECONDS_PER_DAY. simpl. lia.
Qed.

Lemma funnel_users_has ev u :
  In u (map user_id ev) -> In u (map fst (funnel_users ev)).
Proof.
  intros Hu. apply in_map_iff. exists (u, t0_user ev u).
  split; [reflexivity|]. apply funnel_users_In. auto.
Qed.

Lemma is_t0_user ev u t0 : is_t0 ev u t0 -> In u (map user_id ev).
Proof.
  intros [(e & He & Hu & _) _]. apply in_map_iff. now exists e.
Qed.

Lemma funnel_week1_In ev u n :
  In (u, n) (funnel_week1 ev) -> returned_day7 ev u /\ 0 < n.
Proof.
  unfold funnel_week1, size_by_user. rewrite groupby_In, with_t0_eq.
  rewrite group_nonempty_iff, group_filter_map_length. cbn [fst].
  intros [Hpos ->]. split; [|lia].
  destruct (filter _ ev) as [|e l] eqn:Ef; [simpl in Hpos; lia|].
  assert (He : In e (e :: l)) by now left.
  rewrite <- Ef in He. apply filter_In in He as [He Hp].
  apply andb_prop in Hp as [Hu Hp]. apply Z.eqb_eq in Hu.
  assert (Hmem : In u (map user_id ev)) by (apply in_map_iff; now exists e).
  destruct (t0_user_spec ev u Hmem) as (t0 & Ht & Hist).
  rewrite Hu, Ht in Hp. unfold days_since in Hp. cbn [fst snd] in Hp.
  apply andb_prop in Hp as [Hge Hlt]. cbn [f_geb f_ltb] in Hge, Hlt.
  change 7%Q with (inject_Z 7) in Hge. change 8%Q with (inject_Z 8) in Hlt.
  rewrite days_since_ge in Hge. rewrite days_since_ge in Hlt.
  apply Z.leb_le in Hge. apply negb_true_iff, Z.leb_gt in Hlt.
  exists t0, e. repeat split; auto; try apply Hist; lia.
Qed.

Lemma funnel_week1_has ev u :
  returned_day7 ev u -> exists n, In (u, n) (funnel_week1 ev) /\ 0 < n.
Proof.
  intros (t0 & e & Hist & He & Hu & Hlo & Hhi).
  pose proof (is_t0_user _ _ _ Hist) as Hmem.
  destruct (t0_user_spec ev u Hmem) as (t & Ht & Hist').
  rewrite (is_t0_unique _ _ _ _ Hist' Hist) in Ht.
  eexists. split.
  - unfold funnel_week1, size_by_user. apply groupby_In.
    split; [|reflexivity]. rewrite with_t0_eq.
    apply in_map_iff. exists (e, t0_user ev (user_id e)).
    split; [exact Hu|]. apply filter_In. split.
    + apply in_map_iff. now exists e.
    + rewrite Hu, Ht. unfold days_since. cbn [fst snd f_geb f_ltb].
      change 7%Q with (inject_Z 7). change 8%Q with (inject_Z 8).
      rewrite !days_since_ge. apply andb_true_intro. split.
      * apply Z.leb_le. lia.
      * apply negb_true_iff, Z.leb_gt. lia.
  - apply (inj_lt 0). apply group_nonempty_iff. rewrite with_t0_eq.
    apply in_map_iff. exists (e, t0_user ev (user_id e)).
    split; [exact Hu|]. apply filter_In. split.
    + apply in_map_iff. now exists e.
    + rewrite Hu, Ht. unfold days_since. cbn [fst snd f_geb f_ltb].
      change 7%Q with (inject_Z 7). change 8%Q with (inject_Z 8).
      rewrite !days_since_ge. apply andb_true_intro. split.
      * apply Z.leb_le. lia.
      * apply negb_true_iff, Z.leb_gt. lia.
Qed.

(** The funnel, through the users each step counts. *)
Lemma build_funnel_steps ev :
  exists act ret : list Z,
    NoDup act /\ NoDup ret
    /\ (forall u, In u act <-> activated ev u)
    /\ (forall u, In u ret <-> returned_day7 ev u)
    /\ build_funnel ev
       = funnel_table (nunique (map user_id ev))
                      (Z.of_nat (length act)) (Z.of_nat (length ret)).
Proof.
  exists (map fst (filter (fun r : Z * Z => 5 <=? snd r) (user_metric ev 3))).
  exists (map fst (filter (fun r : Z * Z => 0 <? snd r) (funnel_week1 ev))).
  assert (Hnd2 : NoDup (map fst (filter (fun r : Z * Z => 5 <=? snd r)
                                        (user_metric ev 3)))).
  { apply NoDup_keys_filter. unfold user_metric, size_by_user.
    apply groupby_NoDup. }
  assert (Hnd3 : NoDup (map fst (filter (fun r : Z * Z => 0 <? snd r)
                                        (funnel_week1 ev)))).
  { apply NoDup_keys_filter. unfold funnel_week1, size_by_user.
    apply groupby_NoDup. }
  assert (Hact : forall u,
    In u (map fst (filter (fun r : Z * Z => 5 <=? snd r) (user_metric ev 3)))
    <-> activated ev u).
  { intros u. rewrite in_map_iff. split.
    - intros ([u' n] & Hu & Hin). simpl in Hu. subst u'.
      apply filter_In in Hin as [Hin Hn]. simpl in Hn. apply Z.leb_le in Hn.
      apply user_metric_In in Hin as (t0 & Ht0 & -> & _).
      now exists t0.
    - intros (t0 & Ht0 & Hn).
      exists (u, views_in_window ev u t0 3). split; [reflexivity|].
      apply filter_In. split; [|simpl; now apply Z.leb_le].
      apply user_metric_In. exists t0. repeat split; auto; try apply Ht0.
      lia. }
  assert (Hret : forall u,
    In u (map fst (filter (fun r : Z * Z => 0 <? snd r) (funnel_week1 ev)))
    <-> returned_day7 ev u).
  { intros u. rewrite in_map_iff. split.
    - intros ([u' n] & Hu & Hin). simpl in Hu. subst u'.
      apply filter_In in Hin as [Hin _].
      now apply funnel_week1_In in Hin as [Hin _].
    - intros Hr. destruct (funnel_week1_has ev u Hr) as (n & Hin & Hpos).
      exists (u, n). split; [reflexivity|]. apply filter_In.
      split; [exact Hin|]. simpl. now apply Z.ltb_lt. }
  split; [exact Hnd2|]. split; [exact Hnd3|].
  split; [exact Hact|]. split; [exact Hret|].
  unfold build_funnel. fold (funnel_users ev).
  change (size_by_user
            (filter (fun r => is_view r && f_leb (days_since r) 3)
                    (with_t0 ev)))
    with (user_metric ev 3).
  fold (funnel_week1 ev).
  rewrite merge_chain.
  - rewrite !map_map. cbn [fst snd].
    rewrite (column_sum_ones _ (funnel_users ev)).
    + rewrite funnel_users_length.
      rewrite !step_sum_count; try apply funnel_users_keys_NoDup.
      * rewrite !length_map. reflexivity.
      * exact Hnd3.
      * intros u Hu. apply funnel_users_has.
        apply Hret in Hu as (t0 & _ & Hist & _). now apply is_t0_user in Hist.
      * exact Hnd2.
      * intros u Hu. apply funnel_users_has.
        apply Hact in Hu as (t0 & Hist & _). now apply is_t0_user in Hist.
    + intros a Ha.
      assert (Hs : assoc (fst a)
                     (map (fun u : Z * option Z => (fst u, (snd u, 1)))
                          (funnel_users ev))
                   = Some (snd a, 1)).
      { apply assoc_In.
        - rewrite map_map. cbn [fst]. apply funnel_users_keys_NoDup.
        - apply in_map_iff. now exists a. }
      now rewrite Hs.
  - rewrite map_map. cbn [fst]. apply funnel_users_keys_NoDup.
  - rewrite map_map. cbn [fst]. exact Hnd2.
  - rewrite map_map. cbn [fst]. exact Hnd3.
Qed.

(** X6.  The activation count of the funnel is the number of distinct
    users with at least five [view] events within three days of their own
    first event, the day-7 count the number of distinct users with an
    event of any kind at least seven and less than eight days after it,
    and the signup count the number of distinct users. *)
Theorem build_funnel_step_users (ev : list event_row) :
  exists act ret : list Z,
    NoDup act /\ NoDup ret
    /\ (forall u, In u act <-> activated ev u)
    /\ (forall u, In u ret <-> returned_day7 ev u)
    /\ map step_users (build_funnel ev)
       = [ nunique (map user_id ev);
           Z.of_nat (length act); Z.of_nat (length ret) ].
Proof.
  destruct (build_funnel_steps ev) as (act & ret & H1 & H2 & H3 & H4 & Heq).
  exists act, ret. repeat (split; [assumption|]). now rewrite Heq.
Qed.

Lemma Qdiv_unit_interval a s :
  0 <= a <= s -> 1 <= s -> (0 <= inject_Z a / inject_Z s <= 1)%Q.
Proof.
  intros [Ha Has] Hs.
  assert (Hspos : (0 < inject_Z s)%Q) by (unfold Qlt; simpl; lia).
  split.
  - apply Qle_shift_div_l; [exact Hspos|].
    rewrite Qmult_0_l. change 0%Q with (inject_Z 0). now rewrite <- Zle_Qle.
  - apply Qle_shift_div_r; [exact Hspos|].
    rewrite Qmult_1_l, <- Zle_Qle. exact Has.
Qed.

Lemma true_div_unit_interval a s :
  0 <= a <= s -> 1 <= s ->
  exists q, true_div a (Some s) = Fin q /\ (0 <= q <= 1)%Q.
Proof.
  intros Ha Hs. unfold true_div.
  destruct (s =? 0) eqn:E; [apply Z.eqb_eq in E; lia|].
  eexists. split; [reflexivity|]. now apply Qdiv_unit_interval.
Qed.

(** X7.  On an empty log the three rates of the funnel are NaN (0/0); on
    any other log every rate is a finite number between 0 and 1. *)
Theorem build_funnel_rates (ev : list event_row) :
  (ev = [] -> map rate_vs_signup (build_funnel ev) = [NaN; NaN; NaN])
  /\ (ev <> [] ->
      Forall (fun row => exists q,
                rate_vs_signup row = Fin q /\ (0 <= q <= 1)%Q)
             (build_funnel ev)).
Proof.
  split; [intros ->; reflexivity|].
  intros Hne. destruct (build_funnel_rows ev) as (n2 & n3 & Heq & H2 & H3).
  assert (Hpos : 1 <= nunique (map user_id ev)).
  { apply nunique_pos. destruct ev; [congruence|discriminate]. }
  rewrite Heq. cbn zeta. repeat constructor; cbn [rate_vs_signup].
  - apply true_div_unit_interval; lia.
  - now apply true_div_unit_interval.
  - now apply true_div_unit_interval.
Qed.

Lemma build_funnel_rates_witness :
  Forall (fun row => exists q,
            rate_vs_signup row = Fin q /\ (0 <= q <= 1)%Q)
         (build_funnel sample_log).
Proof.
  apply (proj2 (build_funnel_rates sample_log)).
  vm_compute. discriminate.
Defined.

Lemma nunique_perm l l' : Permutation l l' -> nunique l = nunique l'.
Proof.
  intros HP. unfold nunique. f_equal. apply NoDup_same_length.
  - apply drop_duplicates_NoDup.
  - apply drop_duplicates_NoDup.
  - intros x. rewrite !drop_duplicates_In. split; apply Permutation_in;
      [exact HP|now apply Permutation_sym].
Qed.

Lemma activated_perm ev ev' u :
  Permutation ev ev' -> activated ev u -> activated ev' u.
Proof.
  intros HP (t0 & Ht0 & Hn). exists t0.
  split; [now apply (is_t0_perm ev ev')|].
  now rewrite <- (views_in_window_perm ev ev' u t0 3 HP).
Qed.

Lemma returned_day7_perm ev ev' u :
  Permutation ev ev' -> returned_day7 ev u -> returned_day7 ev' u.
Proof.
  intros HP (t0 & e & Ht0 & He & Hrest). exists t0, e.
  split; [now apply (is_t0_perm ev ev')|].
  split; [now apply (Permutation_in _ HP)|exact Hrest].
Qed.

(** X8.  The funnel does not depend on the order of the rows of the event
    log. *)
Theorem build_funnel_order_independent (ev ev' : list event_row) :
  Permutation ev ev' -> build_funnel ev = build_funnel ev'.
Proof.
  intros HP. pose proof (Permutation_sym HP) as HP'.
  destruct (build_funnel_steps ev)
    as (act & ret & Ha & Hr & Hact & Hret & ->).
  destruct (build_funnel_steps ev')
    as (act' & ret' & Ha' & Hr' & Hact' & Hret' & ->).
  rewrite (nunique_perm _ _ (Permutation_map user_id HP)).
  rewrite (NoDup_same_length act act' Ha Ha'),
    (NoDup_same_length ret ret' Hr Hr'); [reflexivity| |].
  - intros u. rewrite Hret, Hret'.
    split; now apply returned_day7_perm.
  - intros u. rewrite Hact, Hact'. split; now apply activated_perm.
Qed.

Lemma build_funnel_order_independent_witness :
  build_funnel sample_log = build_funnel (rev sample_log).
Proof.
  apply (build_funnel_order_independent sample_log (rev sample_log)).
  apply Permutation_rev.
Defined.

(** ** Cohorts and retention, further *)

(** Two lists in strictly ascending order with the same elements are the
    same list. *)
Lemma strict_lists_ext {A} (R : A -> A -> Prop) (l l' : list A) :
  (forall x y, R x y -> R y x -> False) ->
  (forall x, ~ R x x) ->
  StronglySorted R l -> StronglySorted R l' ->
  (forall x, In x l <-> In x l') -> l = l'.
Proof.
  intros Hasym Hirr. revert l'.
  induction l as [|a t IH]; intros [|b t'] Hs Hs' Hiff.
  - reflexivity.
  - exfalso. apply (Hiff b). now left.
  - exfalso. apply (Hiff a). now left.
  - apply StronglySorted_inv in Hs as [Hs Ha].
    apply StronglySorted_inv in Hs' as [Hs' Hb].
    rewrite Forall_forall in Ha, Hb.
    assert (Hab : a = b).
    { destruct (proj1 (Hiff a) (or_introl eq_refl)) as [Heq|Hin];
        [now symmetry|].
      destruct (proj2 (Hiff b) (or_introl eq_refl)) as [Heq|Hin'];
        [exact Heq|].
      exfalso. apply (Hasym a b); auto. }
    subst b. f_equal. apply IH; auto.
    intros x. split; intros Hx.
    + destruct (proj1 (Hiff x) (or_intror Hx)) as [Heq|Hin]; [|exact Hin].
      subst x. exfalso. apply (Hirr a). now apply Ha.
    + destruct (proj2 (Hiff x) (or_intror Hx)) as [Heq|Hin]; [|exact Hin].
      subst x. exfalso. apply (Hirr a). now apply Hb.
Qed.

Lemma cohort_leb_total a b : cohort_leb a b = true \/ cohort_leb b a = true.
Proof. unfold cohort_leb, pair_leb. simpl. lia. Qed.

Lemma cohort_lt_trans a b c : cohort_lt a b -> cohort_lt b c -> cohort_lt a c.
Proof. unfold cohort_lt. lia. Qed.

Section CohortOrder.
Variable period_start : Z -> Z.
Variable ev : list event_row.

(** A row of the cohort table is determined by its cohort and period. *)
Lemma build_cohorts_key_inj a b :
  In a (build_cohorts period_start ev) ->
  In b (build_cohorts period_start ev) ->
  cohort a = cohort b -> period a = period b -> a = b.
Proof.
  intros Ha Hb Hc Hp.
  apply build_cohorts_In in Ha as (c & p & _ & ->).
  apply build_cohorts_In in Hb as (c' & p' & _ & ->).
  simpl in Hc, Hp. now subst.
Qed.

Lemma build_cohorts_NoDup : NoDup (build_cohorts period_start ev).
Proof.
  rewrite build_cohorts_stages. apply sort_values_NoDup.
  rewrite merge_left_unique by apply cohort_sizes_NoDup.
  rewrite map_map.
  apply (NoDup_map_inv (fun r => (cohort r, period r))).
  rewrite map_map. cbn [cohort period fst snd].
  rewrite (map_ext _ fst) by (intros [[c p] a]; reflexivity).
  unfold cohort_retention. apply groupby_NoDup.
Qed.

Lemma build_cohorts_strict :
  StronglySorted cohort_lt (build_cohorts period_start ev).
Proof.
  pose proof build_cohorts_NoDup as Hnd.
  assert (Hkey : forall a b,
    In a (build_cohorts period_start ev) ->
    In b (build_cohorts period_start ev) ->
    cohort a = cohort b -> period a = period b -> a = b)
    by apply build_cohorts_key_inj.
  assert (Hs : Sorted (le_key cohort_leb) (build_cohorts period_start ev)).
  { rewrite build_cohorts_stages. apply sort_values_sorted.
    exact cohort_leb_total. }
  apply Sorted_StronglySorted; [exact cohort_lt_trans|].
  induction Hs as [|a t Ht IH Hhd]; constructor.
  - apply IH.
    + now inversion Hnd.
    + intros x y Hx Hy. apply Hkey; now right.
  - destruct Hhd as [|b t' Hab]; constructor.
    unfold le_key, cohort_leb, pair_leb in Hab. simpl in Hab.
    unfold cohort_lt.
    destruct (Z.eq_dec (cohort a) (cohort b)) as [Hc|Hc]; [|lia].
    destruct (Z.eq_dec (period a) (period b)) as [Hp|Hp]; [|lia].
    exfalso. inversion Hnd as [|? ? Hnotin _]; subst.
    apply Hnotin. rewrite (Hkey a b); [now left|now left|right; now left| |];
      assumption.
Qed.
End CohortOrder.

(** X9.  The cohort table is in strictly ascending order of
    [(cohort, period)]: no pair occurs twice, and a row is determined by
    its cohort and period. *)
Theorem build_cohorts_sorted (period_start : Z -> Z) (ev : list event_row) :
  StronglySorted cohort_lt (build_cohorts period_start ev)
  /\ forall a b,
       In a (build_cohorts period_start ev) ->
       In b (build_cohorts period_start ev) ->
       cohort a = cohort b -> period a = period b -> a = b.
Proof.
  split; [apply build_cohorts_strict|apply build_cohorts_key_inj].
Qed.

Lemma build_cohorts_sorted_witness :
  mk_cohort (-259200) 345600 1 (Some 3) (Fin (1 # 3))
  = mk_cohort (-259200) 345600 1 (Some 3) (Fin (1 # 3)).
Proof.
  apply (proj2 (build_cohorts_sorted week_start sample_log)).
  - vm_compute. right. left. reflexivity.
  - vm_compute. right. left. reflexivity.
  - reflexivity.
  - reflexivity.
Defined.

Section CohortMembers.
Variable period_start : Z -> Z.
Variable ev : list event_row.

Lemma cohort_user_iff u c :
  In u (map user_id ev) ->
  cohort_user period_start ev u = Some c <-> is_cohort period_start ev u c.
Proof.
  intros Hu. destruct (cohort_user_spec period_start ev u Hu)
    as (c' & Hc' & Hfirst).
  split.
  - intros Hc. assert (c' = c) by congruence. now subst.
  - intros Hc. rewrite Hc'. f_equal.
    now apply (is_cohort_unique period_start ev u).
Qed.

Lemma is_cohort_user u c :
  is_cohort period_start ev u c -> In u (map user_id ev).
Proof.
  intros [(e & He & Hu & _) _]. apply in_map_iff. now exists e.
Qed.

(** The users counted in a cell of the cohort table. *)
Lemma cohort_member_iff c p u :
  In ((c, p), u) (cohort_keyed period_start ev)
  <-> is_cohort period_start ev u c
      /\ exists e, In e ev /\ user_id e = u /\ period_start (ts e) = p.
Proof.
  rewrite cohort_keyed_In. split.
  - intros (e & He & Hu & Hp & Hc). split; [|now exists e].
    apply cohort_user_iff; [|exact Hc]. apply in_map_iff. now exists e.
  - intros (Hc & e & He & Hu & Hp). exists e.
    repeat split; auto. apply cohort_user_iff; [|exact Hc].
    apply in_map_iff. now exists e.
Qed.

Lemma cohort_own_member_iff c u :
  In ((c, c), u) (cohort_keyed period_start ev)
  <-> is_cohort period_start ev u c.
Proof.
  rewrite cohort_member_iff. split; [tauto|].
  intros Hc. split; [exact Hc|]. apply Hc.
Qed.

Lemma cohort_active_members c p :
  exists members : list Z,
    NoDup members
    /\ (forall u, In u members
                  <-> In ((c, p), u) (cohort_keyed period_start ev))
    /\ cohort_active period_start ev c p = Z.of_nat (length members).
Proof.
  exists (drop_duplicates Z.eq_dec
            (map snd (group_rows pair_eq_dec fst (c, p)
                                 (cohort_keyed period_start ev)))).
  split; [apply drop_duplicates_NoDup|]. split; [|reflexivity].
  intros u. now rewrite drop_duplicates_In, cohort_group_In.
Qed.
End CohortMembers.

(** X10.  In every row of the cohort table, [active_users] is the number
    of distinct users whose first period is the row's cohort and who have
    an event in the row's period, and [cohort_size] is the number of
    distinct users whose first period is the row's cohort. *)
Theorem build_cohorts_counts (period_start : Z -> Z) (ev : list event_row)
    (row : cohort_row) :
  In row (build_cohorts period_start ev) ->
  exists active members : list Z,
    NoDup active /\ NoDup members
    /\ (forall u,
          In u active
          <-> is_cohort period_start ev u (cohort row)
              /\ exists e, In e ev /\ user_id e = u
                           /\ period_start (ts e) = period row)
    /\ (forall u, In u members <-> is_cohort period_start ev u (cohort row))
    /\ active_users row = Z.of_nat (length active)
    /\ cohort_size row = Some (Z.of_nat (length members)).
Proof.
  intros Hin. apply build_cohorts_In in Hin as (c & p & _ & ->).
  destruct (cohort_active_members period_start ev c p)
    as (active & Ha & Hamem & Hacount).
  destruct (cohort_active_members period_start ev c c)
    as (members & Hm & Hmmem & Hmcount).
  exists active, members. cbn [cohort period active_users cohort_size].
  split; [exact Ha|]. split; [exact Hm|]. split; [|split; [|split]].
  - intros u. now rewrite Hamem, cohort_member_iff.
  - intros u. now rewrite Hmmem, cohort_own_member_iff.
  - exact Hacount.
  - now rewrite Hmcount.
Qed.

Lemma build_cohorts_counts_witness :
  exists active members : list Z,
    NoDup active /\ NoDup members
    /\ (forall u,
          In u active
          <-> is_cohort week_start sample_log u (-259200)
              /\ exists e, In e sample_log /\ user_id e = u
                           /\ week_start (ts e) = 345600)
    /\ (forall u, In u members <-> is_cohort week_start sample_log u (-259200))
    /\ 1 = Z.of_nat (length active)
    /\ Some 3 = Some (Z.of_nat (length members)).
Proof.
  apply (build_cohorts_counts week_start sample_log
           (mk_cohort (-259200) 345600 1 (Some 3) (Fin (1 # 3)))).
  vm_compute. right. left. reflexivity.
Defined.

(** X12.  The cohort table is empty exactly when the event log is. *)
Theorem build_cohorts_empty_iff (period_start : Z -> Z)
    (ev : list event_row) :
  build_cohorts period_start ev = [] <-> ev = [].
Proof.
  split.
  - intros Hnil. destruct ev as [|e t]; [reflexivity|].
    exfalso. apply (build_cohorts_nonempty period_start (e :: t));
      [discriminate|exact Hnil].
  - intros ->. reflexivity.
Qed.

Lemma column_sum_perm l l' :
  Permutation l l' -> column_sum l = column_sum l'.
Proof.
  induction 1 as [|x l l' _ IH|x y l|l l' l'' _ IH1 _ IH2]; simpl; lia.
Qed.

Lemma column_sum_cons x l : column_sum (x :: l) = x + column_sum l.
Proof. reflexivity. Qed.

Lemma column_sum_add {A} (f g : A -> Z) l :
  column_sum (map (fun a => f a + g a) l)
  = column_sum (map f l) + column_sum (map g l).
Proof.
  induction l as [|a t IH]; [reflexivity|].
  cbn [map]. rewrite !column_sum_cons, IH. lia.
Qed.

Lemma column_sum_zeros {A} (l : list A) :
  column_sum (map (fun _ => 0) l) = 0.
Proof.
  induction l as [|a t IH]; [reflexivity|].
  cbn [map]. rewrite column_sum_cons. lia.
Qed.

Lemma column_sum_one_hit (x : Z) (C : list Z) :
  NoDup C -> In x C ->
  column_sum (map (fun c => if x =? c then 1 else 0) C) = 1.
Proof.
  induction C as [|c t IH]; intros Hnd Hin; [destruct Hin|].
  inversion Hnd as [|? ? Hnotin Hnd']; subst.
  cbn [map]. rewrite column_sum_cons.
  destruct (x =? c) eqn:E.
  - apply Z.eqb_eq in E. subst c.
    rewrite (map_ext_in _ (fun _ => 0)).
    + rewrite column_sum_zeros. lia.
    + intros c Hc. destruct (x =? c) eqn:E'; [|reflexivity].
      apply Z.eqb_eq in E'. subst c. contradiction.
  - apply Z.eqb_neq in E. destruct Hin as [Heq|Hin]; [congruence|].
    rewrite (IH Hnd' Hin). lia.
Qed.

(** Counting the members of a list class by class counts the list. *)
Lemma column_sum_fibers (k : Z -> Z) (U C : list Z) :
  NoDup C -> (forall u, In u U -> In (k u) C) ->
  column_sum
    (map (fun c => Z.of_nat (length (filter (fun u => k u =? c) U))) C)
  = Z.of_nat (length U).
Proof.
  intros Hnd. induction U as [|u t IH]; intros Hk.
  - cbn [filter length]. apply column_sum_zeros.
  - rewrite (map_ext _
      (fun c => (if k u =? c then 1 else 0)
                + Z.of_nat (length (filter (fun u => k u =? c) t)))).
    + rewrite column_sum_add, IH by (intros x Hx; apply Hk; now right).
      rewrite column_sum_one_hit; [simpl length; lia|exact Hnd|].
      apply Hk. now left.
    + intros c. cbn [filter]. destruct (k u =? c); simpl length; lia.
Qed.

Section CohortPartition.
Variable period_start : Z -> Z.
Variable ev : list event_row.

Lemma cohort_sizes_value c s :
  In (c, s) (cohort_sizes period_start ev) ->
  s = cohort_active period_start ev c c.
Proof.
  intros Hin. apply cohort_sizes_In, cohort_retention_In in Hin. apply Hin.
Qed.

Lemma cohort_active_own_fiber c :
  cohort_active period_start ev c c
  = Z.of_nat
      (length (filter (fun u => cohort_of period_start ev u =? c)
                      (drop_duplicates Z.eq_dec (map user_id ev)))).
Proof.
  destruct (cohort_active_members period_start ev c c)
    as (members & Hnd & Hmem & ->).
  f_equal. apply NoDup_same_length.
  - exact Hnd.
  - apply NoDup_filter, drop_duplicates_NoDup.
  - intros u. rewrite Hmem, cohort_own_member_iff, filter_In,
      drop_duplicates_In. unfold cohort_of. split.
    + intros Hc. pose proof (is_cohort_user _ _ _ _ Hc) as Hu.
      split; [exact Hu|]. apply (cohort_user_iff _ _ _ _ Hu) in Hc.
      rewrite Hc. apply Z.eqb_refl.
    + intros [Hu Hc].
      destruct (cohort_user_spec period_start ev u Hu) as (c' & Hc' & Hfirst).
      rewrite Hc' in Hc. apply Z.eqb_eq in Hc. now subst.
Qed.

Lemma cohort_of_in_sizes u :
  In u (map user_id ev) ->
  In (cohort_of period_start ev u) (map fst (cohort_sizes period_start ev)).
Proof.
  intros Hu.
  destruct (cohort_user_spec period_start ev u Hu) as (c & Hc & Hfirst).
  unfold cohort_of. rewrite Hc.
  apply in_map_iff.
  exists (c, cohort_active period_start ev c c). split; [reflexivity|].
  apply cohort_sizes_In, cohort_retention_In. split; [|reflexivity].
  apply in_map_iff. exists ((c, c), u). split; [reflexivity|].
  now apply cohort_own_member_iff.
Qed.

Lemma cohort_sizes_sum :
  column_sum (map snd (cohort_sizes period_start ev))
  = nunique (map user_id ev).
Proof.
  rewrite (map_ext_in snd
    (fun r => Z.of_nat
       (length (filter (fun u => cohort_of period_start ev u =? fst r)
                       (drop_duplicates Z.eq_dec (map user_id ev)))))).
  - rewrite <- (map_map fst
      (fun c => Z.of_nat
         (length (filter (fun u => cohort_of period_start ev u =? c)
                         (drop_duplicates Z.eq_dec (map user_id ev)))))).
    rewrite column_sum_fibers; [reflexivity|apply cohort_sizes_NoDup|].
    intros u Hu. apply drop_duplicates_In in Hu.
    now apply cohort_of_in_sizes.
  - intros [c s] Hin. cbn [fst snd].
    rewrite (cohort_sizes_value c s Hin). apply cohort_active_own_fiber.
Qed.

Lemma build_cohorts_own_rows :
  Permutation
    (map active_users
         (filter (fun row => period row =? cohort row)
                 (build_cohorts period_start ev)))
    (map snd (cohort_sizes period_start ev)).
Proof.
  rewrite build_cohorts_stages.
  rewrite <- (filter_perm _ _ _ (sort_values_perm cohort_leb _)).
  rewrite merge_left_unique by apply cohort_sizes_NoDup.
  rewrite map_map, filter_map_swap, map_map.
  cbn [period cohort active_users fst snd].
  unfold cohort_sizes. rewrite map_map. cbn [snd]. reflexivity.
Qed.
End CohortPartition.

(** X11.  The cohort sizes add up to the number of distinct users of the
    log: summed over the rows at a cohort's own period, [active_users]
    counts every user exactly once. *)
Theorem build_cohorts_partition (period_start : Z -> Z)
    (ev : list event_row) :
  column_sum
    (map active_users
         (filter (fun row => period row =? cohort row)
                 (build_cohorts period_start ev)))
  = nunique (map user_id ev).
Proof.
  rewrite (column_sum_perm _ _ (build_cohorts_own_rows period_start ev)).
  apply cohort_sizes_sum.
Qed.

Lemma week_start_bounds t :
  week_start t <= t < week_start t + 7 * SECONDS_PER_DAY.
Proof.
  unfold week_start, SECONDS_PER_DAY.
  pose proof (Z.mod_pos_bound (t + 3 * 86400) (7 * 86400)). lia.
Qed.

Lemma week_start_aligned t :
  (week_start t + 3 * SECONDS_PER_DAY) mod (7 * SECONDS_PER_DAY) = 0.
Proof.
  unfold week_start, SECONDS_PER_DAY.
  replace (t - (t + 3 * 86400) mod (7 * 86400) + 3 * 86400)
    with ((t + 3 * 86400) / (7 * 86400) * (7 * 86400)).
  - apply Z_mod_mult.
  - pose proof (Z.div_mod (t + 3 * 86400) (7 * 86400)). lia.
Qed.

(** The cohort and the period of a row are the period starts of two
    events of one user. *)
Lemma build_cohorts_row_events period_start ev row :
  In row (build_cohorts period_start ev) ->
  exists e e',
    In e ev /\ In e' ev /\ user_id e = user_id e'
    /\ cohort row = period_start (ts e')
    /\ period row = period_start (ts e).
Proof.
  intros Hin. apply build_cohorts_In in Hin as (c & p & Hin & ->).
  apply in_map_iff in Hin as ([k u] & Hk & Hin). simpl in Hk. subst k.
  apply cohort_member_iff in Hin
    as ([(e' & He' & Hu' & Hc) _] & e & He & Hu & Hp).
  exists e, e'. cbn [cohort period]. repeat split; auto. congruence.
Qed.

(** X13.  With weekly periods, every cohort and every period of the table
    starts on a Monday 00:00 (three days before a multiple of seven days
    since the epoch), they lie a whole number of weeks apart, the period
    not before the cohort, and each is the week of an event of the
    log. *)
Theorem build_cohorts_weekly (ev : list event_row) (row : cohort_row) :
  In row (build_cohorts week_start ev) ->
  (cohort row + 3 * SECONDS_PER_DAY) mod (7 * SECONDS_PER_DAY) = 0
  /\ (period row + 3 * SECONDS_PER_DAY) mod (7 * SECONDS_PER_DAY) = 0
  /\ (period row - cohort row) mod (7 * SECONDS_PER_DAY) = 0
  /\ cohort row <= period row
  /\ exists e e',
       In e ev /\ In e' ev /\ user_id e = user_id e'
       /\ cohort row <= ts e' < cohort row + 7 * SECONDS_PER_DAY
       /\ period row <= ts e < period row + 7 * SECONDS_PER_DAY.
Proof.
  intros Hin.
  destruct (build_cohorts_row_events _ _ _ Hin)
    as (e & e' & He & He' & Hu & Hc & Hp).
  destruct (build_cohorts_row _ _ _ Hin) as (_ & _ & _ & _ & _ & Hle).
  pose proof (week_start_aligned (ts e')) as Hac.
  pose proof (week_start_aligned (ts e)) as Hap.
  rewrite <- Hc in Hac. rewrite <- Hp in Hap.
  split; [exact Hac|]. split; [exact Hap|]. split; [|split; [exact Hle|]].
  - apply Zmod_divides in Hac as [a Ha]; [|unfold SECONDS_PER_DAY; lia].
    apply Zmod_divides in Hap as [b Hb]; [|unfold SECONDS_PER_DAY; lia].
    apply Zmod_divides; [unfold SECONDS_PER_DAY; lia|].
    exists (b - a). lia.
  - exists e, e'. repeat split; auto.
    + rewrite Hc. apply week_start_bounds.
    + rewrite Hc. apply week_start_bounds.
    + rewrite Hp. apply week_start_bounds.
    + rewrite Hp. apply week_start_bounds.
Qed.

Lemma build_cohorts_weekly_witness :
  (-259200 + 3 * SECONDS_PER_DAY) mod (7 * SECONDS_PER_DAY) = 0
  /\ (345600 + 3 * SECONDS_PER_DAY) mod (7 * SECONDS_PER_DAY) = 0
  /\ (345600 - -259200) mod (7 * SECONDS_PER_DAY) = 0
  /\ -259200 <= 345600
  /\ exists e e',
       In e sample_log /\ In e' sample_log /\ user_id e = user_id e'
       /\ -259200 <= ts e' < -259200 + 7 * SECONDS_PER_DAY
       /\ 345600 <= ts e < 345600 + 7 * SECONDS_PER_DAY.
Proof.
  apply (build_cohorts_weekly sample_log
           (mk_cohort (-259200) 345600 1 (Some 3) (Fin (1 # 3)))).
  vm_compute. right. left. reflexivity.
Defined.

Section CohortOrderIndependent.
Variable period_start : Z -> Z.
Variables ev ev' : list event_row.
Hypothesis HP : Permutation ev ev'.

Lemma is_cohort_perm u c :
  is_cohort period_start ev u c -> is_cohort period_start ev' u c.
Proof.
  intros [(e & He & Hu & Hc) Hmin]. split.
  - exists e. split; [|auto]. now apply (Permutation_in _ HP).
  - intros e' He'. apply Hmin.
    now apply (Permutation_in _ (Permutation_sym HP)).
Qed.

Lemma cohort_member_perm c p u :
  In ((c, p), u) (cohort_keyed period_start ev) ->
  In ((c, p), u) (cohort_keyed period_start ev').
Proof.
  rewrite !cohort_member_iff. intros (Hc & e & He & Hrest).
  split; [now apply is_cohort_perm|].
  exists e. split; [|exact Hrest]. now apply (Permutation_in _ HP).
Qed.
End CohortOrderIndependent.

Lemma cohort_active_perm period_start ev ev' c p :
  Permutation ev ev' ->
  cohort_active period_start ev c p = cohort_active period_start ev' c p.
Proof.
  intros HP.
  destruct (cohort_active_members period_start ev c p)
    as (m & Hnd & Hmem & ->).
  destruct (cohort_active_members period_start ev' c p)
    as (m' & Hnd' & Hmem' & ->).
  f_equal. apply NoDup_same_length; auto.
  intros u. rewrite Hmem, Hmem'. split.
  - now apply cohort_member_perm.
  - apply cohort_member_perm. now apply Permutation_sym.
Qed.

Lemma build_cohorts_In_perm period_start ev ev' row :
  Permutation ev ev' ->
  In row (build_cohorts period_start ev) ->
  In row (build_cohorts period_start ev').
Proof.
  intros HP Hin. apply build_cohorts_In in Hin as (c & p & Hin & ->).
  apply build_cohorts_In. exists c, p. split.
  - apply in_map_iff in Hin as ([k u] & Hk & Hin). simpl in Hk. subst k.
    apply in_map_iff. exists ((c, p), u). split; [reflexivity|].
    now apply (cohort_member_perm period_start ev ev').
  - now rewrite !(cohort_active_perm period_start ev ev' _ _ HP).
Qed.

(** X14.  The cohort table does not depend on the order of the rows of
    the event log. *)
Theorem build_cohorts_order_independent (period_start : Z -> Z)
    (ev ev' : list event_row) :
  Permutation ev ev' ->
  build_cohorts period_start ev = build_cohorts period_start ev'.
Proof.
  intros HP. apply (strict_lists_ext cohort_lt).
  - unfold cohort_lt. intros x y. lia.
  - unfold cohort_lt. intros x. lia.
  - apply build_cohorts_strict.
  - apply build_cohorts_strict.
  - intros row. split; apply build_cohorts_In_perm;
      [exact HP|now apply Permutation_sym].
Qed.

Lemma build_cohorts_order_independent_witness :
  build_cohorts week_start sample_log
  = build_cohorts week_start (rev sample_log).
Proof.
  apply (build_cohorts_order_independent week_start sample_log
           (rev sample_log)).
  apply Permutation_rev.
Defined.

(** ** Variant assignment, further *)

Lemma assign_rows_In (users : list Z) (draws : list Q) p a :
  In a
    (map (fun r => mk_assignment (fst r) (snd r))
       (combine users
          (map (fun m : bool => if m then "T"%string else "C"%string)
               (map (fun u => negb (Qle_bool p u)) draws)))) ->
  exists d, In d draws /\ variant a = label_of_draw p d.
Proof.
  revert draws. induction users as [|u us IH]; intros [|d ds]; simpl;
    try tauto.
  intros [<-|Hin].
  - exists d. split; [now left|reflexivity].
  - destruct (IH ds Hin) as (d' & Hd' & Hv). exists d'. split; [now right|].
    exact Hv.
Qed.

Lemma assign_rows_length (users : list Z) (labels : list string) :
  length labels = length users ->
  length (map (fun r => mk_assignment (fst r) (snd r)) (combine users labels))
  = length users.
Proof.
  intros Hlen. rewrite length_map, length_combine, Hlen. apply Nat.min_id.
Qed.

Lemma filter_split_length {A} (f g : A -> bool) l :
  (forall a, In a l -> f a = negb (g a)) ->
  (length (filter f l) + length (filter g l) = length l)%nat.
Proof.
  induction l as [|a t IH]; intros H; [reflexivity|].
  assert (IH' := IH (fun x Hx => H x (or_intror Hx))).
  cbn [filter]. rewrite (H a (or_introl eq_refl)).
  destruct (g a); simpl; lia.
Qed.

(** Every row carries one of the two labels, so the two counts cover the
    table. *)
Lemma count_variant_cover assignments :
  (forall a, In a assignments ->
             variant a = "T"%string \/ variant a = "C"%string) ->
  count_variant "T" assignments + count_variant "C" assignments
  = Z.of_nat (length assignments).
Proof.
  intros H. unfold count_variant. rewrite <- Nat2Z.inj_add. f_equal.
  apply filter_split_length. intros a Ha.
  destruct (H a Ha) as [Hv|Hv]; rewrite Hv; reflexivity.
Qed.

Section AssignmentRange.
Context {G : Type}.
Variable default_rng : Z -> G.
Variable rng_random : G -> nat -> list Q * G.
Hypothesis rng_random_length :
  forall g n, length (fst (rng_random g n)) = n.
Hypothesis rng_random_range :
  forall g n d, In d (fst (rng_random g n)) -> (0 <= d < 1)%Q.

(** X15.  With draws in [[0, 1)], a treatment probability of 0 or less
    labels every user C and a probability of 1 or more labels every user
    T. *)
Theorem random_assign_users_extreme_p (users : list Z) (seed : Z)
    (p_treat : Q) :
  ((p_treat <= 0)%Q ->
   forall a,
     In a (random_assign_users default_rng rng_random users seed p_treat) ->
     variant a = "C"%string)
  /\ ((1 <= p_treat)%Q ->
      forall a,
        In a (random_assign_users default_rng rng_random users seed p_treat) ->
        variant a = "T"%string).
Proof.
  split; intros Hp a Hin; unfold random_assign_users in Hin;
    apply assign_rows_In in Hin as (d & Hd & ->);
    apply rng_random_range in Hd as [Hlo Hhi].
  - apply label_of_draw_C. now apply Qle_trans with 0%Q.
  - apply label_of_draw_T. now apply Qlt_le_trans with 1%Q.
Qed.

(** X16.  Every row of the assignment table is labelled T or C, one row
    per user, so the two counts of the sample-ratio check add up to the
    number of users. *)
Theorem random_assign_users_two_cells (users : list Z) (seed : Z)
    (p_treat : Q) :
  (forall a,
     In a (random_assign_users default_rng rng_random users seed p_treat) ->
     variant a = "T"%string \/ variant a = "C"%string)
  /\ length (random_assign_users default_rng rng_random users seed p_treat)
     = length users
  /\ count_variant "T"
       (random_assign_users default_rng rng_random users seed p_treat)
     + count_variant "C"
         (random_assign_users default_rng rng_random users seed p_treat)
     = Z.of_nat (length users).
Proof.
  assert (Hlab : forall a,
    In a (random_assign_users default_rng rng_random users seed p_treat) ->
    variant a = "T"%string \/ variant a = "C"%string).
  { intros a Hin. unfold random_assign_users in Hin.
    apply assign_rows_In in Hin as (d & _ & ->). unfold label_of_draw.
    destruct (negb (Qle_bool p_treat d)); auto. }
  assert (Hlen :
    length (random_assign_users default_rng rng_random users seed p_treat)
    = length users).
  { unfold random_assign_users. apply assign_rows_length.
    now rewrite !length_map, rng_random_length. }
  split; [exact Hlab|]. split; [exact Hlen|].
  rewrite (count_variant_cover _ Hlab). now rewrite Hlen.
Qed.
End AssignmentRange.

Lemma lcg_random_range g n d :
  In d (fst (lcg_random g n)) -> (0 <= d < 1)%Q.
Proof.
  revert g. induction n as [|n IH]; intros g; cbn [lcg_random fst];
    [intros []|].
  intros [<-|Hin]; [|now apply (IH _ Hin)].
  pose proof (Z.mod_pos_bound (1103515245 * g + 12345) 2147483648
                ltac:(lia)) as Hb.
  set (r := (1103515245 * g + 12345) mod 2147483648) in *.
  unfold Qle, Qlt. cbn [Qnum Qden]. lia.
Qed.

Lemma random_assign_users_extreme_p_witness :
  Forall (fun a => variant a = "C"%string)
         (random_assign_users lcg_default_rng lcg_random [1; 2; 3] 42 0)
  /\ Forall (fun a => variant a = "T"%string)
            (random_assign_users lcg_default_rng lcg_random [1; 2; 3] 42 1).
Proof.
  split; apply Forall_forall.
  - apply (proj1 (random_assign_users_extreme_p lcg_default_rng lcg_random
                    lcg_random_range [1; 2; 3] 42 0)).
    apply Qle_refl.
  - apply (proj2 (random_assign_users_extreme_p lcg_default_rng lcg_random
                    lcg_random_range [1; 2; 3] 42 1)).
    apply Qle_refl.
Defined.

Lemma random_assign_users_two_cells_witness :
  count_variant "T"
    (random_assign_users lcg_default_rng lcg_random [1; 2; 3] 42 (1 # 2))
  + count_variant "C"
      (random_assign_users lcg_default_rng lcg_random [1; 2; 3] 42 (1 # 2))
  = Z.of_nat (length [1; 2; 3]).
Proof.
  apply (proj2 (proj2 (random_assign_users_two_cells lcg_default_rng
                         lcg_random lcg_random_length [1; 2; 3] 42 (1 # 2)))).
Defined.

(** ** The sample-ratio check, further *)

Lemma count_variant_nonneg v assignments : 0 <= count_variant v assignments.
Proof. unfold count_variant. lia. Qed.

Lemma srm_statistic_closed assignments :
  0 < count_variant "T" assignments + count_variant "C" assignments ->
  srm_statistic assignments
  = (IZR (count_variant "T" assignments - count_variant "C" assignments) ^ 2
     / IZR (count_variant "T" assignments + count_variant "C" assignments))%R.
Proof.
  intros Hpos. rewrite (srm_statistic_counts _ _ _ eq_refl eq_refl).
  set (nT := count_variant "T" assignments) in *.
  set (nC := count_variant "C" assignments) in *.
  rewrite minus_IZR, plus_IZR.
  assert (Ht : (0 < IZR nT + IZR nC)%R)
    by (rewrite <- plus_IZR; now apply IZR_lt).
  replace 0.5%R with (/ 2)%R by Lra.lra. field. Lra.lra.
Qed.

(** X17.  On a table with at least one labelled row the statistic of the
    sample-ratio check lies between 0 and the number of labelled rows, it
    is 0 exactly when the two arms have the same size, and it reaches the
    number of labelled rows exactly when one arm is empty. *)
Theorem srm_statistic_range (assignments : list assignment) :
  0 < count_variant "T" assignments + count_variant "C" assignments ->
  (0 <= srm_statistic assignments
   <= IZR (count_variant "T" assignments + count_variant "C" assignments))%R
  /\ (srm_statistic assignments = 0%R
      <-> count_variant "T" assignments = count_variant "C" assignments)
  /\ (srm_statistic assignments
      = IZR (count_variant "T" assignments + count_variant "C" assignments)
      <-> count_variant "T" assignments = 0
          \/ count_variant "C" assignments = 0).
Proof.
  intros Hpos. rewrite (srm_statistic_closed _ Hpos).
  pose proof (count_variant_nonneg "T" assignments) as HT.
  pose proof (count_variant_nonneg "C" assignments) as HC.
  set (nT := count_variant "T" assignments) in *.
  set (nC := count_variant "C" assignments) in *.
  rewrite minus_IZR, plus_IZR.
  apply IZR_le in HT, HC. apply IZR_lt in Hpos. rewrite plus_IZR in Hpos.
  set (a := IZR nT) in *. set (b := IZR nC) in *.
  assert (Hmul : forall s : R,
    ((a - b) ^ 2 / (a + b) = s <-> (a - b) ^ 2 = s * (a + b))%R).
  { intros s. split; intros H.
    - rewrite <- H. field. Lra.lra.
    - rewrite H. field. Lra.lra. }
  split; [split|split].
  - apply Rmult_le_pos; [apply pow2_ge_0|].
    apply Rlt_le, Rinv_0_lt_compat, Hpos.
  - apply (Rmult_le_reg_r (a + b)); [exact Hpos|].
    replace ((a - b) ^ 2 / (a + b) * (a + b))%R with ((a - b) ^ 2)%R
      by (field; Lra.lra).
    Lra.nra.
  - rewrite Hmul. split.
    + intros H. apply eq_IZR. fold a b.
      assert (Hsq : ((a - b) * (a - b) = 0)%R) by Lra.lra.
      apply Rmult_integral in Hsq. Lra.lra.
    + intros H. apply (f_equal IZR) in H. fold a b in H. rewrite H.
      Lra.lra.
  - rewrite Hmul. split.
    + intros H. assert (Hab : (a * b = 0)%R) by Lra.lra.
      apply Rmult_integral in Hab as [H0|H0]; [left|right];
        apply eq_IZR; exact H0.
    + intros [H|H]; apply (f_equal IZR) in H; fold a b in H; rewrite H;
        Lra.lra.
Qed.

Lemma srm_statistic_range_witness :
  (0 <= srm_statistic (split_assignments 3 1) <= IZR (3 + 1))%R.
Proof.
  apply (proj1 (srm_statistic_range (split_assignments 3 1)
                  ltac:(vm_compute; reflexivity))).
Defined.

(** ** CUPED, further *)



(** A covariate that is constant need not have a zero variance in
    binary64: the mean of three rows of 100000000.1 is not that number,
    theta is not a zero and [y] comes back shifted. *)
Example cuped_adjust_constant_rounding :
  (nanvar [0x1.7d78400666666p+26; 0x1.7d78400666666p+26;
           0x1.7d78400666666p+26] =? 0)%float = false
  /\ cuped_adjust nanvar nancov [1; 2; 4]%float
       [0x1.7d78400666666p+26; 0x1.7d78400666666p+26;
        0x1.7d78400666666p+26]%float
     <> [1; 2; 4]%float.
Proof.
  split; [vm_compute; reflexivity|].
  intros H. vm_compute in H. discriminate.
Qed.

(** ** The simulated treatment *)

Lemma combine_fst {A B} (x : list A) (y : list B) :
  length x = length y -> map fst (combine x y) = x.
Proof.
  revert y. induction x as [|a x IH]; intros [|b y]; simpl; try discriminate;
    [reflexivity|].
  intros [= Hlen]. now rewrite IH.
Qed.

Lemma simulate_zip {X} (lab : Z * Z * X -> string) (lift_pct : Q)
    (ms : list (Z * Z * X)) (noise : list Q) :
  map (fun r : (Z * Z * X) * string * Q => (fst (fst r), snd (fst r), snd r))
      (combine (map (fun m => (m, lab m)) ms)
         (map (fun r : ((Z * Z * X) * string) * (Q * Q) =>
                 if String.eqb (snd (fst r)) "T"
                 then (fst (snd r) * (1 + lift_pct) + snd (snd r))%Q
                 else (fst (snd r) + snd (snd r))%Q)
              (combine (map (fun m => (m, lab m)) ms)
                 (combine
                    (map (fun r : (Z * Z * X) * string =>
                            inject_Z (snd (fst (fst r))))
                         (map (fun m => (m, lab m)) ms))
                    noise))))
  = map (fun r : (Z * Z * X) * Q =>
           (fst r, lab (fst r),
            simulated_y lift_pct (lab (fst r)) (snd (fst (fst r))) (snd r)))
        (combine ms noise).
Proof.
  revert noise. induction ms as [|m ms IH]; intros [|d noise]; simpl;
    try reflexivity.
  rewrite IH. reflexivity.
Qed.

Lemma assignment_keys assignments :
  map fst (map (fun a => (a_user_id a, variant a)) assignments)
  = map a_user_id assignments.
Proof. rewrite map_map. reflexivity. Qed.

Section Simulation.
Context {G X : Type}.
Variable default_rng : Z -> G.
Variable rng_normal : G -> nat -> list Q * G.
Hypothesis rng_normal_length :
  forall g n, length (fst (rng_normal g n)) = n.

Variable metric_df : list (Z * Z * X).
Variable assignments : list assignment.
Hypothesis assignments_unique : NoDup (map a_user_id assignments).

(** With one assignment row per user, the simulation keeps the metric
    rows as they are and decorates each with its variant and outcome. *)
Lemma simulate_treatment_effect_eq (lift_pct : Q) (seed : Z) :
  simulate_treatment_effect default_rng rng_normal metric_df assignments
                            lift_pct seed
  = map (fun r : (Z * Z * X) * Q =>
           (fst r,
            variant_or_control assignments (fst (fst (fst r))),
            simulated_y lift_pct
              (variant_or_control assignments (fst (fst (fst r))))
              (snd (fst (fst r))) (snd r)))
        (combine metric_df
           (fst (rng_normal (default_rng seed) (length metric_df)))).
Proof.
  unfold simulate_treatment_effect.
  rewrite merge_left_unique by (rewrite assignment_keys; exact assignments_unique).
  rewrite (map_map
             (fun a : Z * Z * X =>
                (a, assoc (fst (fst a))
                          (map (fun a => (a_user_id a, variant a))
                               assignments)))
             (fun r => (fst r, match snd r with
                               | Some v => v
                               | None => "C"%string
                               end))
             metric_df).
  rewrite length_map.
  exact (simulate_zip
           (fun m => variant_or_control assignments (fst (fst m)))
           lift_pct metric_df
           (fst (rng_normal (default_rng seed) (length metric_df)))).
Qed.

(** X20.  With one assignment row per user, the simulation returns the
    metric rows unchanged and in order, one output row each; a row's
    variant is the one assigned to its user, and C for a user without an
    assignment; its outcome is the metric plus the row's noise, the metric
    first scaled by [1 + lift_pct] when the variant is T. *)
Theorem simulate_treatment_effect_rows (lift_pct : Q) (seed : Z) :
  map (fun r => fst (fst r))
      (simulate_treatment_effect default_rng rng_normal metric_df assignments
                                 lift_pct seed)
  = metric_df
  /\ forall i m,
       nth_error metric_df i = Some m ->
       exists d,
         nth_error (fst (rng_normal (default_rng seed) (length metric_df))) i
         = Some d
         /\ nth_error
              (simulate_treatment_effect default_rng rng_normal metric_df
                                         assignments lift_pct seed) i
            = Some (m, variant_or_control assignments (fst (fst m)),
                    simulated_y lift_pct
                      (variant_or_control assignments (fst (fst m)))
                      (snd (fst m)) d)
         /\ (~ In (fst (fst m)) (map a_user_id assignments) ->
             variant_or_control assignments (fst (fst m)) = "C"%string)
         /\ (forall a, In a assignments -> a_user_id a = fst (fst m) ->
             variant_or_control assignments (fst (fst m)) = variant a).
Proof.
  rewrite simulate_treatment_effect_eq. split.
  - rewrite map_map. cbn [fst]. apply combine_fst.
    now rewrite rng_normal_length.
  - intros i m Hm.
    assert (Hi : (i < length (fst (rng_normal (default_rng seed)
                                              (length metric_df))))%nat).
    { rewrite rng_normal_length. apply nth_error_Some. congruence. }
    destruct (nth_error (fst (rng_normal (default_rng seed)
                                         (length metric_df))) i)
      as [d|] eqn:Ed; [|apply nth_error_Some in Hi; congruence].
    exists d. split; [reflexivity|]. split; [|split].
    + rewrite nth_error_map.
      assert (Hc : nth_error
                     (combine metric_df
                        (fst (rng_normal (default_rng seed)
                                         (length metric_df)))) i
                   = Some (m, d)).
      { clear Hi. revert Hm Ed.
        generalize (fst (rng_normal (default_rng seed) (length metric_df))).
        generalize metric_df. clear.
        induction i as [|i IH]; intros [|m' ms] [|d' ds]; simpl;
          try discriminate.
        - now intros [= ->] [= ->].
        - apply IH. }
      rewrite Hc. reflexivity.
    + intros Hnot. unfold variant_or_control.
      rewrite <- assignment_keys in Hnot. apply assoc_None in Hnot.
      now rewrite Hnot.
    + intros a Ha Hu. unfold variant_or_control.
      assert (Hs : assoc (fst (fst m))
                     (map (fun a => (a_user_id a, variant a)) assignments)
                   = Some (variant a)).
      { apply assoc_In; [now rewrite assignment_keys|].
        apply in_map_iff. exists a. rewrite Hu. auto. }
      now rewrite Hs.
Qed.
End Simulation.

Lemma lcg_normal_length g n : length (fst (lcg_normal g n)) = n.
Proof. unfold lcg_normal. cbn [fst]. rewrite length_map. apply lcg_random_length. Qed.

Lemma simulate_treatment_effect_rows_witness :
  map (fun r => fst (fst r))
      (simulate_treatment_effect lcg_default_rng lcg_normal
         [(1, 2, tt); (2, 1, tt)] [mk_assignment 1 "T"] (12 # 100) 7)
  = [(1, 2, tt); (2, 1, tt)]
  /\ forall i m,
       nth_error [(1, 2, tt); (2, 1, tt)] i = Some m ->
       exists d,
         nth_error (fst (lcg_normal (lcg_default_rng 7)
                                    (length [(1, 2, tt); (2, 1, tt)]))) i
         = Some d
         /\ nth_error
              (simulate_treatment_effect lcg_default_rng lcg_normal
                 [(1, 2, tt); (2, 1, tt)] [mk_assignment 1 "T"] (12 # 100) 7)
              i
            = Some (m, variant_or_control [mk_assignment 1 "T"] (fst (fst m)),
                    simulated_y (12 # 100)
                      (variant_or_control [mk_assignment 1 "T"] (fst (fst m)))
                      (snd (fst m)) d)
         /\ (~ In (fst (fst m)) (map a_user_id [mk_assignment 1 "T"]) ->
             variant_or_control [mk_assignment 1 "T"] (fst (fst m))
             = "C"%string)
         /\ (forall a, In a [mk_assignment 1 "T"] ->
             a_user_id a = fst (fst m) ->
             variant_or_control [mk_assignment 1 "T"] (fst (fst m))
             = variant a).
Proof.
  apply (simulate_treatment_effect_rows lcg_default_rng lcg_normal
           lcg_normal_length [(1, 2, tt); (2, 1, tt)] [mk_assignment 1 "T"]).
  simpl. repeat constructor. intros [].
Defined.

Lemma simulated_y_zero_lift label views d :
  (simulated_y 0 label views d == inject_Z views + d)%Q.
Proof. unfold simulated_y. destruct (String.eqb label "T"); ring. Qed.

Lemma Forall2_map_both {A B C} (R : B -> C -> Prop) (f : A -> B)
    (g : A -> C) l :
  (forall a, R (f a) (g a)) -> Forall2 R (map f l) (map g l).
Proof. intros H. induction l; simpl; constructor; auto. Qed.

(** X21.  With a lift of zero the labels have no influence on the
    outcomes: for two assignment tables that each hold at most one row per
    user, the two simulations of one metric frame and seed give, row by
    row, the same metric row and the same outcome [metric + noise]. *)
Theorem simulate_treatment_effect_zero_lift {G X} (default_rng : Z -> G)
    (rng_normal : G -> nat -> list Q * G)
    (metric_df : list (Z * Z * X)) (a1 a2 : list assignment) (seed : Z) :
  NoDup (map a_user_id a1) -> NoDup (map a_user_id a2) ->
  Forall2
    (fun r1 r2 => fst (fst r1) = fst (fst r2) /\ (snd r1 == snd r2)%Q)
    (simulate_treatment_effect default_rng rng_normal metric_df a1 0 seed)
    (simulate_treatment_effect default_rng rng_normal metric_df a2 0 seed).
Proof.
  intros H1 H2.
  rewrite (simulate_treatment_effect_eq default_rng rng_normal metric_df a1 H1).
  rewrite (simulate_treatment_effect_eq default_rng rng_normal metric_df a2 H2).
  apply Forall2_map_both. intros [m d]. cbn [fst snd].
  split; [reflexivity|]. now rewrite !simulated_y_zero_lift.
Qed.

Lemma simulate_treatment_effect_zero_lift_witness :
  Forall2
    (fun r1 r2 => fst (fst r1) = fst (fst r2) /\ (snd r1 == snd r2)%Q)
    (simulate_treatment_effect lcg_default_rng lcg_normal
       [(1, 2, tt); (2, 1, tt)] [mk_assignment 1 "T"] 0 7)
    (simulate_treatment_effect lcg_default_rng lcg_normal
       [(1, 2, tt); (2, 1, tt)] [mk_assignment 2 "T"] 0 7).
Proof.
  apply (simulate_treatment_effect_zero_lift lcg_default_rng lcg_normal
           [(1, 2, tt); (2, 1, tt)] [mk_assignment 1 "T"]
           [mk_assignment 2 "T"] 7).
  - simpl. repeat constructor. intros [].
  - simpl. repeat constructor. intros [].
Defined.

(** ** The experiment run *)

Lemma user_metric_keys_NoDup ev w : NoDup (map fst (user_metric ev w)).
Proof. unfold user_metric, size_by_user. apply groupby_NoDup. Qed.

Lemma experiment_metrics_eq ev :
  experiment_metrics ev
  = map (fun r => (fst r, snd r, fillna0 (assoc (fst r) (user_metric ev 1))))
        (user_metric ev 7).
Proof.
  unfold experiment_metrics.
  rewrite merge_left_unique by apply user_metric_keys_NoDup.
  rewrite map_map. reflexivity.
Qed.

(** X22.  The metric frame of the experiment has exactly the rows of the
    seven-day metric, in order, each with its covariate; the covariate is
    the user's one-day metric, 0 when the user has no view in the first
    day, and never exceeds the seven-day value. *)
Theorem experiment_metrics_rows (ev : list event_row) :
  map (fun r => (fst (fst r), snd (fst r))) (experiment_metrics ev)
  = user_metric ev 7
  /\ forall u views pre,
       In (u, views, pre) (experiment_metrics ev) ->
       0 <= pre <= views
       /\ (0 < pre -> In (u, pre) (user_metric ev 1))
       /\ (pre = 0 -> ~ In u (map fst (user_metric ev 1))).
Proof.
  rewrite experiment_metrics_eq. split.
  - rewrite map_map. cbn [fst snd].
    rewrite (map_ext _ (fun r => r)) by (intros [u n]; reflexivity).
    apply map_id.
  - intros u views pre Hin. apply in_map_iff in Hin as ([u' n] & Heq & Hin).
    cbn [fst snd] in Heq. injection Heq as -> -> <-.
    destruct (assoc u (user_metric ev 1)) as [n1|] eqn:E; cbn [fillna0].
    + pose proof (assoc_Some_In _ _ _ E) as Hin1.
      pose proof Hin1 as Hin1'.
      apply user_metric_In in Hin1' as (t1 & Ht1 & -> & Hpos1).
      apply user_metric_In in Hin as (t7 & Ht7 & -> & Hpos7).
      rewrite (is_t0_unique _ _ _ _ Ht7 Ht1).
      pose proof (views_in_window_mono ev u t1 1 7 ltac:(lia)).
      split; [lia|]. split; [intros _; exact Hin1|]. lia.
    + apply user_metric_In in Hin as (t7 & Ht7 & -> & Hpos7).
      split; [lia|]. split; [lia|]. intros _. now apply assoc_None in E.
Qed.

Lemma experiment_metrics_rows_witness :
  0 <= 1 <= 1
  /\ (0 < 1 -> In (1, 1) (user_metric sample_log 1))
  /\ (1 = 0 -> ~ In 1 (map fst (user_metric sample_log 1))).
Proof.
  apply (proj2 (experiment_metrics_rows sample_log) 1 1 1).
  vm_compute. left. reflexivity.
Defined.

Section ExperimentRun.
Context {G : Type}.
Variable default_rng : Z -> G.
Variables rng_random rng_normal : G -> nat -> list Q * G.
Hypothesis rng_random_length :
  forall g n, length (fst (rng_random g n)) = n.
Hypothesis rng_normal_length :
  forall g n, length (fst (rng_normal g n)) = n.

Lemma experiment_assignments_users ev seed :
  map a_user_id (experiment_assignments default_rng rng_random ev seed)
  = drop_duplicates Z.eq_dec (map user_id ev).
Proof.
  unfold experiment_assignments, random_assign_users.
  apply assign_rows_users. now rewrite !length_map, rng_random_length.
Qed.

Lemma experiment_metrics_user ev u views pre :
  In (u, views, pre) (experiment_metrics ev) -> In u (map user_id ev).
Proof.
  rewrite experiment_metrics_eq. intros Hin.
  apply in_map_iff in Hin as ([u' n] & Heq & Hin).
  cbn [fst snd] in Heq. injection Heq as -> _ _.
  apply user_metric_In in Hin as (t0 & Ht0 & _). now apply is_t0_user in Ht0.
Qed.

(** X23.  In the experiment run the assignment table has exactly one row
    for every distinct user of the log, so every row of the simulated
    frame carries the variant drawn for its user, T or C, and none falls
    back to the default; the frame has one row per row of the seven-day
    metric, and the run stops early exactly when that metric is empty. *)
Theorem experiment_frame_assigned (ev : list event_row) (lift_pct : Q)
    (seed : Z) :
  NoDup (map a_user_id (experiment_assignments default_rng rng_random ev seed))
  /\ (forall u, In u (map a_user_id
                        (experiment_assignments default_rng rng_random ev seed))
                <-> In u (map user_id ev))
  /\ (experiment_frame default_rng rng_random rng_normal ev lift_pct seed
      = None <-> user_metric ev 7 = [])
  /\ forall frame,
       experiment_frame default_rng rng_random rng_normal ev lift_pct seed
       = Some frame ->
       map (fun r => fst (fst r)) frame = experiment_metrics ev
       /\ forall m label y,
            In (m, label, y) frame ->
            exists a,
              In a (experiment_assignments default_rng rng_random ev seed)
              /\ a_user_id a = fst (fst m) /\ variant a = label
              /\ (label = "T"%string \/ label = "C"%string).
Proof.
  assert (Hnd : NoDup (map a_user_id
                         (experiment_assignments default_rng rng_random ev seed))).
  { rewrite experiment_assignments_users. apply drop_duplicates_NoDup. }
  assert (Hmem : forall u,
    In u (map a_user_id (experiment_assignments default_rng rng_random ev seed))
    <-> In u (map user_id ev)).
  { intros u. rewrite experiment_assignments_users.
    apply drop_duplicates_In. }
  split; [exact Hnd|]. split; [exact Hmem|]. split.
  - unfold experiment_frame. rewrite experiment_metrics_eq.
    destruct (user_metric ev 7) as [|r t]; simpl; split; try reflexivity;
      discriminate.
  - intros frame Hframe. unfold experiment_frame in Hframe.
    destruct (experiment_metrics ev) as [|m0 ms] eqn:Em; [discriminate|].
    injection Hframe as <-. rewrite <- Em in *.
    destruct (simulate_treatment_effect_rows default_rng rng_normal
                rng_normal_length (experiment_metrics ev) _ Hnd lift_pct seed)
      as [Hrows Hnth].
    split; [exact Hrows|].
    intros m label y Hin.
    apply In_nth_error in Hin as [i Hi].
    assert (Hm : nth_error (experiment_metrics ev) i = Some m).
    { rewrite <- Hrows, nth_error_map, Hi. reflexivity. }
    destruct (Hnth i m Hm) as (d & _ & Hrow & _ & Hassigned).
    rewrite Hi in Hrow. injection Hrow as Hlabel _.
    destruct m as [[u views] pre].
    assert (Hu : In u (map a_user_id
                         (experiment_assignments default_rng rng_random ev seed))).
    { apply Hmem.
      apply (experiment_metrics_user ev u views pre).
      now apply (nth_error_In _ i). }
    apply in_map_iff in Hu as (a & Hau & Ha).
    exists a. cbn [fst] in *. split; [exact Ha|]. split; [exact Hau|].
    rewrite (Hassigned a Ha Hau) in Hlabel.
    split; [now symmetry|].
    rewrite Hlabel. unfold experiment_assignments, random_assign_users in Ha.
    apply assign_rows_In in Ha as (d' & _ & ->). unfold label_of_draw.
    destruct (negb (Qle_bool (1 # 2) d')); auto.
Qed.
End ExperimentRun.

Lemma experiment_frame_assigned_witness :
  experiment_frame lcg_default_rng lcg_random lcg_normal sample_log
                   (12 # 100) 7
  = None <-> user_metric sample_log 7 = [].
Proof.
  apply (proj1 (proj2 (proj2
           (experiment_frame_assigned lcg_default_rng lcg_random lcg_normal
              lcg_random_length lcg_normal_length sample_log (12 # 100) 7)))).
Defined.

(** ** The KPIs *)

Lemma fold_left_max_spec t x :
  In (fold_left Z.max t x) (x :: t)
  /\ forall y, In y (x :: t) -> y <= fold_left Z.max t x.
Proof.
  revert x. induction t as [|a t IH]; intros x; simpl.
  - split; [now left|]. intros y [<-|[]]. lia.
  - destruct (IH (Z.max x a)) as [Hin Hle]. split.
    + destruct Hin as [Hm|Hin]; [|now right; right].
      rewrite <- Hm. destruct (Z.max_spec x a) as [[_ ->]|[_ ->]]; auto.
    + intros y Hy.
      assert (Hmax : Z.max x a <= fold_left Z.max t (Z.max x a))
        by (apply Hle; now left).
      destruct Hy as [<-|[<-|Hy]]; [lia|lia|].
      apply Hle. now right.
Qed.

Lemma series_max_spec l m :
  series_max l = Some m -> In m l /\ forall y, In y l -> y <= m.
Proof.
  destruct l as [|x t]; simpl; [discriminate|].
  intros [= <-]. apply fold_left_max_spec.
Qed.

Lemma day_bins_In dates d :
  In d (day_bins dates)
  <-> exists lo hi,
        series_min dates = Some lo /\ series_max dates = Some hi
        /\ lo <= d <= hi.
Proof.
  unfold day_bins. destruct (series_min dates) as [lo|] eqn:Emin.
  - destruct (series_max dates) as [hi|] eqn:Emax.
    + rewrite in_map_iff. split.
      * intros (k & <- & Hk). apply in_seq in Hk. exists lo, hi.
        repeat split; auto; lia.
      * intros (lo' & hi' & [= <-] & [= <-] & Hd).
        exists (Z.to_nat (d - lo)). split; [lia|]. apply in_seq. lia.
    + split; [intros []|]. intros (lo' & hi' & _ & H & _). discriminate.
  - split; [intros []|]. intros (lo' & hi' & H & _). discriminate.
Qed.

Lemma day_bins_NoDup dates : NoDup (day_bins dates).
Proof.
  unfold day_bins. destruct (series_min dates) as [lo|]; [|constructor].
  destruct (series_max dates) as [hi|]; [|constructor].
  apply NoDup_map_NoDup_ForallPairs; [|apply seq_NoDup].
  intros a b _ _ H. lia.
Qed.

Lemma rolling_mean_length window l :
  length (rolling_mean window l) = length l.
Proof. unfold rolling_mean. now rewrite length_map, length_seq. Qed.

Lemma dates_in_bins ev d :
  In d (map event_date ev) -> In d (day_bins (map event_date ev)).
Proof.
  intros Hd. apply day_bins_In.
  destruct (series_min_nonempty (map event_date ev)) as [lo Hlo].
  { intros H. rewrite H in Hd. destruct Hd. }
  assert (Hhi : exists hi, series_max (map event_date ev) = Some hi).
  { destruct (map event_date ev); [destruct Hd|]. simpl. eauto. }
  destruct Hhi as [hi Hhi]. exists lo, hi.
  split; [exact Hlo|]. split; [exact Hhi|].
  apply series_min_spec in Hlo as [_ Hlo].
  apply series_max_spec in Hhi as [_ Hhi]. split; auto.
Qed.

Lemma product_kpis_lengths ev :
  product_kpis ev <> None
  <-> length (day_bins (map event_date ev))
      = length (drop_duplicates Z.eq_dec (map event_date ev)).
Proof.
  unfold product_kpis.
  rewrite rolling_mean_length, !length_map.
  unfold groupby, group_keys. rewrite length_map, sort_values_length.
  destruct (length (day_bins (map event_date ev))
            =? length (drop_duplicates Z.eq_dec (map event_date ev)))%nat
    eqn:E.
  - apply Nat.eqb_eq in E. split; [intros _; exact E|discriminate].
  - apply Nat.eqb_neq in E. split; [congruence|contradiction].
Qed.

Lemma product_kpis_raises_on_gap_iff (ev : list event_row) :
  product_kpis ev <> None <-> no_gap_day ev.
Proof.
  rewrite product_kpis_lengths. split.
  - intros Hlen e e' d He He' Hd.
    assert (Hincl : incl (day_bins (map event_date ev))
                         (drop_duplicates Z.eq_dec (map event_date ev))).
    { apply NoDup_length_incl.
      - apply drop_duplicates_NoDup.
      - lia.
      - intros x Hx. apply drop_duplicates_In in Hx.
        now apply dates_in_bins. }
    assert (Hbin : In d (day_bins (map event_date ev))).
    { apply day_bins_In.
      assert (Hne : map event_date ev <> [])
        by (destruct ev; [destruct He|discriminate]).
      destruct (series_min_nonempty _ Hne) as [lo Hlo].
      assert (Hhi : exists hi, series_max (map event_date ev) = Some hi)
        by (destruct (map event_date ev); [congruence|simpl; eauto]).
      destruct Hhi as [hi Hhi]. exists lo, hi.
      split; [exact Hlo|]. split; [exact Hhi|].
      apply series_min_spec in Hlo as [_ Hlo].
      apply series_max_spec in Hhi as [_ Hhi].
      specialize (Hlo (event_date e) (in_map _ _ _ He)).
      specialize (Hhi (event_date e') (in_map _ _ _ He')). lia. }
    apply Hincl, drop_duplicates_In, in_map_iff in Hbin as (e'' & Hd'' & He'').
    now exists e''.
  - intros Hgap. apply NoDup_same_length.
    + apply day_bins_NoDup.
    + apply drop_duplicates_NoDup.
    + intros d. rewrite drop_duplicates_In. split; [|apply dates_in_bins].
      intros Hd. apply day_bins_In in Hd as (lo & hi & Hlo & Hhi & Hd).
      apply series_min_spec in Hlo as [Hlo _].
      apply series_max_spec in Hhi as [Hhi _].
      apply in_map_iff in Hlo as (e & He & Hein).
      apply in_map_iff in Hhi as (e' & He' & Hein').
      destruct (Hgap e e' d Hein Hein' ltac:(lia)) as (e'' & Hin & <-).
      now apply in_map.
Qed.

(** X24.  [product_kpis] returns its KPIs exactly when the log has an
    event on every calendar day between its first and its last day; a
    day without events in between makes the assignment of the rolling
    column fail with a ValueError. *)
Theorem product_kpis_raises_on_gap (ev : list event_row) :
  product_kpis ev <> None <-> no_gap_day ev.
Proof. apply product_kpis_raises_on_gap_iff. Qed.

Lemma product_kpis_raises_on_gap_witness :
  product_kpis gap_log = None /\ product_kpis two_day_log <> None.
Proof.
  split.
  - destruct (product_kpis gap_log) eqn:E; [|reflexivity].
    exfalso.
    assert (Hok : product_kpis gap_log <> None) by (rewrite E; discriminate).
    apply (proj1 (product_kpis_raises_on_gap gap_log)) in Hok.
    destruct (Hok (mk_event 1 10 100 "view")
                  (mk_event 1 11 (2 * 86400 + 5) "view") 1)
      as (e & He & Hd).
    + now left.
    + right. now left.
    + vm_compute. split; discriminate.
    + destruct He as [<-|[<-|[]]]; vm_compute in Hd; discriminate.
  - apply (proj2 (product_kpis_raises_on_gap two_day_log)).
    intros e e' d He He' Hd.
    assert (Hr : d = 0 \/ d = 1).
    { destruct He as [<-|[<-|[<-|[]]]], He' as [<-|[<-|[<-|[]]]];
        vm_compute in Hd; destruct Hd as [H1 H2];
        destruct d as [|[p|p|]|p]; auto; try (exfalso; apply H1; reflexivity);
        try (exfalso; apply H2; reflexivity). }
    destruct Hr as [-> | ->].
    + exists (mk_event 1 10 100 "view"). split; [now left|reflexivity].
    + exists (mk_event 1 11 (86400 + 5) "view").
      split; [right; right; now left|reflexivity].
Defined.

Lemma firstn_incl {A} n (l : list A) x : In x (firstn n l) -> In x l.
Proof.
  revert l. induction n as [|n IH]; intros [|a t]; simpl; try tauto.
  intros [H|H]; [now left|right; now apply IH].
Qed.

Lemma skipn_incl {A} n (l : list A) x : In x (skipn n l) -> In x l.
Proof.
  revert l. induction n as [|n IH]; intros [|a t]; simpl; try tauto.
  intros H. right. now apply IH.
Qed.

Lemma series_sum_bounds (l : list Q) (lo hi : Q) :
  (forall x, In x l -> lo <= x <= hi)%Q ->
  (inject_Z (Z.of_nat (length l)) * lo <= series_sum l
   <= inject_Z (Z.of_nat (length l)) * hi)%Q.
Proof.
  induction l as [|a t IH]; intros H.
  - simpl. split; rewrite Qmult_0_l; apply Qle_refl.
  - assert (Ht := IH (fun x Hx => H x (or_intror Hx))).
    assert (Ha := H a (or_introl eq_refl)).
    cbn [length series_sum fold_right]. fold (series_sum t).
    rewrite Nat2Z.inj_succ. unfold Z.succ. rewrite inject_Z_plus.
    change (inject_Z 1) with 1%Q.
    set (n := inject_Z (Z.of_nat (length t))) in *.
    split.
    + setoid_replace ((n + 1) * lo)%Q with (n * lo + lo)%Q by ring. lra.
    + setoid_replace ((n + 1) * hi)%Q with (n * hi + hi)%Q by ring. lra.
Qed.

Lemma series_mean_bounds (l : list Q) (lo hi : Q) :
  l <> [] -> (forall x, In x l -> lo <= x <= hi)%Q ->
  (lo <= series_mean l <= hi)%Q.
Proof.
  intros Hne H. destruct (series_sum_bounds l lo hi H) as [Hlo Hhi].
  assert (Hn : (0 < inject_Z (Z.of_nat (length l)))%Q).
  { destruct l; [congruence|]. unfold Qlt. simpl. lia. }
  unfold series_mean. split.
  - apply Qle_shift_div_l; [exact Hn|]. now rewrite Qmult_comm.
  - apply Qle_shift_div_r; [exact Hn|]. now rewrite Qmult_comm.
Qed.

Lemma series_sum_nonneg (l : list Q) :
  (forall x, In x l -> 0 <= x)%Q -> (0 <= series_sum l)%Q.
Proof.
  induction l as [|a t IH]; intros H; [apply Qle_refl|].
  assert (Ha := H a (or_introl eq_refl)).
  assert (Ht := IH (fun x Hx => H x (or_intror Hx))).
  cbn [series_sum fold_right]. fold (series_sum t). lra.
Qed.

Lemma series_mean_nonneg (l : list Q) :
  (forall x, In x l -> 0 <= x)%Q -> (0 <= series_mean l)%Q.
Proof.
  intros H. pose proof (series_sum_nonneg l H) as Hs.
  unfold series_mean. destruct l as [|a t].
  - discriminate.
  - apply Qle_shift_div_l; [unfold Qlt; simpl; lia|].
    now rewrite Qmult_0_l.
Qed.

Lemma drop_duplicates_length_le {A}
    (eq_dec : forall x y : A, {x = y} + {x <> y}) l :
  (length (drop_duplicates eq_dec l) <= length l)%nat.
Proof.
  induction l as [|a t IH]; simpl; [lia|].
  pose proof (filter_length_le (fun y => if eq_dec a y then false else true)
                (drop_duplicates eq_dec t)). lia.
Qed.

Lemma groupby_values {Row K R} (K_eq_dec : forall x y : K, {x = y} + {x <> y})
    (K_leb : K -> K -> bool) (key : Row -> K) (agg : list Row -> R) rows :
  map snd (groupby K_eq_dec K_leb key agg rows)
  = map (fun k => agg (group_rows K_eq_dec key k rows))
        (group_keys K_eq_dec K_leb key rows).
Proof. unfold groupby. rewrite map_map. reflexivity. Qed.

Lemma series_sum_le_pointwise {A} (f g : A -> Q) l :
  (forall a, In a l -> f a <= g a)%Q ->
  (series_sum (map f l) <= series_sum (map g l))%Q.
Proof.
  induction l as [|a t IH]; intros H; simpl; [apply Qle_refl|].
  assert (Ha := H a (or_introl eq_refl)).
  assert (Ht := IH (fun x Hx => H x (or_intror Hx))).
  fold (series_sum (map f t)). fold (series_sum (map g t)). lra.
Qed.

Section KpiOrder.
Variable ev : list event_row.
Hypothesis ev_nonempty : ev <> [].

Lemma kpi_days_nonempty : group_keys Z.eq_dec Z.leb event_date ev <> [].
Proof.
  destruct ev as [|e t]; [congruence|]. intros H.
  assert (Hin : In (event_date e)
                   (group_keys Z.eq_dec Z.leb event_date (e :: t)))
    by (apply group_keys_In; now left).
  rewrite H in Hin. destruct Hin.
Qed.

Lemma kpi_day_users d :
  In d (group_keys Z.eq_dec Z.leb event_date ev) ->
  1 <= nunique (map user_id (group_rows Z.eq_dec event_date d ev))
    <= Z.of_nat (length (group_rows Z.eq_dec event_date d ev)).
Proof.
  intros Hd. apply group_keys_In in Hd.
  apply (group_nonempty_iff Z.eq_dec) in Hd. split.
  - apply nunique_pos.
    destruct (group_rows Z.eq_dec event_date d ev);
      [simpl in Hd; lia|discriminate].
  - unfold nunique. apply inj_le.
    rewrite <- (length_map user_id (group_rows Z.eq_dec event_date d ev)).
    apply drop_duplicates_length_le.
Qed.
End KpiOrder.

Lemma mean_float_nonempty (l : list Q) :
  l <> [] -> mean_float l = Fin (series_mean l).
Proof. destruct l; [congruence|reflexivity]. Qed.

Lemma map_nonempty {A B} (f : A -> B) l : l <> [] -> map f l <> [].
Proof. destruct l; [congruence|discriminate]. Qed.

Lemma nonempty_of_length {A B} (l : list A) (l' : list B) :
  length l = length l' -> l' <> [] -> l <> [].
Proof. destruct l, l'; simpl; congruence. Qed.

Lemma rolling_mean_nonneg window (l : list Q) x :
  (forall y, In y l -> 0 <= y)%Q ->
  In x (rolling_mean window l) -> (0 <= x)%Q.
Proof.
  intros H Hx. unfold rolling_mean in Hx.
  apply in_map_iff in Hx as (i & <- & _).
  apply series_mean_nonneg. intros y Hy.
  apply H. now apply firstn_incl, skipn_incl in Hy.
Qed.

(** X25.  On an empty log every KPI is NaN.  On any other log for which
    [product_kpis] returns, the KPIs are numbers: the average DAU is at
    least 1 and at most the peak DAU, it is at most the average number of
    events per day, and the DAU/MAU proxy is positive. *)
Theorem product_kpis_ordered (ev : list event_row) :
  (ev = [] -> product_kpis ev = Some (mk_kpis NaN NaN NaN NaN))
  /\ (ev <> [] ->
      forall k, product_kpis ev = Some k ->
      exists a p r e,
        avg_DAU k = Fin a /\ peak_DAU k = Fin p
        /\ DAU_MAU_proxy k = Fin r /\ avg_daily_events k = Fin e
        /\ (1 <= a <= p)%Q /\ (a <= e)%Q /\ (0 < r)%Q).
Proof.
  split; [intros ->; reflexivity|].
  intros Hne k Hk. unfold product_kpis in Hk.
  destruct (_ =? _)%nat eqn:Elen in Hk; [|discriminate].
  apply Nat.eqb_eq in Elen. injection Hk as <-.
  cbn [avg_DAU peak_DAU DAU_MAU_proxy avg_daily_events].
  pose proof (kpi_days_nonempty ev Hne) as Hkeys.
  set (keys := group_keys Z.eq_dec Z.leb event_date ev) in *.
  set (f := fun d => nunique (map user_id (group_rows Z.eq_dec event_date d ev))).
  set (g := fun d => Z.of_nat (length (group_rows Z.eq_dec event_date d ev))).
  assert (Hdau : map (fun r : Z * Z => inject_Z (snd r))
                     (groupby Z.eq_dec Z.leb event_date
                              (fun g => nunique (map user_id g)) ev)
                 = map (fun d => inject_Z (f d)) keys).
  { rewrite <- (map_map snd inject_Z), groupby_values, map_map. reflexivity. }
  assert (Hevs : map (fun r : Z * Z => inject_Z (snd r))
                     (groupby Z.eq_dec Z.leb event_date
                              (fun g => Z.of_nat (length g)) ev)
                 = map (fun d => inject_Z (g d)) keys).
  { rewrite <- (map_map snd inject_Z), groupby_values, map_map. reflexivity. }
  assert (Hsnd : map snd (groupby Z.eq_dec Z.leb event_date
                                  (fun g => nunique (map user_id g)) ev)
                 = map f keys)
    by exact (groupby_values Z.eq_dec Z.leb event_date
                (fun g => nunique (map user_id g)) ev).
  rewrite Hdau, Hevs, Hsnd.
  rewrite (mean_float_nonempty (map (fun d => inject_Z (f d)) keys))
    by now apply map_nonempty.
  rewrite (mean_float_nonempty (map (fun d => inject_Z (g d)) keys))
    by now apply map_nonempty.
  assert (Hmax : exists m, series_max (map f keys) = Some m).
  { destruct (map f keys) eqn:E; [|simpl; eauto].
    apply map_nonempty with (f := f) in Hkeys. congruence. }
  destruct Hmax as [m Hm]. rewrite Hm.
  apply series_max_spec in Hm as [_ Hm].
  assert (Hroll : mean_float
                    (rolling_mean 30
                       (map inject_Z
                          (map (fun d => nunique
                                  (map user_id
                                     (filter (fun e => event_date e =? d) ev)))
                               (day_bins (map event_date ev)))))
                  = Fin (series_mean
                    (rolling_mean 30
                       (map inject_Z
                          (map (fun d => nunique
                                  (map user_id
                                     (filter (fun e => event_date e =? d) ev)))
                               (day_bins (map event_date ev))))))).
  { apply mean_float_nonempty.
    apply (nonempty_of_length _ _ Elen).
    unfold groupby. apply map_nonempty. exact Hkeys. }
  rewrite Hroll.
  assert (Hb : (0 <= series_mean
                    (rolling_mean 30
                       (map inject_Z
                          (map (fun d => nunique
                                  (map user_id
                                     (filter (fun e => event_date e =? d) ev)))
                               (day_bins (map event_date ev))))))%Q).
  { apply series_mean_nonneg. intros x Hx.
    apply (rolling_mean_nonneg _ _ _) in Hx; [exact Hx|].
    intros y Hy. rewrite map_map in Hy.
    apply in_map_iff in Hy as (d & <- & _).
    unfold nunique. change 0%Q with (inject_Z 0). rewrite <- Zle_Qle. lia. }
  set (b := series_mean (rolling_mean 30 _)) in *.
  assert (Ha : (1 <= series_mean (map (fun d => inject_Z (f d)) keys)
                <= inject_Z m)%Q).
  { apply series_mean_bounds; [now apply map_nonempty|].
    intros x Hx. apply in_map_iff in Hx as (d & <- & Hd).
    pose proof (kpi_day_users ev d Hd) as [Hlo _]. fold (f d) in Hlo.
    specialize (Hm (f d) (in_map f _ _ Hd)).
    change 1%Q with (inject_Z 1). rewrite <- !Zle_Qle. lia. }
  set (a := series_mean (map (fun d => inject_Z (f d)) keys)) in *.
  eexists a, (inject_Z m), _, _.
  repeat (split; [reflexivity|]).
  split; [exact Ha|]. split.
  - unfold a, series_mean. rewrite !length_map.
    apply Qmult_le_compat_r.
    + apply series_sum_le_pointwise. intros d Hd.
      pose proof (kpi_day_users ev d Hd) as [_ Hhi]. fold (f d) (g d) in Hhi.
      now rewrite <- Zle_Qle.
    + apply Qinv_le_0_compat. change 0%Q with (inject_Z 0).
      rewrite <- Zle_Qle. lia.
  - apply Qlt_shift_div_l.
    + unfold kpi_epsilon. lra.
    + rewrite Qmult_0_l. lra.
Qed.

Lemma product_kpis_ordered_witness :
  exists k,
    product_kpis two_day_log = Some k
    /\ exists a p r e,
         avg_DAU k = Fin a /\ peak_DAU k = Fin p
         /\ DAU_MAU_proxy k = Fin r /\ avg_daily_events k = Fin e
         /\ (1 <= a <= p)%Q /\ (a <= e)%Q /\ (0 < r)%Q.
Proof.
  destruct (product_kpis two_day_log) as [k|] eqn:Hk;
    [|vm_compute in Hk; discriminate].
  exists k. split; [reflexivity|].
  apply (proj2 (product_kpis_ordered two_day_log)); [discriminate|exact Hk].
Defined.

(** ** The dashboard build *)

Lemma derive_events_dates ratings d :
  (exists e, In e (derive_events ratings) /\ event_date e = d)
  <-> exists r, In r ratings /\ timestamp r / SECONDS_PER_DAY = d.
Proof.
  split.
  - intros (e & He & Hd). apply derive_events_In in He as (r & Hr & Hkind).
    exists r. split; [exact Hr|].
    destruct Hkind as [->|[[-> _]|[-> _]]]; exact Hd.
  - intros (r & Hr & Hd). exists (cast_event "view" r). split; [|exact Hd].
    apply derive_events_In. exists r. auto.
Qed.

Lemma derive_events_no_gap ratings :
  no_gap_day (derive_events ratings) <-> no_gap_rating_day ratings.
Proof.
  split.
  - intros H r r' d Hr Hr' Hd.
    apply derive_events_dates.
    apply (H (cast_event "view" r) (cast_event "view" r') d); auto;
      apply derive_events_In; eauto.
  - intros H e e' d He He' Hd.
    destruct (proj1 (derive_events_dates ratings (event_date e)))
      as (r & Hr & Hrd); [now exists e|].
    destruct (proj1 (derive_events_dates ratings (event_date e')))
      as (r' & Hr' & Hrd'); [now exists e'|].
    apply derive_events_dates. apply (H r r' d Hr Hr'). lia.
Qed.

Lemma derive_events_length ratings :
  length (derive_events ratings)
  = (length ratings
     + length (filter (fun r => Qle_bool 4 (rating r)) ratings)
     + length (filter (fun r => Qle_bool (9 # 2) (rating r)) ratings))%nat.
Proof.
  rewrite <- (Permutation_length (derive_events_perm ratings)).
  rewrite !length_map, !length_app, !length_map. unfold rating_ge. lia.
Qed.

Lemma derive_events_strongly_sorted ratings :
  StronglySorted (fun a b => ts a <= ts b) (derive_events ratings).
Proof.
  apply Sorted_StronglySorted; [|apply derive_events_sorted].
  intros a b c Hab Hbc. lia.
Qed.

Lemma StronglySorted_firstn {A} (R : A -> A -> Prop) n l :
  StronglySorted R l -> StronglySorted R (firstn n l).
Proof.
  intros H. revert n. induction H as [|a l Hl IH Ha]; intros [|n];
    cbn [firstn]; try constructor.
  - apply IH.
  - rewrite Forall_forall in *. intros x Hx. apply Ha.
    now apply (firstn_incl n l).
Qed.

Lemma StronglySorted_split {A} (R : A -> A -> Prop) n l :
  StronglySorted R l ->
  forall a b, In a (firstn n l) -> In b (skipn n l) -> R a b.
Proof.
  intros H. revert n. induction H as [|x l Hl IH Hx]; intros [|n] a b;
    cbn [firstn skipn]; try (intros []; fail).
  intros [<-|Ha] Hb.
  - rewrite Forall_forall in Hx. apply Hx. now apply (skipn_incl n l).
  - exact (IH n a b Ha Hb).
Qed.

(** X26.  The dashboard build returns its tables exactly when the rating
    timestamps skip no calendar day between the first and the last; with
    a skipped day the KPI step raises and neither cohorts nor funnel are
    returned.  When it returns, the events shown are the earliest of the
    log, 1000 of them or all when the log is shorter: they are in
    ascending timestamp order, and together with events that are none
    earlier than any of them they make up the derived log. *)
Theorem build_all_tables_returns (ratings : list rating_row) :
  (build_all_tables ratings <> None <-> no_gap_rating_day ratings)
  /\ forall shown k cohorts funnel,
       build_all_tables ratings = Some (shown, k, cohorts, funnel) ->
       length shown
       = Nat.min 1000
           (length ratings
            + length (filter (fun r => Qle_bool 4 (rating r)) ratings)
            + length (filter (fun r => Qle_bool (9 # 2) (rating r))
                             ratings))
       /\ Sorted (fun a b => ts a <= ts b) shown
       /\ exists rest,
            Permutation (shown ++ rest) (derive_events ratings)
            /\ forall a b, In a shown -> In b rest -> ts a <= ts b.
Proof.
  split.
  - rewrite <- derive_events_no_gap.
    rewrite <- (product_kpis_raises_on_gap_iff (derive_events ratings)).
    unfold build_all_tables.
    destruct (product_kpis (derive_events ratings)); split; congruence.
  - intros shown k cohorts funnel H. unfold build_all_tables in H.
    destruct (product_kpis (derive_events ratings)) as [k'|]; [|discriminate].
    pose proof (derive_events_strongly_sorted ratings) as Hs.
    pose proof (derive_events_length ratings) as Hlen.
    remember (derive_events ratings) as log eqn:Hlog.
    assert (Hshown : shown = firstn 1000 log) by (inversion H; reflexivity).
    clear H. subst shown. split; [|split].
    + now rewrite length_firstn, Hlen.
    + apply StronglySorted_Sorted, StronglySorted_firstn, Hs.
    + exists (skipn 1000 log). split.
      * rewrite firstn_skipn. apply Permutation_refl.
      * now apply StronglySorted_split.
Qed.

Lemma build_all_tables_returns_witness :
  exists shown k cohorts funnel,
    build_all_tables two_day_ratings = Some (shown, k, cohorts, funnel)
    /\ length shown = 6%nat
    /\ Sorted (fun a b => ts a <= ts b) shown.
Proof.
  destruct (build_all_tables two_day_ratings) as [[[[shown k] c] f]|] eqn:E;
    [|vm_compute in E; discriminate].
  exists shown, k, c, f. split; [reflexivity|].
  destruct (proj2 (build_all_tables_returns two_day_ratings) _ _ _ _ E)
    as (Hlen & Hsorted & _).
  split; [exact Hlen|exact Hsorted].
Defined.

(** ** The data download *)

Lemma file_exists_write_same path content w :
  file_exists (write_file path content w) path = true.
Proof.
  unfold file_exists, write_file. cbn [files existsb fst].
  now rewrite String.eqb_refl.
Qed.

Lemma file_exists_write_other path path' content w :
  path <> path' ->
  file_exists (write_file path content w) path' = file_exists w path'.
Proof.
  intros Hne. unfold file_exists, write_file. cbn [files existsb fst].
  apply String.eqb_neq in Hne. rewrite Hne. cbn [orb].
  induction (files w) as [|f fs IH]; [reflexivity|].
  cbn [filter existsb].
  destruct (String.eqb (fst f) path) eqn:Hf; cbn [negb existsb].
  - apply String.eqb_eq in Hf. rewrite Hf, Hne. exact IH.
  - now rewrite IH.
Qed.

Lemma read_file_write_same path content w :
  read_file (write_file path content w) path = Some content.
Proof.
  unfold read_file, write_file. cbn [files find fst].
  now rewrite String.eqb_refl.
Qed.

Lemma read_file_write_other path path' content w :
  path <> path' ->
  read_file (write_file path content w) path' = read_file w path'.
Proof.
  intros Hne. unfold read_file, write_file. cbn [files find fst].
  apply String.eqb_neq in Hne. rewrite Hne. f_equal.
  induction (files w) as [|f fs IH]; [reflexivity|].
  cbn [filter find].
  destruct (String.eqb (fst f) path) eqn:Hf; cbn [negb find].
  - apply String.eqb_eq in Hf. rewrite Hf, Hne. exact IH.
  - now rewrite IH.
Qed.

Lemma download_movielens_skip http_get convert disk w :
  file_exists w ratings_csv = true ->
  file_exists w users_csv = true ->
  file_exists w movies_csv = true ->
  download_movielens http_get convert disk w = (w, Returned).
Proof.
  intros Hr Hu Hm. unfold download_movielens. now rewrite Hr, Hu, Hm.
Qed.

Ltac other_path := first [discriminate | congruence].

Ltac read_back :=
  repeat first
    [ rewrite read_file_write_same
    | rewrite read_file_write_other by other_path
    | rewrite file_exists_write_same
    | rewrite file_exists_write_other by other_path ].

(** A call that returns after a request has run every step: the response
    arrived, it was converted, and the four writes succeeded. *)
Lemma download_movielens_completed http_get convert disk w w' :
  file_exists w ratings_csv && file_exists w users_csv
    && file_exists w movies_csv = false ->
  download_movielens http_get convert disk w = (w', Returned) ->
  exists content ratings users movies,
    http_get = Some content
    /\ convert content = Some (ratings, users, movies)
    /\ w' = write_file movies_csv movies
              (write_file users_csv users
                 (write_file ratings_csv ratings
                    (write_file DEST content
                       (mk_world (files w) (S (requests w)))))).
Proof.
  intros Hall H. unfold download_movielens in H. rewrite Hall in H.
  destruct http_get as [content|]; [|discriminate].
  unfold try_write in H.
  destruct (disk DEST); try discriminate.
  destruct (convert content) as [[[r u] m]|] eqn:Hc; [|discriminate].
  destruct (disk ratings_csv); try discriminate.
  destruct (disk users_csv); try discriminate.
  destruct (disk movies_csv); try discriminate.
  inversion H. now exists content, r, u, m.
Qed.

Lemma download_movielens_returned http_get convert disk w w' :
  download_movielens http_get convert disk w = (w', Returned) ->
  file_exists w' ratings_csv = true
  /\ file_exists w' users_csv = true
  /\ file_exists w' movies_csv = true.
Proof.
  intros H.
  destruct (file_exists w ratings_csv && file_exists w users_csv
            && file_exists w movies_csv) eqn:Hall.
  - unfold download_movielens in H. rewrite Hall in H.
    inversion H; subst w'.
    apply andb_prop in Hall as [Hall Hm]. apply andb_prop in Hall as [Hr Hu].
    auto.
  - destruct (download_movielens_completed _ _ _ _ _ Hall H)
      as (content & r & u & m & _ & _ & ->).
    split; [|split]; read_back; reflexivity.
Qed.

(** X27.  The download is idempotent: after a call that returned, a
    further call returns with the files and the number of requests as
    they are, whatever the network would answer. *)
Theorem download_movielens_idempotent
    (http_get http_get' : option string)
    (convert convert' : string -> option (string * string * string))
    (disk disk' : string -> write_result)
    (w w' : world) :
  download_movielens http_get convert disk w = (w', Returned) ->
  download_movielens http_get' convert' disk' w' = (w', Returned).
Proof.
  intros H. apply download_movielens_returned in H as (Hr & Hu & Hm).
  now apply download_movielens_skip.
Qed.

Lemma download_movielens_idempotent_witness :
  download_movielens (Some "zip"%string) sample_convert sound_disk
    empty_world
  = (fst (download_movielens (Some "zip"%string) sample_convert sound_disk
            empty_world),
     Returned)
  /\ download_movielens None (fun _ => None) failing_disk
       (fst (download_movielens (Some "zip"%string) sample_convert
               sound_disk empty_world))
     = (fst (download_movielens (Some "zip"%string) sample_convert
               sound_disk empty_world), Returned).
Proof.
  split; [reflexivity|].
  apply (download_movielens_idempotent (Some "zip"%string) None
           sample_convert (fun _ => None) sound_disk failing_disk
           empty_world).
  reflexivity.
Defined.

(** X28.  A download that raises has made one request and has touched no
    file but the archive and the three CSVs.  It writes in order and
    undoes nothing: when the request fails no file changes, when the
    conversion fails no CSV changes, the users table changes only after
    the ratings table was written in full, and the movies table only after
    the users table was written in full as well. *)
Theorem download_movielens_raised
    (http_get : option string)
    (convert : string -> option (string * string * string))
    (disk : string -> write_result)
    (w w' : world) :
  download_movielens http_get convert disk w = (w', Raised) ->
  requests w' = S (requests w)
  /\ (forall path,
        path <> DEST -> path <> ratings_csv -> path <> users_csv ->
        path <> movies_csv ->
        read_file w' path = read_file w path)
  /\ (http_get = None -> files w' = files w)
  /\ (forall content,
        http_get = Some content -> convert content = None ->
        forall path, path <> DEST -> read_file w' path = read_file w path)
  /\ (read_file w' users_csv <> read_file w users_csv ->
      exists content ratings users movies,
        http_get = Some content
        /\ convert content = Some (ratings, users, movies)
        /\ read_file w' DEST = Some content
        /\ read_file w' ratings_csv = Some ratings)
  /\ (read_file w' movies_csv <> read_file w movies_csv ->
      exists content ratings users movies,
        http_get = Some content
        /\ convert content = Some (ratings, users, movies)
        /\ read_file w' DEST = Some content
        /\ read_file w' ratings_csv = Some ratings
        /\ read_file w' users_csv = Some users).
Proof.
  intros H. unfold download_movielens in H.
  destruct (file_exists w ratings_csv && file_exists w users_csv
            && file_exists w movies_csv); [discriminate|].
  destruct http_get as [content|].
  2: { inversion H; subst w'. cbn [requests files].
       split; [reflexivity|]. split; [reflexivity|]. split; [reflexivity|].
       split; [discriminate|].
       split; intros Hne; exfalso; apply Hne; reflexivity. }
  unfold try_write in H.
  assert (Huntouched : forall w1 : world,
    (forall path, path <> DEST -> read_file w1 path = read_file w path) ->
    requests w1 = S (requests w) -> w' = w1 ->
    requests w' = S (requests w)
    /\ (forall path,
          path <> DEST -> path <> ratings_csv -> path <> users_csv ->
          path <> movies_csv ->
          read_file w' path = read_file w path)
    /\ (forall path, path <> DEST -> read_file w' path = read_file w path)
    /\ read_file w' users_csv = read_file w users_csv
    /\ read_file w' movies_csv = read_file w movies_csv).
  { intros w1 Hread Hreq Hw. rewrite Hw. split; [exact Hreq|].
    split; [intros path Hp _ _ _; now apply Hread|].
    split; [exact Hread|].
    split; apply Hread; discriminate. }
  destruct (disk DEST) eqn:Hd.
  2: { destruct (Huntouched w') as (Hq & Hf & Hc & Hu & Hm);
         [inversion H; reflexivity|inversion H; reflexivity|reflexivity|].
       split; [exact Hq|]. split; [exact Hf|]. split; [discriminate|].
       split; [intros content' _ _; exact Hc|].
       split; intros Hne; exfalso; apply Hne; assumption. }
  2: { destruct (Huntouched w') as (Hq & Hf & Hc & Hu & Hm);
         [inversion H; intros path Hp; read_back; reflexivity
         |inversion H; reflexivity|reflexivity|].
       split; [exact Hq|]. split; [exact Hf|]. split; [discriminate|].
       split; [intros content' _ _; exact Hc|].
       split; intros Hne; exfalso; apply Hne; assumption. }
  destruct (convert content) as [[[r u] m]|] eqn:Hc.
  2: { destruct (Huntouched w') as (Hq & Hf & Hcsv & Hu & Hm);
         [inversion H; intros path Hp; read_back; reflexivity
         |inversion H; reflexivity|reflexivity|].
       split; [exact Hq|]. split; [exact Hf|]. split; [discriminate|].
       split; [intros content' _ _; exact Hcsv|].
       split; intros Hne; exfalso; apply Hne; assumption. }
  assert (Hconv : forall content',
    Some content = Some content' -> convert content' = None -> False).
  { intros content' [= <-] Hnone. congruence. }
  destruct (disk ratings_csv) eqn:Hr.
  2: { inversion H; subst w'. cbn [requests].
       split; [reflexivity|].
       split; [intros path H1 H2 H3 H4; read_back; reflexivity|].
       split; [discriminate|].
       split; [intros content' E1 E2; destruct (Hconv content' E1 E2)|].
       split; intros Hne; exfalso; apply Hne; read_back; reflexivity. }
  2: { inversion H; subst w'. cbn [requests].
       split; [reflexivity|].
       split; [intros path H1 H2 H3 H4; read_back; reflexivity|].
       split; [discriminate|].
       split; [intros content' E1 E2; destruct (Hconv content' E1 E2)|].
       split; intros Hne; exfalso; apply Hne; read_back; reflexivity. }
  destruct (disk users_csv) eqn:Hu.
  2: { inversion H; subst w'. cbn [requests].
       split; [reflexivity|].
       split; [intros path H1 H2 H3 H4; read_back; reflexivity|].
       split; [discriminate|].
       split; [intros content' E1 E2; destruct (Hconv content' E1 E2)|].
       split; intros Hne; exfalso; apply Hne; read_back; reflexivity. }
  2: { inversion H; subst w'. cbn [requests].
       split; [reflexivity|].
       split; [intros path H1 H2 H3 H4; read_back; reflexivity|].
       split; [discriminate|].
       split; [intros content' E1 E2; destruct (Hconv content' E1 E2)|].
       split.
       - intros _. exists content, r, u, m.
         split; [reflexivity|]. split; [exact Hc|].
         split; read_back; reflexivity.
       - intros Hne. exfalso. apply Hne. read_back. reflexivity. }
  destruct (disk movies_csv) eqn:Hm; [discriminate| |];
    inversion H; subst w'; cbn [requests];
    (split; [reflexivity|]);
    (split; [intros path H1 H2 H3 H4; read_back; reflexivity|]);
    (split; [discriminate|]);
    (split; [intros content' E1 E2; destruct (Hconv content' E1 E2)|]);
    (split; intros _; exists content, r, u, m;
     (split; [reflexivity|]); (split; [exact Hc|]);
     repeat split; read_back; reflexivity).
Qed.

Lemma download_movielens_raised_witness :
  download_movielens (Some "zip"%string) sample_convert failing_disk
    empty_world
  = (write_file users_csv "u"
       (write_file ratings_csv "r"
          (write_file DEST "zip" (mk_world [] 1))), Raised)
  /\ exists content ratings users movies,
       Some "zip"%string = Some content
       /\ sample_convert content = Some (ratings, users, movies)
       /\ read_file
            (write_file users_csv "u"
               (write_file ratings_csv "r"
                  (write_file DEST "zip" (mk_world [] 1)))) DEST
          = Some content
       /\ read_file
            (write_file users_csv "u"
               (write_file ratings_csv "r"
                  (write_file DEST "zip" (mk_world [] 1)))) ratings_csv
          = Some ratings.
Proof.
  split; [reflexivity|].
  apply (download_movielens_raised (Some "zip"%string) sample_convert
           failing_disk empty_world
           (write_file users_csv "u"
              (write_file ratings_csv "r"
                 (write_file DEST "zip" (mk_world [] 1))))
           eq_refl).
  discriminate.
Defined.

(** X29.  A download that returns after a request has made exactly one,
    and leaves the archive and the three CSVs holding the response and
    its three converted tables: no write overwrites another, and every
    other file reads as before. *)
Theorem download_movielens_writes
    (http_get : option string)
    (convert : string -> option (string * string * string))
    (disk : string -> write_result)
    (w w' : world) :
  file_exists w ratings_csv && file_exists w users_csv
    && file_exists w movies_csv = false ->
  download_movielens http_get convert disk w = (w', Returned) ->
  exists content ratings users movies,
    http_get = Some content
    /\ convert content = Some (ratings, users, movies)
    /\ requests w' = S (requests w)
    /\ read_file w' DEST = Some content
    /\ read_file w' ratings_csv = Some ratings
    /\ read_file w' users_csv = Some users
    /\ read_file w' movies_csv = Some movies
    /\ forall path,
         path <> DEST -> path <> ratings_csv -> path <> users_csv ->
         path <> movies_csv ->
         read_file w' path = read_file w path.
Proof.
  intros Hall H.
  destruct (download_movielens_completed _ _ _ _ _ Hall H)
    as (content & r & u & m & Hget & Hc & ->).
  exists content, r, u, m.
  split; [exact Hget|]. split; [exact Hc|]. split; [reflexivity|].
  split; [|split; [|split; [|split]]]; try (read_back; reflexivity).
  intros path H1 H2 H3 H4. read_back. reflexivity.
Qed.

Lemma download_movielens_writes_witness :
  exists content ratings users movies,
    Some "zip"%string = Some content
    /\ sample_convert content = Some (ratings, users, movies)
    /\ requests (fst (download_movielens (Some "zip"%string) sample_convert
                        sound_disk empty_world)) = 1%nat
    /\ read_file (fst (download_movielens (Some "zip"%string)
                         sample_convert sound_disk empty_world)) ratings_csv
       = Some ratings.
Proof.
  destruct (download_movielens_writes (Some "zip"%string) sample_convert
              sound_disk empty_world
              (fst (download_movielens (Some "zip"%string) sample_convert
                      sound_disk empty_world)) eq_refl eq_refl)
    as (c & r & u & m & H1 & H2 & H3 & _ & H5 & _).
  exists c, r, u, m. auto.
Defined.
